(** * MARBLE engine tool kit: archive and PRS image codecs

    A shallow embedding of the Python tools
    [ExMgData.py], [PkMgData.py], [PkmgGra.py], [ExmgGra.py] and
    [PRS_IMAGE_CONVERTER.py] (whose reader is also the one of
    [prs2bmp.py]), followed by the properties of the codec layer that are
    checked against it.

    Conventions of the embedding:
    - a Python [int] is a [Z]; a [bytes]/[bytearray] object is a [list Z]
      whose elements satisfy [is_byte] (the constructors [bytes([..])] and
      [bytearray.append] check the range, as Python does);
    - a binary file opened for reading is the list of its bytes together
      with a position ([nat]); reads past the end return fewer bytes; a file
      opened for writing with seeks is a [wfile], the bytes written so far
      and the position;
    - a [dict] with string keys is the list of its items in insertion
      order; [d[k] = v] is [dict_set];
    - a Python exception is a value of [exn]; code that can raise returns
      a [result];
    - [while] loops are run with a fuel bound; [OutOfFuel] is the only
      artefact of the model and is shown never to occur. *)

From Stdlib Require Import ZArith Lia Ascii String.
From stdpp Require Import base numbers list option gmap.

Local Open Scope Z_scope.

(** ** Python runtime *)

Module Py.

Inductive exn : Type :=
  | IndexError
  | ValueError (msg : string)
  | StructError
  | ZeroDivisionError
  | OutOfFuel.

Inductive result (A : Type) : Type :=
  | Ok (a : A)
  | Raise (e : exn).
Arguments Ok {A} a.
Arguments Raise {A} e.

#[global] Instance result_bind : MBind result := fun A B k m =>
  match m with
  | Ok a => k a
  | Raise e => Raise e
  end.
#[global] Instance result_ret : MRet result := fun A a => Ok a.

Definition is_byte (b : Z) : Prop := 0 <= b < 256.
Definition is_byteb (b : Z) : bool := (0 <=? b) && (b <? 256).
Definition wf_bytes (l : list Z) : Prop := Forall is_byte l.

(** [len(l)] *)
Definition len {A} (l : list A) : Z := Z.of_nat (length l).

(** [l[i]], with Python's negative indices. *)
Definition getitem (l : list Z) (i : Z) : result Z :=
  let j := if i <? 0 then len l + i else i in
  if (0 <=? j) && (j <? len l)
  then match l !! Z.to_nat j with
       | Some v => Ok v
       | None => Raise IndexError
       end
  else Raise IndexError.

(** [l[i] = v] on a bytearray. *)
Definition setitem (l : list Z) (i v : Z) : result (list Z) :=
  let j := if i <? 0 then len l + i else i in
  if (0 <=? j) && (j <? len l)
  then if is_byteb v then Ok (<[Z.to_nat j := v]> l)
       else Raise (ValueError "byte must be in range(0, 256)")
  else Raise IndexError.

(** [bytearray.append(v)] and [bytes([v])]. *)
Definition append (l : list Z) (v : Z) : result (list Z) :=
  if is_byteb v then Ok (l ++ [v])
  else Raise (ValueError "byte must be in range(0, 256)").

Definition bytes1 (v : Z) : result (list Z) := append [] v.

(** [l[a:b] = data] on a bytearray, for [0 <= a <= b]: the slice is clipped
    to the array and replaced by [data], whatever its length. *)
Definition setslice (l : list Z) (a b : Z) (data : list Z) : list Z :=
  take (Z.to_nat a) l ++ data ++ drop (Z.to_nat b) l.

(** [f.read(n)] at position [pos]: the bytes read; a read at the end of the
    file is short. *)
Definition fread (f : list Z) (pos : nat) (n : Z) : list Z :=
  take (Z.to_nat n) (drop pos f).

(** [f.read(1)[0]] *)
Definition fread1 (f : list Z) (pos : nat) : result Z :=
  match f !! pos with
  | Some v => Ok v
  | None => Raise IndexError
  end.

(** [struct.pack('<H', v)] and [struct.pack('<I', v)] *)
Definition pack_u16 (v : Z) : result (list Z) :=
  if (0 <=? v) && (v <? 65536)
  then Ok [v mod 256; v / 256]
  else Raise StructError.

Definition pack_u32 (v : Z) : result (list Z) :=
  if (0 <=? v) && (v <? 4294967296)
  then Ok [v mod 256; (v / 256) mod 256; (v / 65536) mod 256; v / 16777216]
  else Raise StructError.

(** [struct.unpack('<H', b)] and [struct.unpack('<I', b)]: the buffer must
    have exactly the size of the format. *)
Definition unpack_u16 (b : list Z) : result Z :=
  match b with
  | [b0; b1] => Ok (b0 + 256 * b1)
  | _ => Raise StructError
  end.

Definition unpack_u32 (b : list Z) : result Z :=
  match b with
  | [b0; b1; b2; b3] => Ok (b0 + 256 * b1 + 65536 * b2 + 16777216 * b3)
  | _ => Raise StructError
  end.

(** [range(a, b)] as a list. *)
Definition range (a b : Z) : list Z :=
  map (fun k => a + Z.of_nat k) (seq 0 (Z.to_nat (b - a))).

(** A [dict] with [str] keys, as the list of its items in insertion order;
    [d[k] = v] replaces the value of a key that is present, in place, and
    appends the item otherwise. *)
Fixpoint dict_set {V : Type} (d : list (string * V)) (k : string) (v : V)
  : list (string * V) :=
  match d with
  | [] => [(k, v)]
  | (k', v') :: rest =>
      if String.eqb k' k then (k', v) :: rest
      else (k', v') :: dict_set rest k v
  end.

End Py.
Import Py.

(** ** The keyed XOR stream ([ExMgData.py], [PkMgData.py]) *)

Module ExMgData.

(** [KEY = '女教師ゆうこ1968'.encode('cp932')] *)
Definition KEY : list Z :=
  [0x8f; 0x97; 0x8b; 0xb3; 0x8e; 0x74; 0x82; 0xe4;
   0x82; 0xa4; 0x82; 0xb1; 0x31; 0x39; 0x36; 0x38].

(** One element of the generator [data[i] ^ key[i % len(key)]]. *)
Definition xor_at (data key : list Z) (i : Z) : result Z :=
  d ← getitem data i;
  if len key =? 0 then Raise ZeroDivisionError
  else k ← getitem key (i mod len key); Ok (Z.lxor d k).

(** [bytes(gen)] collects the elements in order and checks each one. *)
Fixpoint collect_bytes (gen : Z -> result Z) (idx : list Z) : result (list Z) :=
  match idx with
  | [] => Ok []
  | i :: idx' =>
      v ← gen i;
      if is_byteb v
      then rest ← collect_bytes gen idx'; Ok (v :: rest)
      else Raise (ValueError "bytes must be in range(0, 256)")
  end.

Definition xor_decrypt (data key : list Z) : result (list Z) :=
  collect_bytes (xor_at data key) (range 0 (len data)).

(** [unpack_uint32(file, offset)] *)
Definition unpack_uint32 (f : list Z) (offset : Z) : result Z :=
  unpack_u32 (fread f (Z.to_nat offset) 4).

(** [name_bytes.split(b'\x00', 1)[0]] *)
Fixpoint before_nul (name_bytes : list Z) : list Z :=
  match name_bytes with
  | [] => []
  | b :: rest => if b =? 0 then [] else b :: before_nul rest
  end.

(** One candidate layout of the index. *)
Record params : Type := mkParams {
  entry_size : Z;
  name_offset : Z;
  file_offset : Z;
  size_offset : Z;
  key : list Z
}.

Definition parameter_sets : list params :=
  [ mkParams 0x40 0x00 0x38 0x3C KEY;
    mkParams 0x18 0x00 0x10 0x14 KEY ].

(** [f"{byte:02x}"] and its concatenation over a record. *)
Definition hex_digit (d : Z) : Ascii.ascii :=
  Ascii.ascii_of_nat (Z.to_nat (if d <? 10 then 48 + d else 87 + d)).

Fixpoint hex_of_bytes (l : list Z) : string :=
  match l with
  | [] => EmptyString
  | b :: rest =>
      String (hex_digit (b / 16)) (String (hex_digit (b mod 16)) (hex_of_bytes rest))
  end.

(** What [process_mbl] leaves behind when it returns normally: nothing but
    the message that no parameter set decodes the index, or the files that
    [save_file] writes, in index order, and the dict [data_entries] that
    goes to [entries.json]. *)
Inductive outcome : Type :=
  | Unrecognized
  | Extracted (p : params) (files : list (string * list Z))
              (data_entries : list (string * string)).

Section Reader.

(** [bytes.decode('cp932')] of the Python runtime: [None] stands for
    [UnicodeDecodeError]. *)
Variable cp932_decode : list Z -> option string.

(** [read_entry]; a name of [None] reports the decoding failure. *)
Definition read_entry (f : list Z)
    (base_offset name_offset file_offset size_offset : Z)
  : result (option string * Z * Z) :=
  let name_bytes := fread f (Z.to_nat (base_offset + name_offset)) 0x20 in
  match cp932_decode (before_nul name_bytes) with
  | None => Ok (None, 0, 0)
  | Some name =>
      offset ← unpack_uint32 f (base_offset + file_offset);
      size ← unpack_uint32 f (base_offset + size_offset);
      Ok (Some name, offset, size)
  end.

(** The inner loop of [process_mbl] (lines 54-61) over the indices still to
    read: [Ok None] is [success = False]. *)
Fixpoint read_entries (f : list Z) (p : params) (idx : list Z)
    (entries : list (string * Z * Z)) : result (option (list (string * Z * Z))) :=
  match idx with
  | [] => Ok (Some entries)
  | i :: idx' =>
      let base_offset := 0x04 + i * entry_size p in
      entry ← read_entry f base_offset (name_offset p) (file_offset p) (size_offset p);
      match entry with
      | (None, _, _) => Ok None
      | (Some name, offset, size) =>
          read_entries f p idx' (entries ++ [(name, offset, size)])
      end
  end.

(** One attempt: all [count] entries under the layout [p]. *)
Definition attempt (f : list Z) (count : Z) (p : params)
  : result (option (list (string * Z * Z))) :=
  read_entries f p (range 0 count) [].

(** The loop over the parameter sets (lines 49-66). *)
Fixpoint try_parameter_sets (f : list Z) (count : Z) (sets : list params)
  : result (option (params * list (string * Z * Z))) :=
  match sets with
  | [] => Ok None
  | p :: sets' =>
      r ← attempt f count p;
      match r with
      | Some entries => Ok (Some (p, entries))
      | None => try_parameter_sets f count sets'
      end
  end.

(** [save_file]: the bytes written to [<output_dir>/<name>]. *)
Definition save_file (f : list Z) (offset size : Z) (key : list Z)
  : result (list Z) :=
  xor_decrypt (fread f (Z.to_nat offset) size) key.

(** The extraction loop (lines 72-81), from entry [i] on, with the dict
    [data_entries] as it is before that entry: the files written and the
    dict after the loop. *)
Fixpoint extract (f : list Z) (p : params) (i : Z)
    (entries : list (string * Z * Z)) (data_entries : list (string * string))
  : result (list (string * list Z) * list (string * string)) :=
  match entries with
  | [] => Ok ([], data_entries)
  | (name, offset, size) :: rest =>
      data ← save_file f offset size (key p);
      let additional_bytes :=
        fread f (Z.to_nat (0x04 + i * entry_size p)) (entry_size p) in
      let data_entries :=
        dict_set data_entries name (hex_of_bytes additional_bytes) in
      '(files, data_entries) ← extract f p (i + 1) rest data_entries;
      Ok ((name, data) :: files, data_entries)
  end.

(** [process_mbl] on the bytes of the input archive. Errors of the file
    system when writing the outputs are outside the model. *)
Definition process_mbl (f : list Z) : result outcome :=
  count ← unpack_uint32 f 0;
  r ← try_parameter_sets f count parameter_sets;
  match r with
  | None => Ok Unrecognized
  | Some (successful_params, entries) =>
      '(files, data_entries) ← extract f successful_params 0 entries [];
      Ok (Extracted successful_params files data_entries)
  end.

End Reader.

End ExMgData.

Module PkMgData.

Definition xor_encrypt (data key : list Z) : result (list Z) :=
  ExMgData.collect_bytes (ExMgData.xor_at data key) (range 0 (len data)).

End PkMgData.

(** ** The PRS image codec ([PRS_IMAGE_CONVERTER.py]) *)

Module PRS.

Record PrsMetaData : Type := mkMeta {
  width : Z;
  height : Z;
  bpp : Z;
  flag : Z;
  packed_size : Z
}.

(** *** PrsWriter *)

(** The writer after the pixel loop of [__init__]: [input] holds the image
    in BGR(A) order, [stride * height] bytes. *)
Record PrsWriter : Type := mkWriter {
  metadata : PrsMetaData;
  depth : Z;
  stride : Z;
  input : list Z
}.

(** The delta pre-filter of [__init__]:
    [for i in range(len(input) - 1, depth - 1, -1):
       input[i] = (input[i] - input[i - depth] + 256) % 256]. *)
Definition delta_encode_at (depth : Z) (inp : result (list Z)) (i : Z)
  : result (list Z) :=
  inp ← inp;
  a ← getitem inp i;
  b ← getitem inp (i - depth);
  setitem inp i ((a - b + 256) mod 256).

Definition delta_encode (depth : Z) (inp : list Z) : result (list Z) :=
  foldl (delta_encode_at depth) (Ok inp) (reverse (range depth (len inp))).

(** [PrsWriter(image, flag)], where [rgba] is [image.mode == 'RGBA'] and
    [pixels] is the BGR(A) serialisation of the image computed by the pixel
    loop. *)
Definition PrsWriter_init (image_width image_height : Z) (rgba : bool)
    (pixels : list Z) (flag : Z) : result PrsWriter :=
  let md := mkMeta image_width image_height (if rgba then 32 else 24) flag 0 in
  let depth := bpp md / 8 in
  let stride := width md * depth in
  inp ← (if Z.land flag 0x80 =? 0 then Ok pixels else delta_encode depth pixels);
  Ok (mkWriter md depth stride inp).

(** [hash(index)] *)
Definition hash (inp : list Z) (index : Z) : result Z :=
  if index + 3 >? len inp then Ok 0
  else
    a ← getitem inp index;
    b ← getitem inp (index + 1);
    c ← getitem inp (index + 2);
    Ok (Z.lor (Z.lor a (Z.shiftl b 8)) (Z.shiftl c 16)).

(** The inner [while] of [find_longest_match]:
    [while length < max_length and input[input_index + length] == input[offset + length]]. *)
Fixpoint common_prefix (fuel : nat) (inp : list Z)
    (input_index offset max_length length : Z) : result Z :=
  if length <? max_length then
    a ← getitem inp (input_index + length);
    b ← getitem inp (offset + length);
    if a =? b then
      match fuel with
      | O => Raise OutOfFuel
      | S fuel' =>
          common_prefix fuel' inp input_index offset max_length (length + 1)
      end
    else Ok length
  else Ok length.

(** The [for offset in self.hash_table[h]] loop, with its [continue] and
    [break]. *)
Fixpoint scan_chain (inp : list Z) (input_index max_offset max_length : Z)
    (chain : list Z) (match_length match_offset : Z) : result (Z * Z) :=
  match chain with
  | [] => Ok (match_length, match_offset)
  | offset :: chain' =>
      if input_index - offset >? max_offset
      then scan_chain inp input_index max_offset max_length chain'
             match_length match_offset
      else
        length ← common_prefix (Z.to_nat max_length) inp input_index offset
                   max_length 0;
        if length >? match_length then
          if length =? max_length
          then Ok (length, input_index - offset)
          else scan_chain inp input_index max_offset max_length chain'
                 length (input_index - offset)
        else scan_chain inp input_index max_offset max_length chain'
               match_length match_offset
  end.

Definition find_longest_match (inp : list Z) (hash_table : gmap Z (list Z))
    (input_index : Z) : result (Z * Z) :=
  h ← hash inp input_index;
  match hash_table !! h with
  | None => Ok (0, 0)
  | Some chain =>
      let max_offset := Z.min input_index 0x2000 in
      let max_length := Z.min (len inp - input_index) 0x100 in
      '(match_length, match_offset) ←
        scan_chain inp input_index max_offset max_length chain 0 0;
      if match_length <? 3 then Ok (0, 0)
      else Ok (match_length, match_offset)
  end.

(** The state of the [pack] loop; [out] is what has been written to
    [self.output]. *)
Record PackState : Type := mkPack {
  input_index : Z;
  control : Z;
  mask : Z;
  control_buffer : list Z;
  out : list Z;
  hash_table : gmap Z (list Z)
}.

(** Lines 58-82: the token chosen for [(match_length, match_offset)]; returns
    the new [control], [control_buffer] and [input_index]. *)
Definition encode_token (inp : list Z) (st : PackState)
    (match_length match_offset : Z) : result (Z * list Z * Z) :=
  if match_length <? 3 then
    b ← getitem inp (input_index st);
    cb ← append (control_buffer st) b;
    Ok (control st, cb, input_index st + 1)
  else
    let control := Z.lor (control st) (mask st) in
    cb ←
      (if (match_length <=? 5) && (match_offset <=? 256) then
         let encoded_value :=
           Z.land (Z.lor (match_offset - 1)
                         (Z.shiftl (match_length - 2) 6)) 0xFF in
         append (control_buffer st) encoded_value
       else
         let encoded_offset := match_offset - 1 in
         if match_length <=? 9 then
           let encoded_length := match_length - 2 in
           cb ← append (control_buffer st)
                  (Z.lor 0x80 (Z.shiftr encoded_offset 5));
           append cb (Z.lor (Z.land encoded_offset 0x1F)
                            (Z.shiftl encoded_length 5))
         else
           cb ← append (control_buffer st)
                  (Z.lor 0xC0 (Z.shiftr encoded_offset 8));
           cb ← append cb (Z.land encoded_offset 0xFF);
           append cb (match_length - 1));
    Ok (control, cb, input_index st + match_length).

(** Lines 84-90: advance the mask and flush a full group. *)
Definition flush_group (control mask : Z) (cb out : list Z)
  : result (Z * Z * list Z * list Z) :=
  let mask := Z.shiftl mask 1 in
  if mask =? 0x100 then
    c ← bytes1 control;
    Ok (0, 1, [], out ++ c ++ cb)
  else Ok (control, mask, cb, out).

(** Lines 93-97: register the positions of the token in the hash table. *)
Definition register_at (inp : list Z) (tbl : result (gmap Z (list Z))) (i : Z)
  : result (gmap Z (list Z)) :=
  tbl ← tbl;
  h ← hash inp i;
  Ok (<[h := default [] (tbl !! h) ++ [i]]> tbl).

Definition update_hash_table (inp : list Z) (tbl : gmap Z (list Z))
    (input_index match_length : Z) : result (gmap Z (list Z)) :=
  foldl (register_at inp) (Ok tbl)
        (range (input_index - match_length) input_index).

(** One iteration of the [while] loop of [pack]. *)
Definition pack_step (inp : list Z) (st : PackState) : result PackState :=
  '(match_length, match_offset) ←
    find_longest_match inp (hash_table st) (input_index st);
  '(control, cb, input_index) ← encode_token inp st match_length match_offset;
  '(control, mask, cb, out) ← flush_group control (mask st) cb (out st);
  tbl ← update_hash_table inp (hash_table st) input_index match_length;
  Ok (mkPack input_index control mask cb out tbl).

Fixpoint pack_loop (fuel : nat) (inp : list Z) (st : PackState)
  : result PackState :=
  if input_index st <? len inp then
    match fuel with
    | O => Raise OutOfFuel
    | S fuel' => st' ← pack_step inp st; pack_loop fuel' inp st'
    end
  else Ok st.

(** The 16 header bytes written before the payload (lines 45-48). *)
Definition pack_header (md : PrsMetaData) : result (list Z) :=
  f ← bytes1 (flag md);
  d ← append f (bpp md / 8);
  w ← pack_u16 (width md);
  h ← pack_u16 (height md);
  Ok ([0x59; 0x42] ++ d ++ replicate 8 0 ++ w ++ h).

(** Lines 99-102: write the last, partial group. *)
Definition final_flush (st : PackState) : result (list Z) :=
  if negb (mask st =? 1) || negb (len (control_buffer st) =? 0) then
    c ← bytes1 (control st);
    Ok (out st ++ c ++ control_buffer st)
  else Ok (out st).

(** [pack()]: returns the final contents of [self.output] and the metadata
    with its [packed_size] updated. *)
Definition pack (w : PrsWriter) : result (list Z * PrsMetaData) :=
  hdr ← pack_header (metadata w);
  st ← pack_loop (length (input w)) (input w) (mkPack 0 0 1 [] hdr ∅);
  out ← final_flush st;
  let packed_size := len out - 16 in
  sz ← pack_u32 packed_size;
  (* output.seek(4); output.write(sz) *)
  Ok (take 4 out ++ sz ++ drop 8 out,
      mkMeta (width (metadata w)) (height (metadata w)) (bpp (metadata w))
             (flag (metadata w)) packed_size).

(** *** PrsReader *)

(** [length_table = [i + 3 for i in range(0xfe)] + [0x400, 0x1000]] *)
Definition length_table : list Z :=
  map (fun i => i + 3) (range 0 0xfe) ++ [0x400; 0x1000].

(** [read_prs_meta_data]: parse the 16-byte header of the file [f]. *)
Definition read_prs_meta_data (f : list Z) : result PrsMetaData :=
  let header := fread f 0 16 in
  if negb (bool_decide (take 2 header = [0x59; 0x42]))
  then Raise (ValueError "Not a valid PRS file")
  else
    bpp ← getitem header 3;
    if negb ((bpp =? 3) || (bpp =? 4))
    then Raise (ValueError "Unsupported BPP value")
    else
      (* struct.unpack_from needs the bytes 12..16 of the header *)
      width ← unpack_u16 (take 2 (drop 12 header));
      height ← unpack_u16 (take 2 (drop 14 header));
      flag ← getitem header 2;
      packed_size ← unpack_u32 (take 4 (drop 4 header));
      Ok (mkMeta width height (bpp * 8) flag packed_size).

(** The local variables of [unpack] together with the position of the file
    object and the [output] bytearray of the reader. *)
Record UnpackState : Type := mkUnpack {
  pos : nat;
  remaining : Z;
  dst : Z;
  bit : Z;
  ctl : Z;
  output : list Z
}.

(** How one iteration of the decode loop ends. *)
Inductive flow : Type :=
  | Continue (st : UnpackState)
  | Break (st : UnpackState)
  | Throw (e : exn).

(** Lines 166-170: move to the next control bit, reading a new control byte
    when the current one is used up. *)
Definition next_bit (f : list Z) (st : UnpackState) : result UnpackState :=
  let bit := Z.shiftr (bit st) 1 in
  if bit =? 0 then
    c ← fread1 f (pos st);
    Ok (mkUnpack (S (pos st)) (remaining st - 1) (dst st) 0x80 c (output st))
  else
    Ok (mkUnpack (pos st) (remaining st) (dst st) bit (ctl st) (output st)).

(** What the decoder reads for one token (lines 175-213). [BackRef] carries
    [shift] and [length] as they are before line 215. *)
Inductive token : Type :=
  | Literal (b : Z)
  | RawRun (length : Z) (read_data : list Z)
  | BackRef (shift length : Z).

Inductive parsed : Type :=
  | Token (t : token) (pos : nat) (remaining : Z)
  | Truncated
  | ReadError (e : exn).

Definition read_token (f : list Z) (st : UnpackState) : parsed :=
  if Z.land (ctl st) (bit st) =? 0 then
    match fread1 f (pos st) with
    | Raise e => ReadError e
    | Ok v => Token (Literal v) (S (pos st)) (remaining st - 1)
    end
  else
    match fread1 f (pos st) with
    | Raise e => ReadError e
    | Ok b =>
      let pos := S (pos st) in
      let remaining := remaining st - 1 in
      if negb (Z.land b 0x80 =? 0) then
        if remaining <=? 0 then Truncated else
        match fread1 f pos with
        | Raise e => ReadError e
        | Ok shift =>
          let pos := S pos in
          let remaining := remaining - 1 in
          let shift := Z.lor shift (Z.shiftl (Z.land b 0x3f) 8) in
          if negb (Z.land b 0x40 =? 0) then
            if remaining <=? 0 then Truncated else
            match fread1 f pos with
            | Raise e => ReadError e
            | Ok offset =>
              match getitem length_table offset with
              | Raise e => ReadError e
              | Ok length => Token (BackRef shift length) (S pos) (remaining - 1)
              end
            end
          else
            Token (BackRef (Z.shiftr shift 4) (Z.land shift 0xf + 3))
                  pos remaining
        end
      else
        let length := Z.shiftr b 2 in
        let b := Z.land b 3 in
        if b =? 3 then
          let length := length + 9 in
          let read_data := fread f pos length in
          Token (RawRun length read_data)
                (pos + List.length read_data)%nat (remaining - len read_data)
        else Token (BackRef length (b + 2)) pos remaining
    end.

(** Lines 219-220: [for i in range(length): output[dst + i] = output[dst - shift + i]]. *)
Definition copy_at (dst shift : Z) (out : result (list Z)) (i : Z)
  : result (list Z) :=
  out ← out;
  v ← getitem out (dst - shift + i);
  setitem out (dst + i) v.

Definition copy_back (out : list Z) (dst shift length : Z) : result (list Z) :=
  foldl (copy_at dst shift) (Ok out) (range 0 length).

(** The effect of a token on [output] and [dst] (lines 176-177, 208-209 and
    215-221). *)
Definition apply_token (t : token) (out : list Z) (dst : Z)
  : result (list Z * Z) :=
  match t with
  | Literal v =>
      out ← setitem out dst v;
      Ok (out, dst + 1)
  | RawRun length read_data =>
      Ok (setslice out dst (dst + length) read_data, dst + len read_data)
  | BackRef shift length =>
      let shift := shift + 1 in
      if dst <? shift then Raise (ValueError "Invalid offset value")
      else
        let length := Z.min length (len out - dst) in
        out ← copy_back out dst shift length;
        Ok (out, dst + length)
  end.

(** One iteration of [while remaining > 0 and dst < len(self.output)]. *)
Definition unpack_step (f : list Z) (st : UnpackState) : flow :=
  match next_bit f st with
  | Raise e => Throw e
  | Ok st =>
    if remaining st <=? 0 then Break st else
    match read_token f st with
    | ReadError e => Throw e
    | Truncated => Break st
    | Token t pos remaining =>
      match apply_token t (output st) (dst st) with
      | Raise e => Throw e
      | Ok (out, dst) => Continue (mkUnpack pos remaining dst (bit st) (ctl st) out)
      end
    end
  end.

Definition loop_cond (st : UnpackState) : bool :=
  (0 <? remaining st) && (dst st <? len (output st)).

Fixpoint unpack_loop (fuel : nat) (f : list Z) (st : UnpackState)
  : result UnpackState :=
  if loop_cond st then
    match fuel with
    | O => Raise OutOfFuel
    | S fuel' =>
        match unpack_step f st with
        | Continue st' => unpack_loop fuel' f st'
        | Break st' => Ok st'
        | Throw e => Raise e
        end
    end
  else Ok st.

(** The delta post-filter (lines 223-225). *)
Definition delta_decode_at (depth : Z) (out : result (list Z)) (i : Z)
  : result (list Z) :=
  out ← out;
  a ← getitem out i;
  b ← getitem out (i - depth);
  setitem out i ((a + b) mod 256).

Definition delta_decode (depth : Z) (out : list Z) : result (list Z) :=
  foldl (delta_decode_at depth) (Ok out) (range depth (len out)).

(** [is_dummy_alpha_channel] *)
Fixpoint all_equal_at (out : list Z) (alpha : Z) (idx : list Z) : result bool :=
  match idx with
  | [] => Ok true
  | i :: idx' =>
      v ← getitem out i;
      if negb (v =? alpha) then Ok false else all_equal_at out alpha idx'
  end.

Definition is_dummy_alpha_channel (out : list Z) : result bool :=
  alpha ← getitem out 3;
  if alpha =? 0xFF then Ok false
  else all_equal_at out alpha
         (map (fun k => 7 + 4 * k) (range 0 ((len out - 7 + 3) / 4))).

Inductive pixel_format : Type := RGB | RGBA.

(** The reader after [PrsReader(file_path, meta_data)]. *)
Record PrsReader : Type := mkReader {
  r_width : Z;
  r_height : Z;
  r_depth : Z;
  r_flag : Z;
  r_packed_size : Z;
  r_output : list Z;
  r_format : pixel_format
}.

Definition PrsReader_init (md : PrsMetaData) : PrsReader :=
  let depth := bpp md / 8 in
  mkReader (width md) (height md) depth (flag md) (packed_size md)
           (replicate (Z.to_nat (width md * height md * depth)) 0)
           (if depth =? 4 then RGBA else RGB).

(** [unpack()] on the file [f]: the reader with its [output] and [format]
    after the call. *)
Definition unpack (f : list Z) (r : PrsReader) : result PrsReader :=
  st ← unpack_loop (Z.to_nat (r_packed_size r)) f
         (mkUnpack 16 (r_packed_size r) 0 0 0 (r_output r));
  out ← (if negb (Z.land (r_flag r) 0x80 =? 0)
         then delta_decode (r_depth r) (output st)
         else Ok (output st));
  fmt ← (if r_depth r =? 4 then
           d ← is_dummy_alpha_channel out;
           Ok (if d : bool then RGB else r_format r)
         else Ok (r_format r));
  Ok (mkReader (r_width r) (r_height r) (r_depth r) (r_flag r)
               (r_packed_size r) out fmt).

(** [convert_prs_to_bmp] up to the pixel buffer handed to the image
    library: parse the header, then decode the payload. *)
Definition decode_file (f : list Z) : result PrsReader :=
  md ← read_prs_meta_data f;
  unpack f (PrsReader_init md).

End PRS.

(** ** The image-bundle packer ([PkmgGra.py]) *)

(** The operations of Python's [str] and [os.path] that the packer uses on
    file names. *)
Class PyStr (str : Type) : Type := {
  str_len : str -> Z;
  str_take : Z -> str -> str;
  str_upper : str -> str;
  str_lower : str -> str;
  encode_utf8 : str -> list Z;
  path_basename : str -> str;
  path_splitext_root : str -> str
}.

Module PkmgGra.

Section Packer.

Context {str : Type} `{PyStr str}.

Record Entry : Type := mkEntry {
  name : str;
  offset : Z;
  size : Z
}.

(** [Entry(name, "image", offset, size)] *)
Definition Entry_init (name : str) (offset size : Z) : Entry :=
  mkEntry (str_upper (str_take 13 name)) offset size.

(** [b[:k]] *)
Definition slice_to (b : list Z) (k : Z) : list Z :=
  if k <? 0 then take (Z.to_nat (len b + k)) b else take (Z.to_nat k) b.

(** [write_fixed_length_string]: the bytes written. *)
Definition write_fixed_length_string (string : str) (length : Z) : list Z :=
  let btw := [0x00; 0x50; 0x52; 0x53] in
  let padding := length - (str_len string + 4) in
  encode_utf8 string
  ++ (if 9 <=? length then slice_to btw (length - str_len string) else btw)
  ++ (if 0 <? padding then replicate (Z.to_nat padding) 0 else []).

(** The first loop of [pack_files] (lines 41-62) over the files still to
    add; a file is its path and its contents. *)
Fixpoint add_files (data_section_offset : Z) (files : list (str * list Z))
    (offset : Z) (entries : list Entry) (data_buffer : list Z)
  : result (list Entry * list Z) :=
  match files with
  | [] => Ok (entries, data_buffer)
  | (file_path, file_data) :: files' =>
      let filename := path_basename file_path in
      let name_without_ext := str_lower (path_splitext_root filename) in
      b0 ← getitem file_data 0;
      let compressed_data := if b0 =? 0x78 then file_data else file_data in
      let size := len compressed_data in
      let entry_offset := offset in
      let entry := Entry_init name_without_ext
                     (data_section_offset + entry_offset) size in
      add_files data_section_offset files' (offset + size)
                (entries ++ [entry]) (data_buffer ++ compressed_data)
  end.

(** The index records written for the entries (lines 73-78). *)
Fixpoint write_entries (entries : list Entry) : result (list Z) :=
  match entries with
  | [] => Ok []
  | entry :: rest =>
      o ← pack_u32 (offset entry);
      s ← pack_u32 (size entry);
      more ← write_entries rest;
      Ok (write_fixed_length_string (name entry) 13 ++ o ++ s ++ more)
  end.

(** [pack_files(file_paths, output_file)]: the bytes of the archive. *)
Definition pack_files (files : list (str * list Z)) : result (list Z) :=
  let entry_size := 0x15 in
  let header_size := 8 in
  let data_section_offset := header_size + entry_size * len files in
  '(entries, data_buffer) ← add_files data_section_offset files 0 [] [];
  count ← pack_u32 (len entries);
  name_len ← pack_u32 13;
  index ← write_entries entries;
  Ok (count ++ name_len ++ index ++ data_buffer).

End Packer.

End PkmgGra.

(** ** The image-bundle reader ([ExmgGra.py]) *)

(** Further operations of Python's [str] used by the reader: decoding
    ([None] stands for [UnicodeDecodeError]), concatenation, literals and
    comparison. *)
Class PyStrOps (str : Type) `{PyStr str} : Type := {
  decode_utf8 : list Z -> option str;
  str_app : str -> str -> str;
  str_lit : string -> str;
  str_eqb : str -> str -> bool
}.

Module ExmgGra.

(** [struct.unpack('<I I', b)] *)
Definition unpack_II (b : list Z) : result (Z * Z) :=
  match b with
  | [b0; b1; b2; b3; c0; c1; c2; c3] =>
      Ok (b0 + 256 * b1 + 65536 * b2 + 16777216 * b3,
          c0 + 256 * c1 + 65536 * c2 + 16777216 * c3)
  | _ => Raise StructError
  end.

(** [is_sane_count] *)
Definition is_sane_count (count : Z) : bool := (0 <? count) && (count <? 10000).

Section Reader.

Context {str : Type} `{PyStrOps str}.

Record Entry : Type := mkEntry {
  name : str;
  offset : Z;
  size : Z
}.

(** [Entry.check_placement] *)
Definition check_placement (e : Entry) (max_offset : Z) : bool :=
  offset e + size e <=? max_offset.

Record ArcFile : Type := mkArc {
  file_data : list Z;
  entries : list Entry
}.

(** [ArcFile.open_entry] *)
Definition open_entry (a : ArcFile) (e : Entry) : list Z :=
  fread (file_data a) (Z.to_nat (offset e)) (size e).

(** [read_string(file, length)] at position [pos]: the string and the
    position after the read. [UnicodeDecodeError] is a [ValueError]. *)
Definition read_string (f : list Z) (pos : nat) (length : Z) : result (str * nat) :=
  let raw_string := fread f pos length in
  match decode_utf8 (ExMgData.before_nul raw_string) with
  | None => Raise (ValueError "UnicodeDecodeError")
  | Some s => Ok (str_lower s, (pos + List.length raw_string)%nat)
  end.

(** The loop over the index (lines 53-66) with [n] entries still to read;
    [Ok None] is [return None]. *)
Fixpoint read_index (f : list Z) (filename_len : Z) (n : nat) (index_offset : Z)
    (entries : list Entry) : result (option (list Entry)) :=
  match n with
  | O => Ok (Some entries)
  | S n' =>
      '(name, pos) ← read_string f (Z.to_nat index_offset) filename_len;
      let index_offset := index_offset + filename_len in
      '(offset, size) ← unpack_II (fread f pos 8);
      let entry := mkEntry (str_app name (str_lit ".prs")) offset size in
      if negb (check_placement entry (len f)) then Ok None
      else read_index f filename_len n' (index_offset + 8) (entries ++ [entry])
  end.

(** [try_open_gra_mbl(file_path)], where [f] is the content of the file. *)
Definition try_open_gra_mbl (file_path : str) (f : list Z) : result (option ArcFile) :=
  '(count, filename_len) ← unpack_II (fread f 0 8);
  if (filename_len <? 8) || (filename_len >? 0x40) || negb (is_sane_count count)
  then Ok None
  else
    let arc_name := path_splitext_root (path_basename file_path) in
    if negb (str_eqb (str_lower arc_name) (str_lit "mg_gra")) then Ok None
    else
      r ← read_index f filename_len (Z.to_nat count) 8 [];
      match r with
      | None => Ok None
      | Some entries =>
          if (len entries =? 0) || ((len entries =? 1) && (count >? 1))
          then Ok None
          else Ok (Some (mkArc f entries))
      end.

(** [zlib.decompress] of the Python runtime. *)
Variable zlib_decompress : list Z -> result (list Z).

(** The loop of [extract_mbl]: the files written, in index order. *)
Fixpoint extract_entries (a : ArcFile) (es : list Entry)
  : result (list (str * list Z)) :=
  match es with
  | [] => Ok []
  | entry :: rest =>
      let data := open_entry a entry in
      b0 ← getitem data 0;
      data ← (if b0 =? 0x78 then zlib_decompress data else Ok data);
      more ← extract_entries a rest;
      Ok ((name entry, data) :: more)
  end.

(** [extract_mbl]: [Ok None] when the archive is not opened. *)
Definition extract_mbl (file_path : str) (f : list Z)
  : result (option (list (str * list Z))) :=
  arc_file ← try_open_gra_mbl file_path f;
  match arc_file with
  | None => Ok None
  | Some a =>
      files ← extract_entries a (entries a);
      Ok (Some files)
  end.

End Reader.

End ExmgGra.

(** ** The data-archive writer ([PkMgData.py]) *)

Module PkMgDataWriter.

(** [bytes.fromhex] of the Python runtime: two hexadecimal digits for each
    byte, ASCII whitespace skipped between bytes. The position that the
    message of the error ends with is left out. *)
Definition hex_value (c : Ascii.ascii) : option Z :=
  let n := Z.of_nat (Ascii.nat_of_ascii c) in
  if (48 <=? n) && (n <=? 57) then Some (n - 48)
  else if (97 <=? n) && (n <=? 102) then Some (n - 87)
  else if (65 <=? n) && (n <=? 70) then Some (n - 55)
  else None.

Definition is_space (c : Ascii.ascii) : bool :=
  let n := Z.of_nat (Ascii.nat_of_ascii c) in
  (n =? 32) || ((9 <=? n) && (n <=? 13)).

Fixpoint fromhex (s : string) : result (list Z) :=
  match s with
  | EmptyString => Ok []
  | String c s' =>
      if is_space c then fromhex s'
      else
        match hex_value c, s' with
        | Some top, String c' s'' =>
            match hex_value c' with
            | Some bot => rest ← fromhex s''; Ok (top * 16 + bot :: rest)
            | None => Raise (ValueError "non-hexadecimal number found in fromhex() arg")
            end
        | _, _ => Raise (ValueError "non-hexadecimal number found in fromhex() arg")
        end
  end.

(** [hex_to_bytes] *)
Definition hex_to_bytes (hex_string : string) : result (list Z) :=
  fromhex hex_string.

(** [json_data['parameters']], its numbers being integers. *)
Record parameters : Type := mkParameters {
  key : string;
  entry_size : Z;
  name_offset : Z;
  file_offset : Z;
  size_offset : Z
}.

(** A file opened with ['wb']: the bytes written so far and the position. *)
Record wfile : Type := mkFile {
  content : list Z;
  pos : nat
}.

(** [archive.seek(offset)]: the operating system refuses a negative offset
    ([OSError], given here as a [ValueError] with its message). *)
Definition seek (archive : wfile) (offset : Z) : result wfile :=
  if offset <? 0 then Raise (ValueError "OSError: [Errno 22] Invalid argument")
  else Ok (mkFile (content archive) (Z.to_nat offset)).

(** [archive.write(data)]: the bytes at the position are overwritten, the
    file grows as needed, and a gap left by a [seek] beyond the end is
    filled with zero bytes. Writing nothing changes nothing. *)
Definition write (archive : wfile) (data : list Z) : wfile :=
  let buf := content archive in
  let p := pos archive in
  match data with
  | [] => archive
  | _ => mkFile (take p buf ++ replicate (p - length buf) 0 ++ data
                 ++ drop (p + length data) buf)
                (p + length data)
  end.

Section Writer.

(** [str.encode('cp932')] of the Python runtime: [None] stands for
    [UnicodeEncodeError]. *)
Variable cp932_encode : string -> option (list Z).

(** The input directory: the contents of [<input_dir>/<name>] when that is a
    file. *)
Variable input_dir : string -> option (list Z).

Definition encode (s : string) : result (list Z) :=
  match cp932_encode s with
  | Some b => Ok b
  | None => Raise (ValueError "UnicodeEncodeError")
  end.

(** [available_files] (line 29), each file with its contents. *)
Fixpoint available_files (file_info : list (string * string))
  : list (string * string * list Z) :=
  match file_info with
  | [] => []
  | (k, v) :: rest =>
      match input_dir k with
      | Some data => (k, v, data) :: available_files rest
      | None => available_files rest
      end
  end.

(** The loop that prepares the header (lines 39-68), from index [i] on. *)
Fixpoint write_entries (p : parameters) (KEY : list Z) (patch : bool)
    (files : list (string * string * list Z)) (i : Z) (archive : wfile)
    (current_offset : Z) : result (wfile * Z) :=
  match files with
  | [] => Ok (archive, current_offset)
  | (file_name, hex_data, data) :: rest =>
      encrypted_data ← PkMgData.xor_encrypt data KEY;
      let file_size := len encrypted_data in
      let entry_start := 4 + i * entry_size p in
      archive ← seek archive entry_start;
      name_encoded ← encode file_name;
      let archive := write archive name_encoded in
      let archive :=
        write archive
              (replicate (Z.to_nat (name_offset p + entry_size p - len name_encoded)) 0) in
      archive ← (if patch then Ok archive
                 else
                   binary_data ← hex_to_bytes hex_data;
                   archive ← seek archive entry_start;
                   Ok (write archive (PkmgGra.slice_to binary_data (entry_size p))));
      archive ← seek archive (entry_start + file_offset p);
      off ← pack_u32 current_offset;
      let archive := write archive off in
      archive ← seek archive (entry_start + size_offset p);
      sz ← pack_u32 file_size;
      let archive := write archive sz in
      write_entries p KEY patch rest (i + 1) archive (current_offset + file_size)
  end.

(** The loop that writes the file data (lines 76-81). *)
Fixpoint write_data (KEY : list Z) (files : list (string * string * list Z))
    (archive : wfile) : result wfile :=
  match files with
  | [] => Ok archive
  | (_, _, data) :: rest =>
      encrypted_data ← PkMgData.xor_encrypt data KEY;
      write_data KEY rest (write archive encrypted_data)
  end.

(** [pack_files]: the bytes of the output archive. [patch] is
    [patch.lower() == 'yes']; [file_info] holds the items of the JSON
    object other than ['parameters'], in order (a [dict]: its keys are
    distinct). *)
Definition pack_files (p : parameters) (file_info : list (string * string))
    (patch : bool) : result (list Z) :=
  KEY ← encode (key p);
  let available_files := available_files file_info in
  let file_count := len available_files in
  let header_size := 4 + file_count * entry_size p in
  let current_offset := header_size + 4 in
  count ← pack_u32 file_count;
  let archive := write (mkFile [] 0) count in
  '(archive, _) ← write_entries p KEY patch available_files 0 archive current_offset;
  archive ← seek archive header_size;
  let archive := write archive [0; 0; 0; 0] in
  archive ← seek archive (header_size + 4);
  archive ← write_data KEY available_files archive;
  Ok (content archive).

End Writer.

End PkMgDataWriter.

(** ** The pixel loop of the PRS writer ([PRS_IMAGE_CONVERTER.py]) *)

Module PrsImage.

(** A PIL image with several bands: its size, whether its mode is ['RGBA'],
    and the pixel access [image.load()], which gives the tuple of the band
    values at [(x, y)]. *)
Record Image : Type := mkImage {
  width : Z;
  height : Z;
  rgba : bool;
  load : Z -> Z -> list Z
}.

(** The values that a slice assignment stores in a bytearray. *)
Definition byte_values (vals : list Z) : result (list Z) :=
  if forallb is_byteb vals then Ok vals
  else Raise (ValueError "byte must be in range(0, 256)").

(** [bytearray(n)] *)
Definition bytearray (n : Z) : result (list Z) :=
  if n <? 0 then Raise (ValueError "negative count")
  else Ok (replicate (Z.to_nat n) 0).

(** The body of the pixel loop (lines 28-32). *)
Definition store_pixel (image : Image) (depth stride y : Z)
    (inp : result (list Z)) (x : Z) : result (list Z) :=
  inp ← inp;
  let idx := y * stride + x * depth in
  let pixel := load image x y in
  bgr ← byte_values (reverse (take 3 pixel));
  let inp := setslice inp idx (idx + 3) bgr in
  if depth =? 4 then
    a ← getitem pixel 3;
    setitem inp (idx + 3) a
  else Ok inp.

Definition store_row (image : Image) (depth stride : Z)
    (inp : result (list Z)) (y : Z) : result (list Z) :=
  foldl (store_pixel image depth stride y) inp (range 0 (width image)).

(** Lines 18-32 of [PrsWriter.__init__]: [self.input] after the pixel
    loop. *)
Definition pixel_loop (image : Image) : result (list Z) :=
  let depth := (if rgba image then 32 else 24) / 8 in
  let stride := width image * depth in
  inp ← bytearray (stride * height image);
  foldl (store_row image depth stride) (Ok inp) (range 0 (height image)).

(** [convert_bmp_to_prs]: the bytes of the output file for the image that
    [Image.open] returns. *)
Definition convert_bmp_to_prs (image : Image) : result (list Z) :=
  let flag := if rgba image then 0x80 else 0x00 in
  inp ← pixel_loop image;
  writer ← PRS.PrsWriter_init (width image) (height image) (rgba image) inp flag;
  '(file, _) ← PRS.pack writer;
  Ok file.

End PrsImage.

(** * Specification-side definitions

    Closed forms of what the loops compute, used to state and prove the
    properties below. *)

(** The byte that the XOR cipher puts at position [i]. *)
Definition xor_elem (data key : list Z) (i : nat) : Z :=
  Z.lxor (data !!! i) (key !!! (i mod length key)%nat).

Definition xor_stream (data key : list Z) : list Z :=
  map (xor_elem data key) (seq 0 (length data)).

(** The payload of an image stored with literals only: groups of up to eight
    bytes, each behind a zero control byte. [k] is the number of tokens the
    current group can still take. *)
Fixpoint stream (k : nat) (l : list Z) : list Z :=
  match l with
  | [] => []
  | x :: l' =>
      match k with
      | O => 0 :: x :: stream 7 l'
      | S k' => x :: stream k' l'
      end
  end.

(** What the encoder still has to write when [j] literals [cb] are buffered
    in the current group and the literals [l] follow. *)
Definition pending (j : nat) (cb l : list Z) : list Z :=
  match j with
  | O => stream 0 l
  | S _ => 0 :: cb ++ stream (8 - j) l
  end.

(** The control bit in use when the current group can take [k] more
    literals: [2^k], or no bit at all before the first group. *)
Definition group_bit (k : nat) (b : Z) : Prop :=
  match k with
  | O => Z.shiftr b 1 = 0
  | S k' => b = 2 ^ Z.of_nat k
  end.


(** The states that the decode loop of [unpack] goes through: [reaches f st st']
    when the loop, started in [st], arrives at the head of the loop in
    [st']. *)
Inductive reaches (f : list Z) : PRS.UnpackState -> PRS.UnpackState -> Prop :=
  | reaches_here st : reaches f st st
  | reaches_step st st1 st2 :
      PRS.loop_cond st = true ->
      PRS.unpack_step f st = PRS.Continue st1 ->
      reaches f st1 st2 ->
      reaches f st st2.

(** The token decoded in the iteration that starts in [st] is a
    back-reference whose back-distance [D = shift + 1] exceeds the output
    cursor [dst]. *)
Definition bad_backref (f : list Z) (st : PRS.UnpackState) : Prop :=
  exists st1 shift length p r,
    PRS.next_bit f st = Ok st1 /\ 0 < PRS.remaining st1
    /\ PRS.read_token f st1 = PRS.Token (PRS.BackRef shift length) p r
    /\ PRS.dst st1 < shift + 1.

Definition InvalidOffset : exn := ValueError "Invalid offset value".

(** The state in which [unpack] enters its loop. *)
Definition unpack_start (r : PRS.PrsReader) : PRS.UnpackState :=
  PRS.mkUnpack 16 (PRS.r_packed_size r) 0 0 0 (PRS.r_output r).

(** The errors of indexing and of storing into a bytearray. *)
Definition benign (e : exn) : Prop :=
  e = IndexError \/ e = ValueError "byte must be in range(0, 256)".


(** What a well-formed file gives to the decoder as a token. *)
Definition token_wf (t : PRS.token) : Prop :=
  match t with
  | PRS.Literal v => is_byte v
  | PRS.RawRun n data => wf_bytes data
  | PRS.BackRef shift length => 0 <= shift /\ 0 <= length
  end.

(** The payload bytes that [remaining] still promises are in the file, the
    cursor is not negative and the buffer holds bytes. *)
Definition decoding (f : list Z) (st : PRS.UnpackState) : Prop :=
  Z.of_nat (PRS.pos st) + PRS.remaining st <= len f
  /\ 0 <= PRS.dst st /\ wf_bytes (PRS.output st).


(** One iteration of the decode loop that goes on to the next iteration, and
    one iteration of the loop of [pack]. *)
Definition dec_step (f : list Z) (st st' : PRS.UnpackState) : Prop :=
  PRS.loop_cond st = true /\ PRS.unpack_step f st = PRS.Continue st'.

Definition enc_step (inp : list Z) (st st' : PRS.PackState) : Prop :=
  PRS.input_index st < len inp /\ PRS.pack_step inp st = Ok st'.

(** Sample inputs used to exercise the statements below: a 1x1 RGB file whose
    header announces [n] payload bytes, and an encoder state in the middle of
    a 13-byte input that repeats its first six bytes at position 7. *)
Definition sample_header (n : Z) : list Z :=
  [0x59; 0x42; 0; 3; n; 0; 0; 0; 0; 0; 0; 0; 1; 0; 1; 0].

Definition sample_input : list Z := [1; 2; 3; 4; 5; 6; 7; 1; 2; 3; 4; 5; 6].

Definition sample_pack_state : PRS.PackState :=
  PRS.mkPack 7 0 128 [1; 2; 3; 4; 5; 6; 7] [] ∅.

(** The name bytes of entry [i] of the index under the layout [p], and the
    failure of their decoding. *)
Definition name_bytes (f : list Z) (p : ExMgData.params) (i : Z) : list Z :=
  ExMgData.before_nul
    (fread f (Z.to_nat (0x04 + i * ExMgData.entry_size p + ExMgData.name_offset p)) 0x20).

Definition name_fails (cp932_decode : list Z -> option string)
    (f : list Z) (p : ExMgData.params) (i : Z) : Prop :=
  cp932_decode (name_bytes f p i) = None.

(** The file written for one entry. *)
Definition extract_one (f : list Z) (p : ExMgData.params)
    (entry : string * Z * Z) : string * list Z :=
  let '(name, offset, size) := entry in
  (name, xor_stream (fread f (Z.to_nat offset) size) (ExMgData.key p)).

(** The fields of a layout lie inside the record, after the start of the
    name. *)
Definition layout_ok (p : ExMgData.params) : Prop :=
  0 <= ExMgData.name_offset p
  /\ 0 <= ExMgData.file_offset p <= ExMgData.entry_size p - 4
  /\ 0 <= ExMgData.size_offset p <= ExMgData.entry_size p - 4.

Definition p40 : ExMgData.params := ExMgData.mkParams 0x40 0x00 0x38 0x3C ExMgData.KEY.
Definition p18 : ExMgData.params := ExMgData.mkParams 0x18 0x00 0x10 0x14 ExMgData.KEY.

(** The ASCII fragment of the codec: bytes below [0x80] decode to
    themselves, anything else is rejected. *)
Fixpoint ascii_decode (b : list Z) : option string :=
  match b with
  | [] => Some EmptyString
  | c :: rest =>
      if (0 <=? c) && (c <? 0x80)
      then option_map (String (Ascii.ascii_of_nat (Z.to_nat c))) (ascii_decode rest)
      else None
  end.

(** An archive of two entries in the [0x18] layout, [a.bin] (13 bytes) and
    [b] (1 byte). Read in the [0x40] layout, the name slot of its second
    entry starts with the lone lead byte [0x81]. *)
Definition sample_archive : list Z :=
  [2; 0; 0; 0;
   97; 46; 98; 105; 110; 0; 0; 0; 0; 0; 0; 0; 0; 0; 0; 0; 56; 0; 0; 0; 13; 0; 0; 0;
   98; 0; 0; 0; 0; 0; 0; 0; 0; 0; 0; 0; 0; 0; 0; 0; 69; 0; 0; 0; 1; 0; 0; 0;
   0; 0; 0; 0;
   142; 149; 136; 183; 139; 114; 133; 236; 139; 174; 137; 189; 129; 0].

(** The index entries that the packer creates for [files] when the data
    buffer already holds [offset] bytes. *)
Fixpoint entries_of {str : Type} `{PyStr str} (data_section_offset offset : Z)
    (files : list (str * list Z)) : list PkmgGra.Entry :=
  match files with
  | [] => []
  | (file_path, file_data) :: files' =>
      PkmgGra.Entry_init (str_lower (path_splitext_root (path_basename file_path)))
                         (data_section_offset + offset) (len file_data)
      :: entries_of data_section_offset (offset + len file_data) files'
  end.

(** [PyStr] for ASCII names with [/] as the separator. *)
Definition ascii_upper (c : Ascii.ascii) : Ascii.ascii :=
  let n := Ascii.nat_of_ascii c in
  if (97 <=? n)%nat && (n <=? 122)%nat then Ascii.ascii_of_nat (n - 32) else c.

Definition ascii_lower (c : Ascii.ascii) : Ascii.ascii :=
  let n := Ascii.nat_of_ascii c in
  if (65 <=? n)%nat && (n <=? 90)%nat then Ascii.ascii_of_nat (n + 32) else c.

Fixpoint string_map (g : Ascii.ascii -> Ascii.ascii) (s : string) : string :=
  match s with
  | EmptyString => EmptyString
  | String c r => String (g c) (string_map g r)
  end.

Fixpoint string_bytes (s : string) : list Z :=
  match s with
  | EmptyString => []
  | String c r => Z.of_nat (Ascii.nat_of_ascii c) :: string_bytes r
  end.

Fixpoint basename_from (s acc : string) : string :=
  match s with
  | EmptyString => acc
  | String c r =>
      if Ascii.eqb c "/"%char then basename_from r r else basename_from r acc
  end.

Fixpoint rfind_dot (s : string) (i : nat) : option nat :=
  match s with
  | EmptyString => None
  | String c r =>
      match rfind_dot r (S i) with
      | Some k => Some k
      | None => if Ascii.eqb c "."%char then Some i else None
      end
  end.

Fixpoint all_dots (s : string) : bool :=
  match s with
  | EmptyString => true
  | String c r => Ascii.eqb c "."%char && all_dots r
  end.

Definition splitext_root (s : string) : string :=
  match rfind_dot s 0 with
  | None => s
  | Some k => if all_dots (substring 0 k s) then s else substring 0 k s
  end.

#[global] Instance ascii_str : PyStr string := {|
  str_len s := Z.of_nat (String.length s);
  str_take n s := substring 0 (Z.to_nat n) s;
  str_upper := string_map ascii_upper;
  str_lower := string_map ascii_lower;
  encode_utf8 := string_bytes;
  path_basename s := basename_from s s;
  path_splitext_root := splitext_root
|}.

(** Two input files for the packer: the first one starts with [0x78], the
    second one does not. *)
Definition sample_files : list (string * list Z) :=
  [("in/title.prs"%string, [0x78; 0x9c; 0x01]); ("in/bg01.prs"%string, [0x59; 0x42])].

(** ** Definitions for the further properties *)

(** The buffer after [a] rounds of the copy loop: the bytes at
    [d .. d + a - 1] repeat the [s] bytes before [d]. *)
Definition copied (o : list Z) (d s a : nat) (cur : list Z) : Prop :=
  forall j : nat,
    cur !! j = if decide (d <= j < d + a)%nat
               then o !! (d - s + (j - d) mod s)%nat
               else o !! j.


(** Every raw run decoded in the iteration that starts in [st] is read in
    full and ends inside the buffer. *)
Definition raw_run_fits (f : list Z) (st : PRS.UnpackState) : Prop :=
  forall st1 n data p r,
    PRS.next_bit f st = Ok st1 -> 0 < PRS.remaining st1 ->
    PRS.read_token f st1 = PRS.Token (PRS.RawRun n data) p r ->
    len data = n /\ PRS.dst st1 + n <= len (PRS.output st1).


(** The name that the MgGra packer gives to the entry of [file_path], and the
    entry that the reader makes of a packer's entry. *)
Definition entry_name {str : Type} `{PyStr str} (file_path : str) : str :=
  str_upper (str_take 13 (str_lower (path_splitext_root (path_basename file_path)))).

Definition read_back {str : Type} `{PyStrOps str} (e : PkmgGra.Entry) : ExmgGra.Entry :=
  ExmgGra.mkEntry (str_app (str_lower (PkmgGra.name e)) (str_lit ".prs"))
                  (PkmgGra.offset e) (PkmgGra.size e).

(** A name fills its slot: one byte per character, at most 13. *)
Definition slot_name {str : Type} `{PyStr str} (nm : str) : Prop :=
  len (encode_utf8 nm) = str_len nm /\ str_len nm <= 13.

(** A name can be read back from its slot: no NUL inside, and the codec
    decodes what it encoded. *)
Definition readable_name {str : Type} `{PyStrOps str} (nm : str) : Prop :=
  Forall (fun b => b <> 0) (encode_utf8 nm)
  /\ decode_utf8 (encode_utf8 nm) = Some nm.

(** [PyStrOps] for ASCII names. *)
#[global] Instance ascii_str_ops : PyStrOps string := {|
  decode_utf8 := ascii_decode;
  str_app := String.append;
  str_lit s := s;
  str_eqb := String.eqb
|}.

(** [d] written over [r] from index [k] on. *)
Definition overlay (r : list Z) (k : nat) (d : list Z) : list Z :=
  take k r ++ d ++ drop (k + length d) r.

(** The four bytes of an unsigned 32-bit number, least significant first. *)
Definition le32 (v : Z) : list Z :=
  [v mod 256; (v / 256) mod 256; (v / 65536) mod 256; v / 16777216].

(** The record that the data-archive writer leaves for a file whose name is
    encoded as [ne] and whose JSON text holds the bytes [bin]: the name
    padded with zero bytes, covered in normal mode by the bytes of the JSON
    text, and then the offset and the size in their fields. *)
Definition base_record (p : PkMgDataWriter.parameters) (patch : bool)
    (ne bin : list Z) : list Z :=
  let blank :=
    ne ++ replicate (Z.to_nat (PkMgDataWriter.entry_size p - len ne)) 0 in
  if patch then blank
  else overlay blank 0 (take (Z.to_nat (PkMgDataWriter.entry_size p)) bin).

Definition record_of (p : PkMgDataWriter.parameters) (base : list Z)
    (offset size : Z) : list Z :=
  overlay (overlay base (Z.to_nat (PkMgDataWriter.file_offset p)) (le32 offset))
          (Z.to_nat (PkMgDataWriter.size_offset p)) (le32 size).

Fixpoint records_of (p : PkMgDataWriter.parameters) (patch : bool)
    (enc bin : string -> list Z) (files : list (string * string * list Z))
    (offset : Z) : list (list Z) :=
  match files with
  | [] => []
  | (file_name, hex_data, data) :: rest =>
      record_of p (base_record p patch (enc file_name) (bin hex_data)) offset (len data)
      :: records_of p patch enc bin rest (offset + len data)
  end.

(** The bytes of a JSON text that is hexadecimal. *)
Definition bytes_of_hex (hex_string : string) : list Z :=
  match PkMgDataWriter.hex_to_bytes hex_string with
  | Ok b => b
  | Raise _ => []
  end.

(** The fields of the writer's layout lie inside the record, which starts
    with the name. *)
Definition fields_inside (p : PkMgDataWriter.parameters) : Prop :=
  PkMgDataWriter.name_offset p = 0
  /\ 0 <= PkMgDataWriter.file_offset p <= PkMgDataWriter.entry_size p - 4
  /\ 0 <= PkMgDataWriter.size_offset p <= PkMgDataWriter.entry_size p - 4.

(** What the writer needs of a file: a name that encodes and fits the
    record, bytes as contents, and in normal mode a JSON text that is
    hexadecimal. [enc] and [bin] give the encoded name and the bytes of the
    text. *)
Definition packable (cp932_encode : string -> option (list Z))
    (p : PkMgDataWriter.parameters) (patch : bool) (enc bin : string -> list Z)
    (f : string * string * list Z) : Prop :=
  cp932_encode f.1.1 = Some (enc f.1.1)
  /\ len (enc f.1.1) <= PkMgDataWriter.entry_size p
  /\ wf_bytes f.2
  /\ (patch = false -> PkMgDataWriter.hex_to_bytes f.1.2 = Ok (bin f.1.2)).

(** A small input for the data-archive writer: a codec for ASCII names, a
    directory with two of the three files that the JSON object lists, and
    JSON texts of three bytes. *)
Definition sample_encode (s : string) : option (list Z) := Some (string_bytes s).

Definition sample_dir (name : string) : option (list Z) :=
  if String.eqb name "a.bin" then Some [0x01; 0x02; 0x03]
  else if String.eqb name "b" then Some [0xff]
  else None.

Definition sample_parameters : PkMgDataWriter.parameters :=
  PkMgDataWriter.mkParameters "k1" 0x18 0x00 0x10 0x14.

Definition sample_info : list (string * string) :=
  [("a.bin"%string, "41 42 43"%string); ("gone"%string, "00"%string);
   ("b"%string, "5a5A5a"%string)].


(** The parameters that the reader stores in [entries.json] for a layout,
    with the key as text. *)
Definition writer_params (k : string) (q : ExMgData.params)
  : PkMgDataWriter.parameters :=
  PkMgDataWriter.mkParameters k (ExMgData.entry_size q) (ExMgData.name_offset q)
                              (ExMgData.file_offset q) (ExMgData.size_offset q).

(** A file name that comes back from its record: it encodes to [enc name],
    bytes without a NUL that fit the 32 bytes read for a name and decode to
    the name again. *)
Definition name_round_trips (cp932_encode : string -> option (list Z))
    (cp932_decode : list Z -> option string) (enc : string -> list Z)
    (name : string) : Prop :=
  cp932_encode name = Some (enc name)
  /\ wf_bytes (enc name)
  /\ Forall (fun b => b <> 0) (enc name)
  /\ len (enc name) <= 0x20
  /\ cp932_decode (enc name) = Some name.

(** The index entries and the sidecar that belong to the records of
    [records_of]. *)
Fixpoint index_of (files : list (string * string * list Z)) (offset : Z)
  : list (string * Z * Z) :=
  match files with
  | [] => []
  | (file_name, _, data) :: rest =>
      (file_name, offset, len data) :: index_of rest (offset + len data)
  end.

Fixpoint sidecar_of (p : PkMgDataWriter.parameters) (patch : bool)
    (enc bin : string -> list Z) (files : list (string * string * list Z))
    (offset : Z) : list (string * string) :=
  match files with
  | [] => []
  | (file_name, hex_data, data) :: rest =>
      (file_name,
       ExMgData.hex_of_bytes
         (record_of p (base_record p patch (enc file_name) (bin hex_data))
                    offset (len data)))
      :: sidecar_of p patch enc bin rest (offset + len data)
  end.

(** The output directory after an extraction, as the input directory of the
    writer. *)
Fixpoint dir_of (files : list (string * list Z)) (name : string)
  : option (list Z) :=
  match files with
  | [] => None
  | (n, data) :: rest =>
      match dir_of rest name with
      | Some d => Some d
      | None => if String.eqb n name then Some data else None
      end
  end.

(** A file that survives the round trip through an archive, and a name that
    does not collide with the keys and files of the sidecar. *)
Definition round_trips (cp932_encode : string -> option (list Z))
    (cp932_decode : list Z -> option string) (enc : string -> list Z)
    (f : string * string * list Z) : Prop :=
  name_round_trips cp932_encode cp932_decode enc f.1.1 /\ wf_bytes f.2.

Definition plain_name (name : string) : Prop :=
  name <> "parameters"%string /\ name <> "entries.json"%string.

(** The files of an extraction as the writer finds them again: each one with
    the text of its record from the sidecar. *)
Fixpoint resaved (p : PkMgDataWriter.parameters) (patch : bool)
    (enc bin : string -> list Z) (files : list (string * string * list Z))
    (offset : Z) : list (string * string * list Z) :=
  match files with
  | [] => []
  | (file_name, hex_data, data) :: rest =>
      (file_name,
       ExMgData.hex_of_bytes
         (record_of p (base_record p patch (enc file_name) (bin hex_data))
                    offset (len data)),
       data)
      :: resaved p patch enc bin rest (offset + len data)
  end.

(** The text of the preset key. *)
Definition key_text : string :=
  fold_right (fun b s => String (Ascii.ascii_of_nat (Z.to_nat b)) s) EmptyString
             ExMgData.KEY.

(** What a match [(match_length, match_offset)] at [input_index] promises to
    the decoder: the bytes from [input_index] on repeat the bytes
    [match_offset] positions earlier. *)
Definition repeats (inp : list Z) (input_index match_length match_offset : Z) : Prop :=
  forall j : Z, 0 <= j < match_length ->
    inp !! Z.to_nat (input_index + j) = inp !! Z.to_nat (input_index - match_offset + j).

(** The hash table holds earlier positions only. *)
Definition earlier_positions (hash_table : gmap Z (list Z)) (input_index : Z) : Prop :=
  forall h chain, hash_table !! h = Some chain ->
    Forall (fun offset => 0 <= offset < input_index) chain.

(** The bytes of a pixel in the input buffer, blue first, and the
    serialisation of an image row by row. *)
Definition pixel_bytes (rgba : bool) (pixel : list Z) : list Z :=
  reverse (take 3 pixel) ++ (if rgba then [pixel !!! 3%nat] else []).

Definition row_bytes (image : PrsImage.Image) (y : Z) : list Z :=
  flat_map (fun x => pixel_bytes (PrsImage.rgba image) (PrsImage.load image x y))
           (range 0 (PrsImage.width image)).

Definition serialize (image : PrsImage.Image) : list Z :=
  flat_map (row_bytes image) (range 0 (PrsImage.height image)).

(** Every pixel of the image has its bands, each of them a byte. *)
Definition banded (image : PrsImage.Image) : Prop :=
  forall x y, 0 <= x < PrsImage.width image -> 0 <= y < PrsImage.height image ->
    wf_bytes (PrsImage.load image x y)
    /\ (if PrsImage.rgba image then 4 else 3) <= len (PrsImage.load image x y).

(** A 2 x 2 image in RGBA. *)
Definition sample_image : PrsImage.Image :=
  PrsImage.mkImage 2 2 true (fun x y => [10 * x + y; 100 + x; 200 + y; 255]).

(** * Properties *)

(** ** Python runtime lemmas *)

Lemma is_byteb_spec b : is_byteb b = true <-> is_byte b.
Proof. unfold is_byteb, is_byte. rewrite andb_true_iff. lia. Qed.

Lemma is_byteb_true b : is_byte b -> is_byteb b = true.
Proof. apply is_byteb_spec. Qed.

Lemma len_nonneg {A} (l : list A) : 0 <= len l.
Proof. unfold len. lia. Qed.

Lemma getitem_nat (l : list Z) (i : nat) v :
  l !! i = Some v -> getitem l (Z.of_nat i) = Ok v.
Proof.
  intros Hl. pose proof (lookup_lt_Some _ _ _ Hl) as Hlt.
  unfold getitem, len.
  destruct (Z.ltb_spec (Z.of_nat i) 0); [lia|].
  destruct (Z.leb_spec 0 (Z.of_nat i)); [|lia].
  destruct (Z.ltb_spec (Z.of_nat i) (Z.of_nat (length l))); [|lia].
  simpl. rewrite Nat2Z.id, Hl. reflexivity.
Qed.

Lemma wf_bytes_lookup (l : list Z) i v : wf_bytes l -> l !! i = Some v -> is_byte v.
Proof. intros Hwf Hl. eapply Forall_lookup_1; eauto. Qed.

Lemma lxor_is_byte a b : is_byte a -> is_byte b -> is_byte (Z.lxor a b).
Proof.
  unfold is_byte. intros Ha Hb.
  assert (0 <= Z.lxor a b) by (apply Z.lxor_nonneg; lia).
  split; [assumption|].
  destruct (Z.eq_dec (Z.lxor a b) 0) as [->|Hne]; [lia|].
  change 256 with (2 ^ 8). apply Z.log2_lt_pow2; [lia|].
  pose proof (Z.log2_lxor a b ltac:(lia) ltac:(lia)) as Hlog.
  assert (Hla : Z.log2 a < 8).
  { destruct (Z.eq_dec a 0) as [->|]; [simpl; lia|]. apply Z.log2_lt_pow2; lia. }
  assert (Hlb : Z.log2 b < 8).
  { destruct (Z.eq_dec b 0) as [->|]; [simpl; lia|]. apply Z.log2_lt_pow2; lia. }
  lia.
Qed.

Lemma lxor_cancel d k : Z.lxor (Z.lxor d k) k = d.
Proof. rewrite Z.lxor_assoc, Z.lxor_nilpotent, Z.lxor_0_r. reflexivity. Qed.

(** ** XorCipher *)

Section Xor.
Import ExMgData.

Lemma xor_at_ok data key (i : nat) :
  key <> [] -> (i < length data)%nat ->
  xor_at data key (Z.of_nat i) = Ok (xor_elem data key i).
Proof.
  intros Hk Hi. unfold xor_at, xor_elem.
  destruct (lookup_lt_is_Some_2 data i Hi) as [d Hd].
  rewrite (getitem_nat _ _ _ Hd). simpl.
  assert (Hlen : (0 < length key)%nat) by (destruct key; simpl; [congruence|lia]).
  destruct (Z.eqb_spec (len key) 0) as [E|_]; [unfold len in E; lia|].
  assert (Hm : (i mod length key < length key)%nat) by (apply Nat.mod_upper_bound; lia).
  destruct (lookup_lt_is_Some_2 key _ Hm) as [k Hkk].
  unfold len. rewrite <- Nat2Z.inj_mod.
  rewrite (getitem_nat _ _ _ Hkk). simpl.
  rewrite (list_lookup_total_correct _ _ _ Hd), (list_lookup_total_correct _ _ _ Hkk).
  reflexivity.
Qed.

Lemma xor_elem_is_byte data key i :
  wf_bytes data -> wf_bytes key -> key <> [] -> (i < length data)%nat ->
  is_byte (xor_elem data key i).
Proof.
  intros Hd Hk Hne Hi. unfold xor_elem.
  assert (Hlen : (0 < length key)%nat) by (destruct key; simpl; [congruence|lia]).
  apply lxor_is_byte.
  - destruct (lookup_lt_is_Some_2 data i Hi) as [d Hd'].
    rewrite (list_lookup_total_correct _ _ _ Hd'). exact (wf_bytes_lookup _ _ _ Hd Hd').
  - assert (Hm : (i mod length key < length key)%nat) by (apply Nat.mod_upper_bound; lia).
    destruct (lookup_lt_is_Some_2 key _ Hm) as [k Hkk].
    rewrite (list_lookup_total_correct _ _ _ Hkk). exact (wf_bytes_lookup _ _ _ Hk Hkk).
Qed.

Lemma collect_xor data key a n :
  wf_bytes data -> wf_bytes key -> key <> [] -> (a + n <= length data)%nat ->
  collect_bytes (xor_at data key) (map (fun k => 0 + Z.of_nat k) (seq a n))
  = Ok (map (xor_elem data key) (seq a n)).
Proof.
  intros Hd Hk Hne. revert a. induction n as [|n IH]; intros a Ha; [reflexivity|].
  cbn [seq map collect_bytes]. rewrite Z.add_0_l.
  rewrite xor_at_ok by (auto; lia). cbn [mbind result_bind].
  rewrite is_byteb_true by (apply xor_elem_is_byte; auto; lia).
  rewrite IH by lia. reflexivity.
Qed.

Lemma xor_decrypt_ok data key :
  wf_bytes data -> wf_bytes key -> key <> [] ->
  xor_decrypt data key = Ok (xor_stream data key).
Proof.
  intros Hd Hk Hne. unfold xor_decrypt, range, len.
  rewrite Z.sub_0_r, Nat2Z.id. apply collect_xor; auto.
Qed.

Lemma xor_stream_length data key : length (xor_stream data key) = length data.
Proof. unfold xor_stream. rewrite length_map, length_seq. reflexivity. Qed.

Lemma xor_stream_wf data key :
  wf_bytes data -> wf_bytes key -> key <> [] -> wf_bytes (xor_stream data key).
Proof.
  intros Hd Hk Hne. unfold xor_stream, wf_bytes.
  apply Forall_forall. intros x Hx. apply list_elem_of_In, in_map_iff in Hx.
  destruct Hx as (i & <- & Hi). apply in_seq in Hi.
  apply xor_elem_is_byte; auto; lia.
Qed.

Lemma xor_stream_involutive data key :
  xor_stream (xor_stream data key) key = data.
Proof.
  apply list_eq. intros i. unfold xor_stream at 1.
  rewrite xor_stream_length.
  destruct (decide (i < length data)%nat) as [Hi|Hi].
  - rewrite list_lookup_fmap, lookup_seq_lt by lia. simpl.
    destruct (lookup_lt_is_Some_2 data i Hi) as [d Hd]. rewrite Hd. f_equal.
    unfold xor_elem at 1.
    assert (Hx : xor_stream data key !! i = Some (xor_elem data key i)).
    { unfold xor_stream. rewrite list_lookup_fmap, lookup_seq_lt by lia. reflexivity. }
    rewrite (list_lookup_total_correct _ _ _ Hx). unfold xor_elem.
    rewrite (list_lookup_total_correct _ _ _ Hd). apply lxor_cancel.
  - rewrite list_lookup_fmap, lookup_seq_ge by lia. simpl.
    symmetry. apply lookup_ge_None. lia.
Qed.

Lemma xor_decrypt_raise_key data key e :
  wf_bytes data -> wf_bytes key -> xor_decrypt data key = Raise e -> key = [].
Proof.
  intros Hd Hk Hr. destruct key as [|k key]; [reflexivity|].
  rewrite xor_decrypt_ok in Hr by (auto; congruence). discriminate.
Qed.

End Xor.

(** C9. The keyed XOR of [ExMgData.xor_decrypt] and [PkMgData.xor_encrypt] is
    an involution: for byte strings [b] and a non-empty key [k] both return
    the same byte string [c] of the length of [b], and applying either to
    [c] with [k] gives back [b]; an application that raises has an empty
    key. *)
Theorem xor_involution (b k : list Z) :
  wf_bytes b -> wf_bytes k ->
  (k <> [] ->
   exists c, ExMgData.xor_decrypt b k = Ok c /\ PkMgData.xor_encrypt b k = Ok c
             /\ length c = length b
             /\ ExMgData.xor_decrypt c k = Ok b /\ PkMgData.xor_encrypt c k = Ok b)
  /\ (forall e, ExMgData.xor_decrypt b k = Raise e \/ PkMgData.xor_encrypt b k = Raise e
                -> k = []).
Proof.
  intros Hb Hk. split.
  - intros Hne. exists (xor_stream b k).
    assert (Hc : wf_bytes (xor_stream b k)) by (apply xor_stream_wf; auto).
    change (PkMgData.xor_encrypt b k) with (ExMgData.xor_decrypt b k).
    change (PkMgData.xor_encrypt (xor_stream b k) k)
      with (ExMgData.xor_decrypt (xor_stream b k) k).
    rewrite !xor_decrypt_ok by auto.
    rewrite xor_stream_involutive, xor_stream_length. repeat split.
  - intros e [Hr|Hr]; exact (xor_decrypt_raise_key b k e Hb Hk Hr).
Qed.

Lemma xor_involution_witness :
  exists c, ExMgData.xor_decrypt [0xDE; 0xAD; 0xBE; 0xEF] [0x6b] = Ok c
            /\ PkMgData.xor_encrypt [0xDE; 0xAD; 0xBE; 0xEF] [0x6b] = Ok c
            /\ length c = length [0xDE; 0xAD; 0xBE; 0xEF]
            /\ ExMgData.xor_decrypt c [0x6b] = Ok [0xDE; 0xAD; 0xBE; 0xEF]
            /\ PkMgData.xor_encrypt c [0x6b] = Ok [0xDE; 0xAD; 0xBE; 0xEF].
Proof.
  refine (proj1 (xor_involution [0xDE; 0xAD; 0xBE; 0xEF] [0x6b] _ _) _).
  - repeat constructor; unfold is_byte; lia.
  - repeat constructor; unfold is_byte; lia.
  - discriminate.
Defined.
(** ** PrsWriter *)

Section Writer.
Import PRS.

Lemma getitem_app_mid (pre l : list Z) x :
  getitem (pre ++ x :: l) (len pre) = Ok x.
Proof.
  apply getitem_nat. rewrite lookup_app_r by lia.
  rewrite Nat.sub_diag. reflexivity.
Qed.

Lemma hash_total inp i : 0 <= i -> exists h, hash inp i = Ok h.
Proof.
  intros Hi. unfold hash.
  destruct (Z.gtb_spec (i + 3) (len inp)) as [|Hle]; [eauto|].
  unfold len in Hle.
  assert (Hget : forall d, 0 <= d < 3 -> exists v, getitem inp (i + d) = Ok v).
  { intros d Hd. replace (i + d) with (Z.of_nat (Z.to_nat (i + d))) by lia.
    destruct (lookup_lt_is_Some_2 inp (Z.to_nat (i + d)) ltac:(lia)) as [v Hv].
    exists v. apply getitem_nat. exact Hv. }
  destruct (Hget 0 ltac:(lia)) as [a Ha]. rewrite Z.add_0_r in Ha.
  destruct (Hget 1 ltac:(lia)) as [b Hb].
  destruct (Hget 2 ltac:(lia)) as [c Hc].
  rewrite Ha, Hb, Hc. simpl. eauto.
Qed.

(** With an empty hash table no match is ever found. *)
Lemma find_longest_match_empty inp i :
  0 <= i -> find_longest_match inp ∅ i = Ok (0, 0).
Proof.
  intros Hi. unfold find_longest_match.
  destruct (hash_total inp i Hi) as [h ->]. simpl.
  rewrite lookup_empty. reflexivity.
Qed.

(** A literal registers no position, so the table stays empty. *)
Lemma update_hash_table_literal inp tbl i :
  update_hash_table inp tbl i 0 = Ok tbl.
Proof.
  unfold update_hash_table, range.
  replace (i - (i - 0)) with 0 by lia. reflexivity.
Qed.

Lemma pack_step_literal (pre l : list Z) x j cb o :
  is_byte x -> (j < 8)%nat ->
  pack_step (pre ++ x :: l) (mkPack (len pre) 0 (2 ^ Z.of_nat j) cb o ∅)
  = Ok (if decide (j = 7%nat)
        then mkPack (len pre + 1) 0 1 [] (o ++ [0] ++ cb ++ [x]) ∅
        else mkPack (len pre + 1) 0 (2 ^ Z.of_nat (S j)) (cb ++ [x]) o ∅).
Proof.
  intros Hx Hj. unfold pack_step. cbn [hash_table input_index].
  rewrite find_longest_match_empty by apply len_nonneg.
  cbn [mbind result_bind]. unfold encode_token.
  cbn [input_index control_buffer control mask out Z.ltb Z.compare].
  rewrite getitem_app_mid. cbn [mbind result_bind].
  unfold append. rewrite (is_byteb_true _ Hx). cbn [mbind result_bind].
  rewrite update_hash_table_literal.
  do 8 (destruct j as [|j]; [reflexivity|]). lia.
Qed.

Lemma pack_loop_literals (l : list Z) :
  forall (pre cb o : list Z) (j fuel : nat),
    wf_bytes l -> length cb = j -> (j < 8)%nat -> (length l <= fuel)%nat ->
    exists st' j',
      pack_loop fuel (pre ++ l) (mkPack (len pre) 0 (2 ^ Z.of_nat j) cb o ∅) = Ok st'
      /\ (j' < 8)%nat /\ mask st' = 2 ^ Z.of_nat j' /\ control st' = 0
      /\ length (control_buffer st') = j'
      /\ out st' ++ pending j' (control_buffer st') [] = o ++ pending j cb l.
Proof.
  induction l as [|x l IH]; intros pre cb o j fuel Hwf Hcb Hj Hfuel.
  - exists (mkPack (len pre) 0 (2 ^ Z.of_nat j) cb o ∅), j.
    rewrite app_nil_r. repeat split; auto.
    destruct fuel; simpl; rewrite Z.ltb_irrefl; reflexivity.
  - destruct fuel as [|fuel]; [simpl in Hfuel; lia|].
    apply Forall_cons in Hwf as [Hx Hwf].
    cbn [pack_loop input_index].
    assert (Hlt : (len pre <? len (pre ++ x :: l)) = true).
    { apply Z.ltb_lt. unfold len. rewrite length_app. simpl. lia. }
    rewrite Hlt, pack_step_literal by auto. cbn [mbind result_bind].
    replace (pre ++ x :: l) with ((pre ++ [x]) ++ l) by (rewrite <- app_assoc; reflexivity).
    replace (len pre + 1) with (len (pre ++ [x]))
      by (unfold len; rewrite length_app; simpl; lia).
    destruct (decide (j = 7%nat)) as [->|Hj7].
    + destruct (IH (pre ++ [x]) [] (o ++ [0] ++ cb ++ [x]) 0%nat fuel)
        as (st' & j' & Hrun & ? & ? & ? & ? & Hout);
        auto; [lia | simpl in Hfuel; lia |].
      exists st', j'. repeat split; auto.
      rewrite Hout. cbn [pending Nat.sub stream].
      rewrite <- !app_assoc. reflexivity.
    + destruct (IH (pre ++ [x]) (cb ++ [x]) o (S j) fuel)
        as (st' & j' & Hrun & ? & ? & ? & ? & Hout);
        auto; [rewrite length_app; simpl; lia | lia | simpl in Hfuel; lia |].
      exists st', j'. repeat split; auto.
      rewrite Hout. f_equal. subst j. destruct cb as [|c cb].
      * reflexivity.
      * cbn [pending length] in *. rewrite <- app_assoc.
        replace (8 - S (length cb))%nat with (S (8 - S (S (length cb))))%nat by lia.
        reflexivity.
Qed.

Lemma stream_length (l : list Z) : forall k : nat,
  (k <= 7)%nat -> len (stream k l) = len l + (len l + 7 - Z.of_nat k) / 8.
Proof.
  unfold len. induction l as [|x l IH]; intros k Hk.
  - simpl. symmetry. rewrite Z.add_0_l. apply Z.div_small. lia.
  - destruct k as [|k]; cbn [stream length].
    + rewrite !Nat2Z.inj_succ, (IH 7%nat) by lia.
      replace (Z.succ (Z.of_nat (length l)) + 7 - Z.of_nat 0)
        with (Z.of_nat (length l) + 7 - Z.of_nat 7 + 1 * 8) by lia.
      rewrite Z.div_add by lia. lia.
    + rewrite !Nat2Z.inj_succ, (IH k) by lia.
      replace (Z.succ (Z.of_nat (length l)) + 7 - Z.succ (Z.of_nat k))
        with (Z.of_nat (length l) + 7 - Z.of_nat k) by lia.
      lia.
Qed.

End Writer.

(** ** PrsReader on a stream of literals *)

Section ReaderLiterals.
Import PRS.

Lemma setitem_ok (l : list Z) (i v : Z) :
  0 <= i < len l -> is_byte v -> setitem l i v = Ok (<[Z.to_nat i := v]> l).
Proof.
  intros Hi Hv. unfold setitem.
  destruct (Z.ltb_spec i 0); [lia|].
  destruct (Z.leb_spec 0 i); [|lia].
  destruct (Z.ltb_spec i (len l)); [|lia].
  simpl. rewrite (is_byteb_true _ Hv). reflexivity.
Qed.

Lemma unpack_step_literal_first f st x :
  Z.shiftr (bit st) 1 = 0 ->
  f !! pos st = Some 0 -> f !! S (pos st) = Some x ->
  1 < remaining st -> 0 <= dst st < len (output st) -> is_byte x ->
  unpack_step f st
  = Continue (mkUnpack (S (S (pos st))) (remaining st - 1 - 1) (dst st + 1) 0x80 0
                       (<[Z.to_nat (dst st) := x]> (output st))).
Proof.
  intros Hbit Hc Hx Hrem Hdst Hbx. unfold unpack_step, next_bit.
  rewrite Hbit. cbn [Z.eqb]. unfold fread1. rewrite Hc.
  cbn [mbind result_bind remaining].
  destruct (Z.leb_spec (remaining st - 1) 0); [lia|].
  unfold read_token. cbn [ctl bit pos remaining dst output].
  rewrite Z.land_0_l, Z.eqb_refl.
  unfold fread1. rewrite Hx. cbn [apply_token].
  rewrite setitem_ok by auto. reflexivity.
Qed.

Lemma unpack_step_literal_next f st x :
  Z.shiftr (bit st) 1 <> 0 -> ctl st = 0 ->
  f !! pos st = Some x ->
  0 < remaining st -> 0 <= dst st < len (output st) -> is_byte x ->
  unpack_step f st
  = Continue (mkUnpack (S (pos st)) (remaining st - 1) (dst st + 1)
                       (Z.shiftr (bit st) 1) 0
                       (<[Z.to_nat (dst st) := x]> (output st))).
Proof.
  intros Hbit Hc Hx Hrem Hdst Hbx. unfold unpack_step, next_bit.
  destruct (Z.eqb_spec (Z.shiftr (bit st) 1) 0) as [|_]; [contradiction|].
  cbn [remaining].
  destruct (Z.leb_spec (remaining st) 0); [lia|].
  unfold read_token. cbn [ctl bit pos remaining dst output].
  rewrite Hc, Z.land_0_l, Z.eqb_refl.
  unfold fread1. rewrite Hx. cbn [apply_token].
  rewrite setitem_ok by auto. reflexivity.
Qed.

Lemma group_bit_next k : (k <= 7)%nat -> group_bit k (2 ^ Z.of_nat k).
Proof. destruct k; [reflexivity|]. intros _. reflexivity. Qed.

Lemma insert_middle (done : list Z) x n :
  <[Z.to_nat (len done) := x]> (done ++ replicate (S n) 0)
  = (done ++ [x]) ++ replicate n 0.
Proof.
  unfold len. rewrite Nat2Z.id.
  rewrite insert_app_r_alt by lia. rewrite Nat.sub_diag. simpl.
  rewrite <- app_assoc. reflexivity.
Qed.

Lemma unpack_loop_literals (f : list Z) (l : list Z) :
  forall (done : list Z) (k fuel : nat) (st : UnpackState),
    wf_bytes l -> (k <= 7)%nat ->
    drop (pos st) f = stream k l ->
    remaining st = len (stream k l) ->
    dst st = len done ->
    output st = done ++ replicate (length l) 0 ->
    group_bit k (bit st) -> (k <> 0%nat -> ctl st = 0) ->
    (length l <= fuel)%nat ->
    exists st', unpack_loop fuel f st = Ok st' /\ output st' = done ++ l.
Proof.
  induction l as [|x l IH];
    intros done k fuel st Hwf Hk Hf Hrem Hdst Hout Hbit Hctl Hfuel.
  - exists st. split.
    + destruct fuel; cbn [unpack_loop]; unfold loop_cond; rewrite Hrem; reflexivity.
    + rewrite Hout. reflexivity.
  - destruct fuel as [|fuel]; [simpl in Hfuel; lia|].
    apply Forall_cons in Hwf as [Hx Hwf].
    assert (Hdst' : 0 <= dst st < len (output st)).
    { rewrite Hdst, Hout. unfold len. rewrite length_app, length_replicate.
      cbn [length]. lia. }
    assert (Hcond : loop_cond st = true).
    { unfold loop_cond. apply andb_true_iff. split; apply Z.ltb_lt; [|lia].
      rewrite Hrem. unfold len. destruct k; simpl; lia. }
    cbn [unpack_loop]. rewrite Hcond.
    replace (done ++ x :: l) with ((done ++ [x]) ++ l)
      by (rewrite <- app_assoc; reflexivity).
    destruct k as [|k].
    + cbn [stream] in Hf, Hrem. cbn [group_bit] in Hbit.
      assert (Hc : f !! pos st = Some 0).
      { rewrite <- (Nat.add_0_r (pos st)), <- lookup_drop, Hf. reflexivity. }
      assert (Hx' : f !! S (pos st) = Some x).
      { replace (S (pos st)) with (pos st + 1)%nat by lia.
        rewrite <- lookup_drop, Hf. reflexivity. }
      rewrite (unpack_step_literal_first f st x) by
        (auto; rewrite Hrem; unfold len; simpl; lia).
      apply (IH (done ++ [x]) 7%nat); auto; cbn [pos remaining dst output bit ctl].
      * replace (S (S (pos st))) with (pos st + 2)%nat by lia.
        rewrite <- drop_drop, Hf. reflexivity.
      * rewrite Hrem. unfold len. simpl. lia.
      * rewrite Hdst. unfold len. rewrite length_app. simpl. lia.
      * rewrite Hdst, Hout. apply insert_middle.
      * reflexivity.
      * simpl in Hfuel. lia.
    + cbn [stream] in Hf, Hrem. cbn [group_bit] in Hbit.
      assert (Hx' : f !! pos st = Some x).
      { rewrite <- (Nat.add_0_r (pos st)), <- lookup_drop, Hf. reflexivity. }
      assert (Hsh : Z.shiftr (bit st) 1 = 2 ^ Z.of_nat k).
      { rewrite Hbit, Z.shiftr_div_pow2 by lia.
        rewrite Nat2Z.inj_succ, Z.pow_succ_r by lia.
        rewrite Z.mul_comm, Z.pow_1_r. apply Z.div_mul. lia. }
      rewrite (unpack_step_literal_next f st x); auto.
      * rewrite Hsh.
        apply (IH (done ++ [x]) k); auto; cbn [pos remaining dst output bit ctl].
        -- lia.
        -- replace (S (pos st)) with (pos st + 1)%nat by lia.
           rewrite <- drop_drop, Hf. reflexivity.
        -- rewrite Hrem. unfold len. simpl. lia.
        -- rewrite Hdst. unfold len. rewrite length_app. simpl. lia.
        -- rewrite Hdst, Hout. apply insert_middle.
        -- apply group_bit_next. lia.
        -- simpl in Hfuel. lia.
      * rewrite Hsh. lia.
      * rewrite Hrem. unfold len. simpl. lia.
Qed.

End ReaderLiterals.

(** ** Header and whole-file lemmas *)

Section RoundTrip.
Import PRS.

Lemma unpack_pack_u16 v : 0 <= v < 65536 ->
  pack_u16 v = Ok [v mod 256; v / 256] /\ v mod 256 + 256 * (v / 256) = v.
Proof.
  intros Hv. unfold pack_u16.
  destruct (Z.leb_spec 0 v); [|lia]. destruct (Z.ltb_spec v 65536); [|lia].
  split; [reflexivity|]. pose proof (Z.div_mod v 256). lia.
Qed.

Lemma unpack_pack_u32 v : 0 <= v < 4294967296 ->
  pack_u32 v = Ok [v mod 256; (v / 256) mod 256; (v / 65536) mod 256; v / 16777216]
  /\ v mod 256 + 256 * ((v / 256) mod 256) + 65536 * ((v / 65536) mod 256)
     + 16777216 * (v / 16777216) = v.
Proof.
  intros Hv. unfold pack_u32.
  destruct (Z.leb_spec 0 v); [|lia]. destruct (Z.ltb_spec v 4294967296); [|lia].
  split; [reflexivity|].
  pose proof (Z.div_mod v 256). pose proof (Z.div_mod (v / 256) 256).
  pose proof (Z.div_mod (v / 65536) 256).
  assert (v / 65536 = v / 256 / 256) by (rewrite Z.div_div by lia; reflexivity).
  assert (v / 16777216 = v / 65536 / 256) by (rewrite Z.div_div by lia; reflexivity).
  lia.
Qed.

Lemma pack_u32_inv v sz : pack_u32 v = Ok sz ->
  0 <= v < 4294967296 /\ unpack_u32 sz = Ok v /\ length sz = 4%nat.
Proof.
  intros Hp.
  assert (Hv : 0 <= v < 4294967296).
  { unfold pack_u32 in Hp.
    destruct (Z.leb_spec 0 v); destruct (Z.ltb_spec v 4294967296);
      simpl in Hp; try discriminate. lia. }
  destruct (unpack_pack_u32 v Hv) as [Hq Hsum].
  rewrite Hq in Hp. injection Hp as <-.
  split; [exact Hv|]. split; [|reflexivity].
  unfold unpack_u32. f_equal. exact Hsum.
Qed.

Lemma read_header (c d s0 s1 s2 s3 z0 z1 z2 z3 w0 w1 h0 h1 : Z) (payload : list Z) :
  d = 3 \/ d = 4 ->
  read_prs_meta_data
    ([0x59; 0x42; c; d; s0; s1; s2; s3; z0; z1; z2; z3; w0; w1; h0; h1] ++ payload)
  = Ok (mkMeta (w0 + 256 * w1) (h0 + 256 * h1) (d * 8) c
               (s0 + 256 * s1 + 65536 * s2 + 16777216 * s3)).
Proof. intros [-> | ->]; reflexivity. Qed.

(** The file written for a buffer that is stored with literals only. *)
Lemma pack_literals (wr : PrsWriter) :
  let md := metadata wr in
  let n := len (stream 0 (input wr)) in
  wf_bytes (input wr) -> is_byte (flag md) -> is_byte (bpp md / 8) ->
  0 <= width md < 65536 -> 0 <= height md < 65536 -> n < 4294967296 ->
  pack wr
  = Ok ([0x59; 0x42; flag md; bpp md / 8;
         n mod 256; (n / 256) mod 256; (n / 65536) mod 256; n / 16777216;
         0; 0; 0; 0;
         width md mod 256; width md / 256; height md mod 256; height md / 256]
        ++ stream 0 (input wr),
        mkMeta (width md) (height md) (bpp md) (flag md) n).
Proof.
  intros md n Hwf Hflag Hbpp Hw Hh Hn. unfold pack, pack_header, bytes1, append.
  fold md. rewrite (is_byteb_true _ Hflag), (is_byteb_true _ Hbpp).
  cbn [mbind result_bind app].
  rewrite (proj1 (unpack_pack_u16 _ Hw)), (proj1 (unpack_pack_u16 _ Hh)).
  cbn [mbind result_bind app replicate].
  set (hdr := [89; 66; flag md; bpp md / 8; 0; 0; 0; 0; 0; 0; 0; 0;
               width md mod 256; width md / 256; height md mod 256; height md / 256]).
  destruct (pack_loop_literals (input wr) [] [] hdr 0%nat (length (input wr)))
    as (st' & j' & Hrun & Hj' & Hmask & Hctl & Hcb & Hout);
    [exact Hwf | reflexivity | lia | lia |].
  change (pack_loop (length (input wr)) (input wr) (mkPack 0 0 1 [] hdr ∅) = Ok st')
    in Hrun.
  rewrite Hrun. cbn [mbind result_bind]. cbn [pending] in Hout.
  assert (Hfinal : final_flush st' = Ok (hdr ++ stream 0 (input wr))).
  { unfold final_flush, bytes1, append.
    rewrite <- Hout, Hmask, Hctl. unfold len. rewrite Hcb.
    destruct j' as [|j'].
    - cbn [pending stream]. rewrite app_nil_r. reflexivity.
    - assert (Hne : (2 ^ Z.of_nat (S j') =? 1) = false).
      { apply Z.eqb_neq. do 8 (destruct j' as [|j']; [simpl; lia|]). lia. }
      rewrite Hne. cbn [negb orb is_byteb mbind result_bind pending stream app].
      rewrite app_nil_r. reflexivity. }
  rewrite Hfinal. cbn [mbind result_bind].
  assert (Hlen : len (hdr ++ stream 0 (input wr)) - 16 = n).
  { unfold len, n. rewrite length_app. unfold len. simpl length. lia. }
  rewrite Hlen.
  rewrite (proj1 (unpack_pack_u32 n ltac:(pose proof (len_nonneg (stream 0 (input wr))); fold n in H; lia))).
  reflexivity.
Qed.

Lemma all_equal_at_total (o : list Z) alpha idx :
  Forall (fun i => 0 <= i < len o) idx ->
  exists b, all_equal_at o alpha idx = Ok b.
Proof.
  induction 1 as [|i idx Hi _ IH]; [simpl; eauto|].
  cbn [all_equal_at].
  destruct (lookup_lt_is_Some_2 o (Z.to_nat i) ltac:(unfold len in Hi; lia)) as [v Hv].
  apply getitem_nat in Hv. rewrite Z2Nat.id in Hv by lia. rewrite Hv.
  cbn [mbind result_bind]. destruct (negb (v =? alpha)); eauto.
Qed.

Lemma is_dummy_alpha_channel_total (o : list Z) :
  4 <= len o -> exists b, is_dummy_alpha_channel o = Ok b.
Proof.
  intros Hlen. unfold is_dummy_alpha_channel.
  destruct (lookup_lt_is_Some_2 o 3 ltac:(unfold len in Hlen; lia)) as [v Hv].
  apply getitem_nat in Hv. change (Z.of_nat 3) with 3 in Hv. rewrite Hv.
  cbn [mbind result_bind]. destruct (v =? 255); [eauto|].
  apply all_equal_at_total. apply Forall_forall. intros i Hi.
  apply list_elem_of_In, in_map_iff in Hi. destruct Hi as (k & <- & Hk).
  unfold range in Hk. apply in_map_iff in Hk. destruct Hk as (m & <- & Hm).
  apply in_seq in Hm.
  assert (0 <= (len o - 7 + 3) / 4 - 0 \/ (len o - 7 + 3) / 4 - 0 < 0) as [Hq|Hq] by lia.
  - pose proof (Z.mul_div_le (len o - 7 + 3) 4 ltac:(lia)). lia.
  - rewrite Z2Nat.nonpos in Hm; lia.
Qed.

End RoundTrip.

Section RoundTripMain.
Import PRS.

Lemma decode_literals (c d w h : Z) (P : list Z) :
  let n := len (stream 0 P) in
  d = 3 \/ d = 4 -> 0 < w < 65536 -> 0 < h < 65536 ->
  wf_bytes P -> len P = w * h * d -> n < 4294967296 ->
  Z.land c 0x80 = 0 ->
  exists r,
    decode_file ([0x59; 0x42; c; d;
                  n mod 256; (n / 256) mod 256; (n / 65536) mod 256; n / 16777216;
                  0; 0; 0; 0; w mod 256; w / 256; h mod 256; h / 256]
                 ++ stream 0 P) = Ok r
    /\ r_output r = P /\ r_width r = w /\ r_height r = h /\ r_depth r = d.
Proof.
  intros n Hd Hw Hh Hwf Hlen Hn Hc. unfold decode_file.
  rewrite read_header by exact Hd. cbn [mbind result_bind].
  assert (Hn0 : 0 <= n) by apply len_nonneg.
  rewrite (proj2 (unpack_pack_u16 w ltac:(lia))), (proj2 (unpack_pack_u16 h ltac:(lia))).
  rewrite (proj2 (unpack_pack_u32 n ltac:(lia))).
  unfold unpack, PrsReader_init.
  cbn [r_packed_size r_output r_flag r_depth r_format r_width r_height
       width height bpp flag packed_size].
  rewrite Z.div_mul by lia.
  replace (Z.to_nat (w * h * d)) with (length P) by (unfold len in Hlen; lia).
  set (f := _ ++ stream 0 P).
  destruct (unpack_loop_literals f P [] 0%nat (Z.to_nat n)
              (mkUnpack 16 n 0 0 0 (replicate (length P) 0)))
    as (st' & Hrun & Hout); auto; try reflexivity; try lia.
  { unfold n. rewrite stream_length by lia. unfold len.
    pose proof (Z.div_pos (Z.of_nat (length P) + 7 - Z.of_nat 0) 8). lia. }
  rewrite Hrun. cbn [mbind result_bind]. rewrite Hc. cbn [Z.eqb negb].
  rewrite Hout. cbn [app].
  destruct Hd as [-> | ->].
  - cbn [Z.eqb Pos.eqb mbind result_bind]. eexists. repeat split.
  - cbn [Z.eqb Pos.eqb mbind result_bind].
    destruct (is_dummy_alpha_channel_total P ltac:(nia)) as [b ->].
    cbn [mbind result_bind]. eexists. repeat split.
Qed.

End RoundTripMain.

(** C1. PRS round trip without the delta filter: for an image of [w] by [h]
    pixels ([1..65535] each, the range of the header fields) with 3 or 4
    bytes per pixel, whose BGR(A) buffer [P] has [w * h * bpp] bytes and
    whose payload (one control byte for every eight bytes of [P]) fits the
    32-bit [packed_size] field, the writer with [flag = 0] produces a file
    and reading that file back yields exactly [P]. *)
Theorem prs_round_trip (w h : Z) (rgba : bool) (P : list Z) :
  0 < w < 65536 -> 0 < h < 65536 ->
  wf_bytes P ->
  len P = w * h * (if rgba then 4 else 3) ->
  len P + (len P + 7) / 8 < 4294967296 ->
  exists wr file md r,
    PRS.PrsWriter_init w h rgba P 0 = Ok wr
    /\ PRS.pack wr = Ok (file, md)
    /\ PRS.decode_file file = Ok r
    /\ PRS.r_output r = P.
Proof.
  intros Hw Hh Hwf Hlen Hsize.
  set (d := if rgba then 4 else 3) in *.
  assert (Hd : d = 3 \/ d = 4) by (destruct rgba; auto).
  set (wr := PRS.mkWriter (PRS.mkMeta w h (if rgba then 32 else 24) 0 0) d (w * d) P).
  assert (Hinit : PRS.PrsWriter_init w h rgba P 0 = Ok wr).
  { unfold PRS.PrsWriter_init, wr, d. destruct rgba; reflexivity. }
  assert (Hbpp : PRS.bpp (PRS.metadata wr) / 8 = d) by (unfold wr, d; destruct rgba; reflexivity).
  assert (Hn : len (stream 0 P) < 4294967296).
  { rewrite stream_length by lia. change (Z.of_nat 0) with 0. rewrite Z.sub_0_r. exact Hsize. }
  pose proof (pack_literals wr) as Hpack. cbv zeta in Hpack. rewrite Hbpp in Hpack.
  cbn [PRS.metadata PRS.input PRS.flag PRS.width PRS.height wr] in Hpack.
  specialize (Hpack Hwf ltac:(unfold is_byte; lia) ltac:(unfold is_byte; lia)
                     ltac:(lia) ltac:(lia) Hn).
  destruct (decode_literals 0 d w h P Hd Hw Hh Hwf Hlen Hn eq_refl)
    as (r & Hdec & Hout & _).
  eexists wr, _, _, r. split; [exact Hinit|]. split; [exact Hpack|].
  split; [exact Hdec | exact Hout].
Qed.

Lemma prs_round_trip_witness :
  exists wr file md r,
    PRS.PrsWriter_init 3 1 true [0; 0; 0; 9; 1; 1; 1; 9; 2; 2; 2; 9] 0 = Ok wr
    /\ PRS.pack wr = Ok (file, md)
    /\ PRS.decode_file file = Ok r
    /\ PRS.r_output r = [0; 0; 0; 9; 1; 1; 1; 9; 2; 2; 2; 9].
Proof.
  apply (prs_round_trip 3 1 true [0; 0; 0; 9; 1; 1; 1; 9; 2; 2; 2; 9]).
  - lia.
  - lia.
  - repeat constructor; unfold is_byte; lia.
  - reflexivity.
  - vm_compute. reflexivity.
Defined.

(** C7. Header patching: whenever [pack] completes, the file has its 16
    header bytes, and the little-endian [packed_size] field at offset 4 (also
    stored in the metadata) is the number of payload bytes that follow the
    header. *)
Theorem header_patching (wr : PRS.PrsWriter) (file : list Z) (md : PRS.PrsMetaData) :
  PRS.pack wr = Ok (file, md) ->
  16 <= len file
  /\ unpack_u32 (take 4 (drop 4 file)) = Ok (len (drop 16 file))
  /\ PRS.packed_size md = len (drop 16 file).
Proof.
  unfold PRS.pack. intros Hp.
  destruct (PRS.pack_header (PRS.metadata wr)) as [hdr|]; [|discriminate].
  cbn [mbind result_bind] in Hp.
  destruct (PRS.pack_loop _ _ _) as [st|]; [|discriminate].
  cbn [mbind result_bind] in Hp.
  destruct (PRS.final_flush st) as [o|]; [|discriminate].
  cbn [mbind result_bind] in Hp.
  destruct (pack_u32 (len o - 16)) as [sz|] eqn:Hsz; [|discriminate].
  cbn [mbind result_bind] in Hp. injection Hp as <- <-.
  destruct (pack_u32_inv _ _ Hsz) as (Hrange & Hun & Hlen).
  assert (Ho : (16 <= length o)%nat) by (unfold len in Hrange; lia).
  assert (Hfile : len (take 4 o ++ sz ++ drop 8 o) = len o).
  { unfold len. rewrite !length_app, length_take, length_drop. lia. }
  assert (Hpayload : len (drop 16 (take 4 o ++ sz ++ drop 8 o)) = len o - 16).
  { unfold len in *. rewrite length_drop. lia. }
  rewrite Hfile, Hpayload. cbn [PRS.packed_size].
  split; [unfold len; lia|]. split; [|reflexivity].
  rewrite drop_app_length' by (rewrite length_take; lia).
  rewrite take_app_length' by (symmetry; exact Hlen). exact Hun.
Qed.

Lemma header_patching_witness :
  16 <= len [89; 66; 0; 3; 4; 0; 0; 0; 0; 0; 0; 0; 1; 0; 1; 0; 0; 1; 2; 3]
  /\ unpack_u32 (take 4 (drop 4
       [89; 66; 0; 3; 4; 0; 0; 0; 0; 0; 0; 0; 1; 0; 1; 0; 0; 1; 2; 3]))
     = Ok (len (drop 16
       [89; 66; 0; 3; 4; 0; 0; 0; 0; 0; 0; 0; 1; 0; 1; 0; 0; 1; 2; 3]))
  /\ PRS.packed_size (PRS.mkMeta 1 1 24 0 4)
     = len (drop 16 [89; 66; 0; 3; 4; 0; 0; 0; 0; 0; 0; 0; 1; 0; 1; 0; 0; 1; 2; 3]).
Proof.
  apply (header_patching
           (PRS.mkWriter (PRS.mkMeta 1 1 24 0 0) 3 3 [1; 2; 3])).
  vm_compute. reflexivity.
Defined.

(** C5 (decoded-length invariant; the decoder breaks it). A raw run is
    stored with a slice assignment that is not clamped to the buffer: for a
    1x1 RGB image whose payload is one raw run of nine bytes, the decoder
    returns nine bytes instead of [1 * 1 * 3]. *)
Theorem raw_run_grows_output :
  exists r,
    PRS.decode_file ([0x59; 0x42; 0; 3; 11; 0; 0; 0; 0; 0; 0; 0; 1; 0; 1; 0]
                     ++ [0x80; 0x03; 1; 2; 3; 4; 5; 6; 7; 8; 9]) = Ok r
    /\ PRS.r_width r = 1 /\ PRS.r_height r = 1 /\ PRS.r_depth r = 3
    /\ PRS.r_output r = [1; 2; 3; 4; 5; 6; 7; 8; 9]
    /\ len (PRS.r_output r) <> PRS.r_width r * PRS.r_height r * PRS.r_depth r.
Proof.
  eexists. split; [vm_compute; reflexivity|]. cbn.
  repeat split. discriminate.
Qed.

(** ** The invalid-offset error *)

Section InvalidOffsetError.
Import PRS.

Lemma benign_not_invalid e : benign e -> e <> InvalidOffset.
Proof. intros [-> | ->]; discriminate. Qed.

Lemma getitem_raise l i e : getitem l i = Raise e -> benign e.
Proof.
  unfold getitem. destruct (_ && _); [destruct (l !! _)|];
    intros [= <-]; left; reflexivity.
Qed.

Lemma setitem_raise l i v e : setitem l i v = Raise e -> benign e.
Proof.
  unfold setitem. destruct (_ && _); [destruct (is_byteb v)|]; intros [= <-];
    [right | left]; reflexivity.
Qed.

Lemma fread1_raise f p e : fread1 f p = Raise e -> benign e.
Proof. unfold fread1. destruct (f !! p); intros [= <-]. left. reflexivity. Qed.

Lemma copy_back_raise idx : forall dst shift (acc : result (list Z)) e,
  foldl (copy_at dst shift) acc idx = Raise e -> acc = Raise e \/ benign e.
Proof.
  induction idx as [|i idx IH]; intros dst shift acc e Hf; [left; exact Hf|].
  cbn [foldl] in Hf. apply IH in Hf as [Hf | Hf]; [|right; exact Hf].
  unfold copy_at in Hf. destruct acc as [o|e']; [|left; exact Hf].
  right. cbn [mbind result_bind] in Hf.
  destruct (getitem o (dst - shift + i)) as [v|e'] eqn:Hg.
  - cbn [mbind result_bind] in Hf. eapply setitem_raise; eauto.
  - injection Hf as <-. eapply getitem_raise; eauto.
Qed.

Lemma delta_decode_raise idx : forall depth (acc : result (list Z)) e,
  foldl (delta_decode_at depth) acc idx = Raise e -> acc = Raise e \/ benign e.
Proof.
  induction idx as [|i idx IH]; intros depth acc e Hf; [left; exact Hf|].
  cbn [foldl] in Hf. apply IH in Hf as [Hf | Hf]; [|right; exact Hf].
  unfold delta_decode_at in Hf. destruct acc as [o|e']; [|left; exact Hf].
  right. cbn [mbind result_bind] in Hf.
  destruct (getitem o i) as [a|e'] eqn:Ha;
    [|injection Hf as <-; eapply getitem_raise; eauto].
  cbn [mbind result_bind] in Hf.
  destruct (getitem o (i - depth)) as [b|e'] eqn:Hb;
    [|injection Hf as <-; eapply getitem_raise; eauto].
  cbn [mbind result_bind] in Hf. eapply setitem_raise; eauto.
Qed.

Lemma all_equal_at_raise o alpha idx e :
  all_equal_at o alpha idx = Raise e -> benign e.
Proof.
  induction idx as [|i idx IH]; [discriminate|].
  cbn [all_equal_at]. destruct (getitem o i) as [v|e'] eqn:Hg.
  - cbn [mbind result_bind]. destruct (negb _); [discriminate | exact IH].
  - intros [= <-]. eapply getitem_raise; eauto.
Qed.

Lemma is_dummy_alpha_channel_raise o e :
  is_dummy_alpha_channel o = Raise e -> benign e.
Proof.
  unfold is_dummy_alpha_channel. destruct (getitem o 3) as [v|e'] eqn:Hg.
  - cbn [mbind result_bind]. destruct (v =? 255); [discriminate|].
    apply all_equal_at_raise.
  - intros [= <-]. eapply getitem_raise; eauto.
Qed.

Lemma read_token_raise f st e : read_token f st = ReadError e -> benign e.
Proof.
  unfold read_token.
  repeat match goal with
         | |- context [fread1 ?f ?p] =>
             let H := fresh "Hr" in destruct (fread1 f p) eqn:H
         | |- context [getitem ?l ?i] =>
             let H := fresh "Hg" in destruct (getitem l i) eqn:H
         | |- context [if ?b then _ else _] => destruct b
         end;
    intros [= <-] || discriminate;
    eauto using fread1_raise, getitem_raise.
Qed.

(** An iteration raises the invalid-offset error exactly when it decodes a
    back-reference that starts before the buffer. *)
Lemma unpack_step_invalid f st :
  unpack_step f st = Throw InvalidOffset <-> bad_backref f st.
Proof.
  unfold unpack_step, bad_backref. split.
  - destruct (next_bit f st) as [st1|e] eqn:Hn.
    2:{ intros [= ->]. unfold next_bit in Hn.
        destruct (_ =? 0); [|discriminate].
        destruct (fread1 f (pos st)) eqn:Hr; [discriminate|].
        injection Hn as ->. apply fread1_raise, benign_not_invalid in Hr.
        contradiction. }
    destruct (Z.leb_spec (remaining st1) 0); [discriminate|].
    destruct (read_token f st1) as [t p r| |e] eqn:Ht; [|discriminate|].
    2:{ intros [= ->]. apply read_token_raise, benign_not_invalid in Ht.
        contradiction. }
    destruct t as [v|n data|shift length]; cbn [apply_token].
    + destruct (setitem _ _ _) eqn:Hs; cbn [mbind result_bind]; [discriminate|].
      intros [= ->]. apply setitem_raise, benign_not_invalid in Hs. contradiction.
    + discriminate.
    + destruct (Z.ltb_spec (dst st1) (shift + 1)).
      * intros _. exists st1, shift, length, p, r. auto.
      * destruct (copy_back _ _ _ _) eqn:Hc; cbn [mbind result_bind]; [discriminate|].
        intros [= ->]. unfold copy_back in Hc.
        apply copy_back_raise in Hc as [Hc|Hc]; [discriminate|].
        apply benign_not_invalid in Hc. contradiction.
  - intros (st1 & shift & length & p & r & -> & Hrem & -> & Hd).
    destruct (Z.leb_spec (remaining st1) 0); [lia|].
    cbn [apply_token]. destruct (Z.ltb_spec (dst st1) (shift + 1)); [reflexivity|lia].
Qed.

(** Every iteration that continues consumes at least one payload byte. *)
Lemma read_token_remaining f st t p r :
  read_token f st = Token t p r -> r <= remaining st - 1.
Proof.
  unfold read_token.
  repeat match goal with
         | |- context [fread1 ?f ?p] => destruct (fread1 f p)
         | |- context [getitem ?l ?i] => destruct (getitem l i)
         | |- context [if ?b then _ else _] => destruct b
         end;
    intros [= <- <- <-] || discriminate;
    try match goal with
        | |- context [len ?x] => pose proof (len_nonneg x)
        end;
    lia.
Qed.

Lemma next_bit_remaining f st st1 :
  next_bit f st = Ok st1 -> remaining st1 <= remaining st.
Proof.
  unfold next_bit. destruct (_ =? 0).
  - destruct (fread1 f (pos st)); intros [= <-]. simpl. lia.
  - intros [= <-]. simpl. lia.
Qed.

Lemma unpack_step_remaining f st st' :
  unpack_step f st = Continue st' -> remaining st' <= remaining st - 1.
Proof.
  unfold unpack_step. destruct (next_bit f st) as [st1|] eqn:Hn; [|discriminate].
  apply next_bit_remaining in Hn.
  destruct (_ <=? 0); [discriminate|].
  destruct (read_token f st1) as [t p r| |] eqn:Ht; try discriminate.
  apply read_token_remaining in Ht.
  destruct (apply_token _ _ _) as [[o d]|]; [|discriminate].
  intros [= <-]. simpl. lia.
Qed.

(** The fuel given to the loop is never used up. *)
Lemma unpack_loop_terminates f fuel : forall st,
  remaining st <= Z.of_nat fuel -> unpack_loop fuel f st <> Raise OutOfFuel.
Proof.
  induction fuel as [|fuel IH]; intros st Hrem; cbn [unpack_loop].
  - unfold loop_cond. destruct (Z.ltb_spec 0 (remaining st)); [lia|].
    simpl. discriminate.
  - destruct (loop_cond st); [|discriminate].
    destruct (unpack_step f st) as [st'|st'|e] eqn:Hs; [|discriminate|].
    + apply IH. apply unpack_step_remaining in Hs. lia.
    + intros [= ->]. revert Hs. unfold unpack_step.
      destruct (next_bit f st) as [st1|e] eqn:Hn.
      * destruct (_ <=? 0); [discriminate|].
        destruct (read_token f st1) as [t p r| |e] eqn:Ht; [|discriminate|].
        -- destruct (apply_token t _ _) as [[o d]|e] eqn:Ha; [discriminate|].
           intros [= ->]. destruct t as [v|n data|shift length]; cbn [apply_token] in Ha.
           ++ destruct (setitem _ _ _) eqn:Hsi; [discriminate|].
              injection Ha as ->. apply setitem_raise in Hsi as [|]; discriminate.
           ++ discriminate.
           ++ destruct (_ <? _); [discriminate|].
              destruct (copy_back _ _ _ _) eqn:Hc; [discriminate|].
              injection Ha as ->. unfold copy_back in Hc.
              apply copy_back_raise in Hc as [|[|]]; discriminate.
        -- intros [= ->]. apply read_token_raise in Ht as [|]; discriminate.
      * intros [= ->]. unfold next_bit in Hn. destruct (_ =? 0); [|discriminate].
        destruct (fread1 f (pos st)) eqn:Hr; [discriminate|].
        injection Hn as ->. apply fread1_raise in Hr as [|]; discriminate.
Qed.

Lemma unpack_loop_invalid_reaches f fuel : forall st,
  unpack_loop fuel f st = Raise InvalidOffset ->
  exists st', reaches f st st' /\ loop_cond st' = true /\ bad_backref f st'.
Proof.
  induction fuel as [|fuel IH]; intros st; cbn [unpack_loop].
  - destruct (loop_cond st); discriminate.
  - destruct (loop_cond st) eqn:Hc; [|discriminate].
    destruct (unpack_step f st) as [st1|st1|e] eqn:Hs; [|discriminate|].
    + intros Hl. destruct (IH _ Hl) as (st' & Hr & Hc' & Hb).
      exists st'. split; [|auto]. eapply reaches_step; eauto.
    + intros [= ->]. exists st. split; [constructor|]. split; [exact Hc|].
      apply unpack_step_invalid. exact Hs.
Qed.

Lemma reaches_invalid_unpack_loop f st st' :
  reaches f st st' -> loop_cond st' = true -> bad_backref f st' ->
  forall fuel, remaining st <= Z.of_nat fuel ->
               unpack_loop fuel f st = Raise InvalidOffset.
Proof.
  induction 1 as [st|st st1 st2 Hc Hs Hr IH]; intros Hc' Hb fuel Hfuel.
  - destruct fuel as [|fuel].
    + unfold loop_cond in Hc'. apply andb_true_iff in Hc' as [Hc' _].
      apply Z.ltb_lt in Hc'. lia.
    + cbn [unpack_loop]. rewrite Hc'.
      apply unpack_step_invalid in Hb. rewrite Hb. reflexivity.
  - destruct fuel as [|fuel].
    + unfold loop_cond in Hc. apply andb_true_iff in Hc as [Hc _].
      apply Z.ltb_lt in Hc. lia.
    + cbn [unpack_loop]. rewrite Hc, Hs. apply IH; auto.
      apply unpack_step_remaining in Hs. lia.
Qed.

End InvalidOffsetError.

(** ** The decode loop completes on a payload that is present *)

Section Completes.
Import PRS.

Lemma fread1_ok (f : list Z) p :
  wf_bytes f -> Z.of_nat p < len f -> exists v, fread1 f p = Ok v /\ is_byte v.
Proof.
  intros Hwf Hp. unfold fread1.
  destruct (lookup_lt_is_Some_2 f p ltac:(unfold len in Hp; lia)) as [v Hv].
  rewrite Hv. exists v. split; [reflexivity|]. eapply wf_bytes_lookup; eauto.
Qed.

Lemma fread_wf (f : list Z) p n : wf_bytes f -> wf_bytes (fread f p n).
Proof. intros Hwf. unfold fread. apply Forall_take, Forall_drop, Hwf. Qed.

Lemma length_table_nonneg offset v :
  getitem length_table offset = Ok v -> 0 <= v.
Proof.
  assert (Hall : Forall (fun x => 0 <= x) length_table).
  { apply Forall_forall. intros x Hx. apply list_elem_of_In in Hx.
    assert (Hb : forallb (Z.leb 0) length_table = true) by (vm_compute; reflexivity).
    rewrite forallb_forall in Hb. apply Z.leb_le, Hb, Hx. }
  unfold getitem. destruct (_ && _); [|discriminate].
  destruct (length_table !! _) as [x|] eqn:Hl; [|discriminate].
  intros [= <-]. eapply Forall_lookup_1 in Hall; eauto.
Qed.

Lemma length_table_total offset :
  is_byte offset -> exists v, getitem length_table offset = Ok v.
Proof.
  intros Ho. replace offset with (Z.of_nat (Z.to_nat offset)) by (unfold is_byte in Ho; lia).
  destruct (lookup_lt_is_Some_2 length_table (Z.to_nat offset)) as [v Hv].
  { change (length length_table) with 256%nat. unfold is_byte in Ho. lia. }
  exists v. apply getitem_nat, Hv.
Qed.

Lemma shiftr_nonneg_byte b n : is_byte b -> 0 <= Z.shiftr b n.
Proof. intros Hb. apply Z.shiftr_nonneg. unfold is_byte in Hb. lia. Qed.

Lemma land_nonneg_byte b m : is_byte b -> 0 <= Z.land b m.
Proof. intros Hb. apply Z.land_nonneg. left. unfold is_byte in Hb. lia. Qed.

Lemma read_token_ok f st :
  wf_bytes f -> Z.of_nat (pos st) + remaining st <= len f -> 0 < remaining st ->
  match read_token f st with
  | Token t p r => Z.of_nat p + r <= len f /\ token_wf t
  | Truncated => True
  | ReadError _ => False
  end.
Proof.
  intros Hwf Hpos Hrem. unfold read_token.
  destruct (fread1_ok f (pos st) Hwf ltac:(lia)) as (b & -> & Hb).
  destruct (_ =? 0); [split; [lia | exact Hb]|].
  destruct (negb (Z.land b 128 =? 0)).
  - destruct (Z.leb_spec (remaining st - 1) 0); [exact I|].
    destruct (fread1_ok f (S (pos st)) Hwf ltac:(lia)) as (s & -> & Hs).
    assert (Hsh : 0 <= Z.lor s (Z.shiftl (Z.land b 63) 8)).
    { apply Z.lor_nonneg. split; [unfold is_byte in Hs; lia|].
      apply Z.shiftl_nonneg, land_nonneg_byte, Hb. }
    destruct (negb (Z.land b 64 =? 0)).
    + destruct (Z.leb_spec (remaining st - 1 - 1) 0); [exact I|].
      destruct (fread1_ok f (S (S (pos st))) Hwf ltac:(lia)) as (o & -> & Ho).
      destruct (length_table_total o Ho) as [v Hv]. rewrite Hv.
      apply length_table_nonneg in Hv.
      split; [lia|]. split; [exact Hsh | exact Hv].
    + split; [lia|]. split.
      * apply Z.shiftr_nonneg, Hsh.
      * pose proof (Z.land_nonneg (Z.lor s (Z.shiftl (Z.land b 63) 8)) 15). lia.
  - destruct (Z.land b 3 =? 3).
    + split; [|apply fread_wf, Hwf].
      assert (Hlen : Z.of_nat (S (pos st)) + len (fread f (S (pos st)) (Z.shiftr b 2 + 9))
                     <= len f).
      { unfold fread, len. rewrite length_take, length_drop. unfold len in Hpos. lia. }
      unfold len in *. lia.
    + split; [lia|]. split; [apply shiftr_nonneg_byte, Hb|].
      pose proof (land_nonneg_byte b 3 Hb). lia.
Qed.

Lemma copy_back_ok m : forall (a : nat) (o : list Z) dst sh,
  wf_bytes o -> 1 <= sh <= dst -> dst + Z.of_nat a + Z.of_nat m <= len o ->
  exists o',
    foldl (copy_at dst sh) (Ok o) (map (fun k => 0 + Z.of_nat k) (seq a m)) = Ok o'
    /\ wf_bytes o' /\ length o' = length o.
Proof.
  induction m as [|m IH]; intros a o dst sh Hwf Hsh Hlen.
  - exists o. auto.
  - cbn [seq map foldl]. unfold copy_at at 2. cbn [mbind result_bind].
    rewrite Z.add_0_l.
    destruct (lookup_lt_is_Some_2 o (Z.to_nat (dst - sh + Z.of_nat a))
                ltac:(unfold len in Hlen; lia)) as [v Hv].
    pose proof (wf_bytes_lookup _ _ _ Hwf Hv) as Hbv.
    apply getitem_nat in Hv. rewrite Z2Nat.id in Hv by lia. rewrite Hv.
    cbn [mbind result_bind].
    rewrite setitem_ok by (auto; lia).
    destruct (IH (S a) (<[Z.to_nat (dst + Z.of_nat a) := v]> o) dst sh)
      as (o' & Hf & Hwf' & Hlen').
    + apply Forall_insert; assumption.
    + exact Hsh.
    + unfold len in *. rewrite length_insert. lia.
    + exists o'. split; [exact Hf|]. split; [exact Hwf'|].
      rewrite Hlen', length_insert. reflexivity.
Qed.

Lemma apply_token_ok t (o : list Z) d :
  token_wf t -> wf_bytes o -> 0 <= d < len o ->
  (forall shift length, t = BackRef shift length -> shift + 1 <= d) ->
  exists o' d', apply_token t o d = Ok (o', d') /\ wf_bytes o' /\ 0 <= d'.
Proof.
  intros Ht Hwf Hd Hback. destruct t as [v|n data|shift length]; cbn [apply_token].
  - rewrite setitem_ok by auto. cbn [mbind result_bind].
    eexists _, _. split; [reflexivity|]. split; [|lia].
    apply Forall_insert; assumption.
  - eexists _, _. split; [reflexivity|]. split.
    + unfold setslice. apply Forall_app. split; [apply Forall_take, Hwf|].
      apply Forall_app. split; [exact Ht | apply Forall_drop, Hwf].
    + pose proof (len_nonneg data). lia.
  - specialize (Hback _ _ eq_refl). destruct Ht as [Hs Hl].
    destruct (Z.ltb_spec d (shift + 1)); [lia|].
    unfold copy_back, range. rewrite Z.sub_0_r.
    destruct (copy_back_ok (Z.to_nat (Z.min length (len o - d))) 0 o d (shift + 1))
      as (o' & -> & Hwf' & _); [exact Hwf | lia | lia |].
    cbn [mbind result_bind]. eexists _, _. split; [reflexivity|].
    split; [exact Hwf' | lia].
Qed.

(** One iteration from a good state either continues in a good state or
    leaves the loop, unless it meets a back-reference before the buffer. *)
Lemma unpack_step_ok f st :
  wf_bytes f -> decoding f st -> loop_cond st = true -> ~ bad_backref f st ->
  (exists st', unpack_step f st = Continue st' /\ decoding f st')
  \/ (exists st', unpack_step f st = Break st').
Proof.
  intros Hwf (Hpos & Hdst & Hout) Hc Hnb.
  unfold loop_cond in Hc. apply andb_true_iff in Hc as [Hrem Hlt].
  apply Z.ltb_lt in Hrem. apply Z.ltb_lt in Hlt.
  assert (Hn : exists st1, next_bit f st = Ok st1
             /\ Z.of_nat (pos st1) + remaining st1 <= len f
             /\ dst st1 = dst st /\ output st1 = output st).
  { unfold next_bit. destruct (_ =? 0).
    - destruct (fread1_ok f (pos st) Hwf ltac:(lia)) as (c & -> & _).
      eexists. split; [reflexivity|]. cbn. repeat split; lia.
    - eexists. split; [reflexivity|]. cbn. repeat split; lia. }
  destruct Hn as (st1 & Hn & Hpos1 & Hd1 & Ho1).
  unfold unpack_step. rewrite Hn.
  destruct (Z.leb_spec (remaining st1) 0); [right; eauto|].
  pose proof (read_token_ok f st1 Hwf Hpos1 ltac:(lia)) as Hrt.
  destruct (read_token f st1) as [t p r| |e] eqn:Ht; [|right; eauto|contradiction].
  destruct Hrt as [Hpr Htwf].
  destruct (apply_token_ok t (output st1) (dst st1)) as (o' & d' & -> & Hwf' & Hd');
    [exact Htwf | rewrite Ho1; exact Hout | rewrite Hd1, Ho1; lia | |].
  - intros shift length ->.
    destruct (Z.le_gt_cases (shift + 1) (dst st1)) as [|Hbad]; [assumption|].
    exfalso. apply Hnb. exists st1, shift, length, p, r. repeat split; auto; lia.
  - left. eexists. split; [reflexivity|]. repeat split; cbn; auto.
Qed.

Lemma unpack_loop_completes f fuel : forall st,
  wf_bytes f -> decoding f st -> remaining st <= Z.of_nat fuel ->
  (forall st', reaches f st st' -> loop_cond st' = true -> ~ bad_backref f st') ->
  exists st', unpack_loop fuel f st = Ok st'.
Proof.
  induction fuel as [|fuel IH]; intros st Hwf Hinv Hfuel Hgood; cbn [unpack_loop].
  - unfold loop_cond. destruct (Z.ltb_spec 0 (remaining st)); [lia|]. simpl. eauto.
  - destruct (loop_cond st) eqn:Hc; [|eauto].
    destruct (unpack_step_ok f st Hwf Hinv Hc) as [(st1 & Hs & Hinv1) | (st1 & Hs)].
    + apply Hgood; [constructor | exact Hc].
    + rewrite Hs. apply IH; auto.
      * apply unpack_step_remaining in Hs. lia.
      * intros st' Hr. apply Hgood. eapply reaches_step; eauto.
    + rewrite Hs. eauto.
Qed.

End Completes.

(** C6. [unpack] raises "Invalid offset value" exactly when the decode loop
    reaches an iteration whose token is a back-reference with back-distance
    [D = shift + 1] greater than the output cursor [dst]. When every
    back-reference met by the loop has [D <= dst], the loop terminates
    without this error, and it runs to completion when the file holds the
    [packed_size] payload bytes announced by the header. *)
Theorem invalid_offset_iff (f : list Z) (r : PRS.PrsReader) :
  (PRS.unpack f r = Raise InvalidOffset
   <-> exists st, reaches f (unpack_start r) st
                  /\ PRS.loop_cond st = true /\ bad_backref f st)
  /\ ((forall st, reaches f (unpack_start r) st ->
                  PRS.loop_cond st = true -> ~ bad_backref f st) ->
      PRS.unpack_loop (Z.to_nat (PRS.r_packed_size r)) f (unpack_start r)
        <> Raise InvalidOffset
      /\ PRS.unpack_loop (Z.to_nat (PRS.r_packed_size r)) f (unpack_start r)
        <> Raise OutOfFuel
      /\ (wf_bytes f -> wf_bytes (PRS.r_output r) ->
          16 + PRS.r_packed_size r <= len f ->
          exists st', PRS.unpack_loop (Z.to_nat (PRS.r_packed_size r)) f
                        (unpack_start r) = Ok st')).
Proof.
  assert (Hfuel : PRS.remaining (unpack_start r)
                  <= Z.of_nat (Z.to_nat (PRS.r_packed_size r))) by (simpl; lia).
  assert (Hloop : PRS.unpack_loop (Z.to_nat (PRS.r_packed_size r)) f (unpack_start r)
                  = Raise InvalidOffset
                  <-> exists st, reaches f (unpack_start r) st
                                 /\ PRS.loop_cond st = true /\ bad_backref f st).
  { split.
    - apply unpack_loop_invalid_reaches.
    - intros (st & Hr & Hc & Hb). eapply reaches_invalid_unpack_loop; eauto. }
  split; [|intros Hgood; split; [|split]].
  - rewrite <- Hloop. unfold PRS.unpack. fold (unpack_start r).
    destruct (PRS.unpack_loop _ f (unpack_start r)) as [st|e];
      cbn [mbind result_bind]; [|split; intros [= ->]; reflexivity].
    split; [|discriminate]. intros Hu. exfalso.
    destruct (negb (Z.land (PRS.r_flag r) 128 =? 0)).
    + destruct (PRS.delta_decode _ _) as [o|e] eqn:Hd; cbn [mbind result_bind] in Hu.
      * destruct (PRS.r_depth r =? 4); [|discriminate].
        destruct (PRS.is_dummy_alpha_channel o) eqn:Ha; [discriminate|].
        injection Hu as ->. apply is_dummy_alpha_channel_raise in Ha as [|]; discriminate.
      * injection Hu as ->. unfold PRS.delta_decode in Hd.
        apply delta_decode_raise in Hd as [|[|]]; discriminate.
    + cbn [mbind result_bind] in Hu.
      destruct (PRS.r_depth r =? 4); [|discriminate].
      destruct (PRS.is_dummy_alpha_channel _) eqn:Ha; [discriminate|].
      injection Hu as ->. apply is_dummy_alpha_channel_raise in Ha as [|]; discriminate.
  - intros Hl. apply Hloop in Hl as (st & Hr & Hc & Hb). exact (Hgood st Hr Hc Hb).
  - apply unpack_loop_terminates. exact Hfuel.
  - intros Hwf Hout Hlen. apply unpack_loop_completes; auto.
    repeat split; cbn; auto; lia.
Qed.

Lemma invalid_offset_iff_witness :
  exists st,
    reaches ([0x59; 0x42; 0; 3; 3; 0; 0; 0; 0; 0; 0; 0; 1; 0; 1; 0] ++ [0x80; 0x00; 0x00])
            (unpack_start (PRS.PrsReader_init (PRS.mkMeta 1 1 24 0 3))) st
    /\ PRS.loop_cond st = true
    /\ bad_backref ([0x59; 0x42; 0; 3; 3; 0; 0; 0; 0; 0; 0; 0; 1; 0; 1; 0]
                    ++ [0x80; 0x00; 0x00]) st.
Proof.
  apply (proj1 (proj1 (invalid_offset_iff
    ([0x59; 0x42; 0; 3; 3; 0; 0; 0; 0; 0; 0; 0; 1; 0; 1; 0] ++ [0x80; 0x00; 0x00])
    (PRS.PrsReader_init (PRS.mkMeta 1 1 24 0 3))))).
  vm_compute. reflexivity.
Defined.


(** ** Fuel *)

Section Fuel.
Import PRS.

(** The inner loop of the match finder stops within [max_length] rounds. *)
Lemma common_prefix_terminates inp input_index offset max_length (fuel : nat) :
  forall length,
    max_length - length <= Z.of_nat fuel ->
    common_prefix fuel inp input_index offset max_length length <> Raise OutOfFuel.
Proof.
  induction fuel as [|fuel IH]; intros length Hfuel; cbn [common_prefix].
  - destruct (Z.ltb_spec length max_length); [lia | discriminate].
  - destruct (Z.ltb_spec length max_length); [|discriminate].
    destruct (getitem inp (input_index + length)) as [a|e] eqn:Ha.
    + cbn [mbind result_bind].
      destruct (getitem inp (offset + length)) as [b|e] eqn:Hb.
      * cbn [mbind result_bind]. destruct (a =? b); [|discriminate].
        apply IH. lia.
      * intros [= ->]. apply getitem_raise in Hb as [|]; discriminate.
    + intros [= ->]. apply getitem_raise in Ha as [|]; discriminate.
Qed.

(** [pack] never runs out of fuel: its loop takes one round per input byte. *)
Lemma pack_terminates (wr : PrsWriter) :
  wf_bytes (input wr) -> pack wr <> Raise OutOfFuel.
Proof.
  intros Hwf. unfold pack.
  destruct (pack_header (metadata wr)) as [hdr|e] eqn:Hh.
  - cbn [mbind result_bind].
    destruct (pack_loop_literals (input wr) [] [] hdr 0%nat (length (input wr)))
      as (st' & j' & Hrun & Hj' & Hmask & Hctl & Hcb & Hout);
      [exact Hwf | reflexivity | lia | lia |].
    change (pack_loop (length (input wr)) (input wr) (mkPack 0 0 1 [] hdr ∅) = Ok st')
      in Hrun.
    rewrite Hrun. cbn [mbind result_bind].
    unfold final_flush, bytes1, append. rewrite Hctl. cbn [is_byteb Z.leb Z.ltb Z.compare andb].
    destruct (_ || _); cbn [mbind result_bind];
      (destruct (pack_u32 _) eqn:Hp; cbn [mbind result_bind]; [discriminate|];
       unfold pack_u32 in Hp; destruct (_ && _); [discriminate|];
       injection Hp as <-; discriminate).
  - intros [= ->]. revert Hh. unfold pack_header, bytes1, append, pack_u16.
    repeat match goal with
           | |- context [if ?b then _ else _] => destruct b; cbn [mbind result_bind]
           end; discriminate.
Qed.

End Fuel.

(** ** Length of the output buffer *)

Section OutputLength.
Import PRS.

Lemma setitem_length l i v l' : setitem l i v = Ok l' -> length l' = length l.
Proof.
  unfold setitem. destruct (_ && _); [|discriminate].
  destruct (is_byteb v); [|discriminate]. intros [= <-]. apply length_insert.
Qed.

Lemma copy_back_length idx : forall dst shift (acc : result (list Z)) o o',
  acc = Ok o -> foldl (copy_at dst shift) acc idx = Ok o' -> length o' = length o.
Proof.
  induction idx as [|i idx IH]; intros dst shift acc o o' -> Hf.
  - injection Hf as <-. reflexivity.
  - cbn [foldl] in Hf.
    destruct (copy_at dst shift (Ok o) i) as [o1|e] eqn:Hc.
    + rewrite (IH _ _ _ o1 o' eq_refl Hf).
      unfold copy_at in Hc. cbn [mbind result_bind] in Hc.
      destruct (getitem o (dst - shift + i)); [|discriminate].
      cbn [mbind result_bind] in Hc. eapply setitem_length; eauto.
    + apply (f_equal (fun r => match r with Ok _ => true | Raise _ => false end)) in Hf.
      assert (Hraise : forall l, foldl (copy_at dst shift) (Raise e) l = Raise e).
      { induction l as [|x l IHl]; [reflexivity|]. cbn [foldl]. exact IHl. }
      rewrite Hraise in Hf. discriminate.
Qed.

(** Literals and back-references leave the length of the buffer alone; a raw
    run replaces the slice [dst .. dst + length], clipped to the buffer, by
    the bytes it read, whatever their number. *)
Lemma apply_token_length t o d o' d' :
  apply_token t o d = Ok (o', d') ->
  match t with
  | RawRun n data => o' = take (Z.to_nat d) o ++ data ++ drop (Z.to_nat (d + n)) o
  | _ => length o' = length o
  end.
Proof.
  destruct t as [v|n data|shift len]; cbn [apply_token].
  - destruct (setitem o d v) as [o1|] eqn:Hs; [|discriminate].
    cbn [mbind result_bind]. intros [= <- _]. eapply setitem_length; eauto.
  - intros [= <- _]. reflexivity.
  - destruct (_ <? _); [discriminate|].
    destruct (copy_back _ _ _ _) as [o1|] eqn:Hc; [|discriminate].
    cbn [mbind result_bind]. intros [= <- _].
    unfold copy_back in Hc. eapply copy_back_length; eauto.
Qed.

End OutputLength.
(** ** Order of the control bits *)

Section BitOrder.
Import PRS.

Lemma next_bit_spec f st st1 :
  next_bit f st = Ok st1 ->
  (Z.shiftr (bit st) 1 = 0 /\ bit st1 = 0x80 /\ f !! pos st = Some (ctl st1))
  \/ (Z.shiftr (bit st) 1 <> 0 /\ bit st1 = Z.shiftr (bit st) 1 /\ ctl st1 = ctl st).
Proof.
  unfold next_bit. destruct (Z.eqb_spec (Z.shiftr (bit st) 1) 0) as [E|E].
  - unfold fread1. destruct (f !! pos st) as [c|]; [|discriminate].
    intros [= <-]. left. auto.
  - intros [= <-]. right. auto.
Qed.

Lemma unpack_step_bit f st st' :
  unpack_step f st = Continue st' ->
  exists st1, next_bit f st = Ok st1 /\ bit st' = bit st1 /\ ctl st' = ctl st1.
Proof.
  unfold unpack_step. destruct (next_bit f st) as [st1|]; [|discriminate].
  destruct (_ <=? 0); [discriminate|].
  destruct (read_token f st1); try discriminate.
  destruct (apply_token _ _ _) as [[o d]|]; [|discriminate].
  intros [= <-]. eauto.
Qed.

(** Inside a group the decoder walks the control byte from bit 7 down. *)
Lemma dec_group_bit f st0 C (j : nat) st :
  Z.shiftr (bit st0) 1 = 0 -> f !! pos st0 = Some C ->
  nsteps (dec_step f) (S j) st0 st -> (j < 8)%nat ->
  bit st = Z.shiftr 0x80 (Z.of_nat j) /\ ctl st = C.
Proof.
  intros Hb0 HC. revert st. induction j as [|j IH]; intros st Hn Hj.
  - apply nsteps_once_inv in Hn as [_ Hs].
    apply unpack_step_bit in Hs as (st1 & Hnb & -> & ->).
    apply next_bit_spec in Hnb as [(_ & -> & Hc) | (Hne & _)]; [|contradiction].
    split; [reflexivity | congruence].
  - apply nsteps_inv_r in Hn as (stm & Hn & _ & Hs).
    destruct (IH stm Hn ltac:(lia)) as [Hbm Hcm].
    apply unpack_step_bit in Hs as (st1 & Hnb & -> & ->).
    assert (Hsh : Z.shiftr (bit stm) 1 = Z.shiftr 0x80 (Z.of_nat (S j))).
    { rewrite Hbm, Z.shiftr_shiftr by lia. f_equal. lia. }
    assert (Hnz : Z.shiftr 0x80 (Z.of_nat (S j)) <> 0).
    { do 7 (destruct j as [|j]; [discriminate|]). lia. }
    apply next_bit_spec in Hnb as [(Hz & _) | (_ & -> & ->)]; [congruence|].
    split; [exact Hsh | exact Hcm].
Qed.

Lemma read_token_literal_iff f st t p r :
  read_token f st = Token t p r ->
  (exists v, t = Literal v) <-> Z.land (ctl st) (bit st) = 0.
Proof.
  unfold read_token. destruct (Z.eqb_spec (Z.land (ctl st) (bit st)) 0) as [E|E].
  - destruct (fread1 f (pos st)); [|discriminate]. intros [= <- _ _]. split; eauto.
  - intros Ht. split; [|contradiction]. intros [v ->]. revert Ht.
    repeat match goal with
           | |- context [fread1 ?f ?p] => destruct (fread1 f p)
           | |- context [getitem ?l ?i] => destruct (getitem l i)
           | |- context [if ?b then _ else _] => destruct b
           end; discriminate.
Qed.

Lemma flush_group_spec c m cb o c' m' cb' o' :
  flush_group c m cb o = Ok (c', m', cb', o') ->
  if Z.shiftl m 1 =? 0x100 then c' = 0 /\ m' = 1
  else c' = c /\ m' = Z.shiftl m 1.
Proof.
  unfold flush_group. destruct (Z.shiftl m 1 =? 256).
  - destruct (bytes1 c); [|discriminate]. intros [= <- <- _ _]. auto.
  - intros [= <- <- _ _]. auto.
Qed.

Lemma encode_token_control inp st ml mo c cb i :
  encode_token inp st ml mo = Ok (c, cb, i) ->
  c = if ml <? 3 then control st else Z.lor (control st) (mask st).
Proof.
  unfold encode_token. destruct (ml <? 3).
  - destruct (getitem _ _); [|discriminate]. cbn [mbind result_bind].
    destruct (append _ _); [|discriminate]. intros [= <- _ _]. reflexivity.
  - match goal with |- (?m ≫= _) = _ -> _ => destruct m end; [|discriminate].
    intros [= <- _ _]. reflexivity.
Qed.

Lemma pack_step_mask inp st st' :
  pack_step inp st = Ok st' ->
  exists ml mo c cb i,
    encode_token inp st ml mo = Ok (c, cb, i)
    /\ if Z.shiftl (mask st) 1 =? 0x100 then control st' = 0 /\ mask st' = 1
       else control st' = c /\ mask st' = Z.shiftl (mask st) 1.
Proof.
  unfold pack_step.
  destruct (find_longest_match _ _ _) as [[ml mo]|]; [|discriminate].
  cbn [mbind result_bind].
  destruct (encode_token inp st ml mo) as [[[c cb] i]|] eqn:He; [|discriminate].
  cbn [mbind result_bind].
  destruct (flush_group c (mask st) cb (out st)) as [[[[c' m'] cb'] o']|] eqn:Hf;
    [|discriminate].
  cbn [mbind result_bind].
  destruct (update_hash_table _ _ _ _); [|discriminate].
  intros [= <-]. exists ml, mo, c, cb, i. split; [exact He|].
  apply flush_group_spec in Hf. exact Hf.
Qed.

Lemma lor_pow2_bound a (j : nat) :
  0 <= a < 2 ^ Z.of_nat j -> 0 <= Z.lor a (2 ^ Z.of_nat j) < 2 ^ Z.of_nat (S j).
Proof.
  intros Ha.
  assert (Hp : 0 < 2 ^ Z.of_nat j) by (apply Z.pow_pos_nonneg; lia).
  assert (Hnn : 0 <= Z.lor a (2 ^ Z.of_nat j)) by (apply Z.lor_nonneg; lia).
  split; [exact Hnn|].
  destruct (Z.eq_dec (Z.lor a (2 ^ Z.of_nat j)) 0) as [E|E].
  - rewrite E. apply Z.pow_pos_nonneg; lia.
  - apply Z.log2_lt_pow2; [lia|].
    rewrite Z.log2_lor by lia. rewrite Z.log2_pow2 by lia.
    destruct (Z.eq_dec a 0) as [->|Hne]; [simpl; lia|].
    assert (Z.log2 a < Z.of_nat j) by (apply Z.log2_lt_pow2; lia). lia.
Qed.

Lemma testbit_below a (j : nat) :
  0 <= a < 2 ^ Z.of_nat j -> Z.testbit a (Z.of_nat j) = false.
Proof.
  intros Ha. destruct (Z.eq_dec a 0) as [->|Hne]; [apply Z.bits_0|].
  apply Z.bits_above_log2; [lia|]. apply Z.log2_lt_pow2; lia.
Qed.

(** Inside a group the encoder walks the control byte from bit 0 up, and the
    bits not yet assigned are clear. *)
Lemma enc_group_mask inp st0 (j : nat) st :
  mask st0 = 1 -> control st0 = 0 ->
  nsteps (enc_step inp) j st0 st -> (j < 8)%nat ->
  mask st = Z.shiftl 1 (Z.of_nat j) /\ 0 <= control st < 2 ^ Z.of_nat j.
Proof.
  intros Hm0 Hc0. revert st. induction j as [|j IH]; intros st Hn Hj.
  - inversion Hn; subst. rewrite Hm0, Hc0. split; [reflexivity | simpl; lia].
  - apply nsteps_inv_r in Hn as (stm & Hn & _ & Hs).
    destruct (IH stm Hn ltac:(lia)) as [Hmm Hcm].
    apply pack_step_mask in Hs as (ml & mo & c & cb & i & He & Hf).
    apply encode_token_control in He.
    assert (Hsh : Z.shiftl (mask stm) 1 = Z.shiftl 1 (Z.of_nat (S j))).
    { rewrite Hmm, Z.shiftl_shiftl by lia. f_equal. lia. }
    rewrite Hsh in Hf.
    assert (Hne : (Z.shiftl 1 (Z.of_nat (S j)) =? 256) = false).
    { apply Z.eqb_neq. do 7 (destruct j as [|j]; [discriminate|]). lia. }
    rewrite Hne in Hf. destruct Hf as [-> ->]. split; [reflexivity|].
    rewrite He, Hmm, Z.shiftl_1_l. destruct (ml <? 3).
    + rewrite Nat2Z.inj_succ, Z.pow_succ_r by lia. lia.
    + apply lor_pow2_bound. exact Hcm.
Qed.

End BitOrder.

(** C2, as the code has it. Decoder: token [j] (from 0) of the group that
    follows a control byte [C] consults bit [0x80 >> j] of [C], most
    significant bit first; the token is a single literal byte exactly when
    that bit is clear, and otherwise is read by the match branch (short
    back-reference, raw run, mid or long match). Encoder: token [j] of a
    group is given the mask [1 << j]; its bit in the control byte is still
    clear when the token is encoded, and the token sets it exactly when a
    match ([match_length >= 3]) is encoded. *)
Theorem control_bit_order :
  (forall (f : list Z) (st0 st st1 : PRS.UnpackState) (C : Z) (j : nat),
      (j < 8)%nat ->
      Z.shiftr (PRS.bit st0) 1 = 0 -> f !! PRS.pos st0 = Some C ->
      nsteps (dec_step f) j st0 st -> PRS.next_bit f st = Ok st1 ->
      PRS.bit st1 = Z.shiftr 0x80 (Z.of_nat j) /\ PRS.ctl st1 = C
      /\ forall t p r, PRS.read_token f st1 = PRS.Token t p r ->
           ((exists v, t = PRS.Literal v)
            <-> Z.land C (Z.shiftr 0x80 (Z.of_nat j)) = 0))
  /\ (forall (inp : list Z) (st0 st : PRS.PackState) (j : nat),
      (j < 8)%nat ->
      PRS.mask st0 = 1 -> PRS.control st0 = 0 ->
      nsteps (enc_step inp) j st0 st ->
      PRS.mask st = Z.shiftl 1 (Z.of_nat j)
      /\ Z.testbit (PRS.control st) (Z.of_nat j) = false
      /\ forall ml mo c cb i,
           PRS.encode_token inp st ml mo = Ok (c, cb, i) ->
           Z.testbit c (Z.of_nat j) = negb (ml <? 3)).
Proof.
  split.
  - intros f st0 st st1 C j Hj Hb0 HC Hn Hnb.
    assert (Hbc : PRS.bit st1 = Z.shiftr 0x80 (Z.of_nat j) /\ PRS.ctl st1 = C).
    { destruct j as [|j].
      - inversion Hn; subst.
        apply next_bit_spec in Hnb as [(_ & -> & Hc) | (Hne & _)]; [|contradiction].
        split; [reflexivity | congruence].
      - destruct (dec_group_bit f st0 C j st Hb0 HC Hn ltac:(lia)) as [Hb Hc].
        assert (Hsh : Z.shiftr (PRS.bit st) 1 = Z.shiftr 0x80 (Z.of_nat (S j))).
        { rewrite Hb, Z.shiftr_shiftr by lia. f_equal. lia. }
        assert (Hnz : Z.shiftr 0x80 (Z.of_nat (S j)) <> 0).
        { do 7 (destruct j as [|j]; [discriminate|]). lia. }
        apply next_bit_spec in Hnb as [(Hz & _) | (_ & -> & ->)]; [congruence|].
        split; [exact Hsh | exact Hc]. }
    destruct Hbc as [Hb Hc]. split; [exact Hb|]. split; [exact Hc|].
    intros t p r Ht. rewrite <- Hb, <- Hc.
    eapply read_token_literal_iff; eauto.
  - intros inp st0 st j Hj Hm0 Hc0 Hn.
    destruct (enc_group_mask inp st0 j st Hm0 Hc0 Hn Hj) as [Hm Hc].
    split; [exact Hm|]. split; [apply testbit_below, Hc|].
    intros ml mo c cb i He. apply encode_token_control in He. rewrite He.
    destruct (ml <? 3); cbn [negb]; [apply testbit_below, Hc|].
    rewrite Z.lor_spec, Hm, Z.shiftl_1_l, Z.pow2_bits_true by lia.
    apply orb_true_r.
Qed.

Lemma control_bit_order_witness :
  (PRS.bit (PRS.mkUnpack 18 1 1 0x40 0x40 [0x41; 0; 0]) = Z.shiftr 0x80 (Z.of_nat 1)
   /\ PRS.ctl (PRS.mkUnpack 18 1 1 0x40 0x40 [0x41; 0; 0]) = 0x40
   /\ forall t p r,
        PRS.read_token
          ([0x59; 0x42; 0; 3; 3; 0; 0; 0; 0; 0; 0; 0; 1; 0; 1; 0] ++ [0x40; 0x41; 0x00])
          (PRS.mkUnpack 18 1 1 0x40 0x40 [0x41; 0; 0]) = PRS.Token t p r ->
        ((exists v, t = PRS.Literal v) <-> Z.land 0x40 (Z.shiftr 0x80 (Z.of_nat 1)) = 0))
  /\ (PRS.mask (PRS.mkPack 1 0 2 [1] [] ∅) = Z.shiftl 1 (Z.of_nat 1)
      /\ Z.testbit (PRS.control (PRS.mkPack 1 0 2 [1] [] ∅)) (Z.of_nat 1) = false
      /\ forall ml mo c cb i,
           PRS.encode_token [1; 2; 3] (PRS.mkPack 1 0 2 [1] [] ∅) ml mo = Ok (c, cb, i) ->
           Z.testbit c (Z.of_nat 1) = negb (ml <? 3)).
Proof.
  split.
  - apply (proj1 control_bit_order
             ([0x59; 0x42; 0; 3; 3; 0; 0; 0; 0; 0; 0; 0; 1; 0; 1; 0] ++ [0x40; 0x41; 0x00])
             (PRS.mkUnpack 16 3 0 0 0 [0; 0; 0])
             (PRS.mkUnpack 18 1 1 0x80 0x40 [0x41; 0; 0])).
    + lia.
    + reflexivity.
    + reflexivity.
    + apply nsteps_once. split; vm_compute; reflexivity.
    + reflexivity.
  - apply (proj2 control_bit_order [1; 2; 3] (PRS.mkPack 0 0 1 [] [] ∅)).
    + lia.
    + reflexivity.
    + reflexivity.
    + apply nsteps_once. split; [vm_compute; reflexivity|]. vm_compute. reflexivity.
Defined.

(** C2 with the decoder read LSB-first fails already for the first token of a
    group: behind the control byte [0x01] bit [1 << 0] is set, which would
    send token 0 to the match branch, while the decoder, which looks at bit
    [0x80], stores a literal. *)
Lemma lsb_first_refuted :
  ~ (forall (f : list Z) (st0 st1 : PRS.UnpackState) (C : Z) t p r,
        Z.shiftr (PRS.bit st0) 1 = 0 -> f !! PRS.pos st0 = Some C ->
        PRS.next_bit f st0 = Ok st1 ->
        PRS.read_token f st1 = PRS.Token t p r ->
        ((exists v, t = PRS.Literal v) <-> Z.land C (Z.shiftl 1 0) = 0)).
Proof.
  intros Hspec.
  specialize (Hspec
    ([0x59; 0x42; 0; 3; 4; 0; 0; 0; 0; 0; 0; 0; 1; 0; 1; 0] ++ [0x01; 0x41; 0x42; 0x43])
    (PRS.mkUnpack 16 4 0 0 0 [0; 0; 0])
    (PRS.mkUnpack 17 3 0 0x80 0x01 [0; 0; 0])
    0x01 (PRS.Literal 0x41) 18%nat 2
    eq_refl eq_refl eq_refl eq_refl).
  destruct Hspec as [Hl _]. specialize (Hl (ex_intro _ 0x41 eq_refl)).
  discriminate Hl.
Qed.

(** ** Branches of the decoder and tokens of the encoder *)

(** C3 with the raw run placed in the bit-clear branch fails: with the
    control bit clear and [b1 = 0x03] (mode 3) that reading decodes a raw run
    of nine bytes, while the decoder stores the literal [0x03]. *)
Lemma clear_bit_raw_run_refuted :
  ~ (forall (f : list Z) (st : PRS.UnpackState) (b1 : Z),
        fread1 f (PRS.pos st) = Ok b1 ->
        Z.land (PRS.ctl st) (PRS.bit st) = 0 -> Z.land b1 3 = 3 ->
        exists data p r,
          PRS.read_token f st = PRS.Token (PRS.RawRun (Z.shiftr b1 2 + 9) data) p r).
Proof.
  intros Hspec.
  destruct (Hspec (sample_header 11 ++ [0x00; 0x03; 1; 2; 3; 4; 5; 6; 7; 8; 9])
                   (PRS.mkUnpack 17 10 0 0x80 0x00 [0; 0; 0]) 0x03
                   eq_refl eq_refl eq_refl) as (data & p & r & H).
  discriminate H.
Qed.

Section MidMatch.
Import PRS.

Lemma lor_is_byte a b : is_byte a -> is_byte b -> is_byte (Z.lor a b).
Proof.
  unfold is_byte. intros Ha Hb.
  assert (0 <= Z.lor a b) by (apply Z.lor_nonneg; lia).
  split; [assumption|].
  destruct (Z.eq_dec (Z.lor a b) 0) as [->|Hne]; [lia|].
  change 256 with (2 ^ 8). apply Z.log2_lt_pow2; [lia|].
  rewrite Z.log2_lor by lia.
  assert (Hla : Z.log2 a < 8).
  { destruct (Z.eq_dec a 0) as [->|]; [simpl; lia|]. apply Z.log2_lt_pow2; lia. }
  assert (Hlb : Z.log2 b < 8).
  { destruct (Z.eq_dec b 0) as [->|]; [simpl; lia|]. apply Z.log2_lt_pow2; lia. }
  lia.
Qed.

Lemma mid_match_bytes ml mo :
  3 <= ml <= 9 -> 1 <= mo <= 0x2000 ->
  is_byte (Z.lor 0x80 (Z.shiftr (mo - 1) 5))
  /\ is_byte (Z.lor (Z.land (mo - 1) 0x1F) (Z.shiftl (ml - 2) 5)).
Proof.
  intros Hml Hmo. split; apply lor_is_byte; unfold is_byte.
  - lia.
  - rewrite Z.shiftr_div_pow2 by lia. change (2 ^ 5) with 32.
    pose proof (Z.div_pos (mo - 1) 32). 
    assert ((mo - 1) / 32 < 256) by (apply Z.div_lt_upper_bound; lia). lia.
  - change 31 with (Z.ones 5). rewrite Z.land_ones by lia.
    pose proof (Z.mod_pos_bound (mo - 1) (2 ^ 5)). change (2 ^ 5) with 32 in *. lia.
  - rewrite Z.shiftl_mul_pow2 by lia. change (2 ^ 5) with 32. lia.
Qed.

End MidMatch.

(** X23. The mid form of the token encoder (lines 72-76), for any match
    handed to it: a match of length 3 to 9 that does not take the one-byte
    short form sets the control bit and appends exactly two bytes, with
    [eo = off - 1], [0x80 | (eo >> 5)] and [(eo & 0x1F) | ((len - 2) << 5)]. *)
Theorem mid_match_encoding (inp : list Z) (st : PRS.PackState) (ml mo : Z) :
  3 <= ml <= 9 -> ~ (ml <= 5 /\ mo <= 256) -> 1 <= mo <= 0x2000 ->
  PRS.encode_token inp st ml mo
  = Ok (Z.lor (PRS.control st) (PRS.mask st),
        PRS.control_buffer st
        ++ [Z.lor 0x80 (Z.shiftr (mo - 1) 5);
            Z.lor (Z.land (mo - 1) 0x1F) (Z.shiftl (ml - 2) 5)],
        PRS.input_index st + ml).
Proof.
  intros Hml Hshort Hmo. unfold PRS.encode_token.
  destruct (Z.ltb_spec ml 3); [lia|].
  assert (Hs : (ml <=? 5) && (mo <=? 256) = false).
  { apply andb_false_iff. destruct (Z.leb_spec ml 5); [|auto].
    destruct (Z.leb_spec mo 256); [|auto]. exfalso. apply Hshort. lia. }
  rewrite Hs. destruct (Z.leb_spec ml 9); [|lia].
  destruct (mid_match_bytes ml mo Hml Hmo) as [H1 H2].
  unfold append. rewrite (is_byteb_true _ H1). cbn [mbind result_bind].
  rewrite (is_byteb_true _ H2). cbn [mbind result_bind].
  rewrite <- app_assoc. reflexivity.
Qed.

Lemma mid_match_encoding_witness :
  PRS.encode_token sample_input sample_pack_state 6 7
  = Ok (128, [1; 2; 3; 4; 5; 6; 7] ++ [0x80; 0x86], 13).
Proof.
  apply (mid_match_encoding sample_input sample_pack_state 6 7); lia.
Defined.


(** The two bytes that the encoder writes for a match of length 6 at offset
    7 are not read back as that match: the mid branch of the decoder takes
    them as a back-reference with [shift = 8] and [length = 9]. *)
Lemma mid_match_read_back :
  PRS.read_token (sample_header 3 ++ [0x80; 0x80; 0x86])
                 (PRS.mkUnpack 17 2 0 0x80 0x80 [0; 0; 0])
  = PRS.Token (PRS.BackRef 8 9) 19 0.
Proof. reflexivity. Qed.
(** ** The MgData index reader *)

Lemma dict_set_keys {V : Type} (d : list (string * V)) (k : string) (v : V) :
  forall k', In k' (map fst (dict_set d k v)) <-> k' = k \/ In k' (map fst d).
Proof.
  induction d as [|[k0 v0] d IH]; intros k'; cbn [dict_set map fst In].
  - intuition congruence.
  - destruct (String.eqb_spec k0 k) as [->|Hne]; cbn [map fst In].
    + intuition congruence.
    + rewrite IH. intuition congruence.
Qed.

Lemma dict_set_NoDup {V : Type} (d : list (string * V)) (k : string) (v : V) :
  List.NoDup (map fst d) -> List.NoDup (map fst (dict_set d k v)).
Proof.
  induction d as [|[k0 v0] d IH]; intros Hnd; cbn [dict_set map fst].
  - constructor; [intros []|constructor].
  - cbn [map fst] in Hnd. apply List.NoDup_cons_iff in Hnd as [Hk0 Hnd].
    destruct (String.eqb_spec k0 k) as [->|Hne]; cbn [map fst].
    + constructor; assumption.
    + constructor; [|apply IH; exact Hnd].
      rewrite dict_set_keys. intros [->|Hin]; [congruence|contradiction].
Qed.

Lemma dict_set_fresh {V : Type} (d : list (string * V)) (k : string) (v : V) :
  ~ In k (map fst d) -> dict_set d k v = d ++ [(k, v)].
Proof.
  induction d as [|[k0 v0] d IH]; intros Hk; [reflexivity|].
  cbn [dict_set map fst In app] in *.
  destruct (String.eqb_spec k0 k) as [->|Hne]; [exfalso; apply Hk; left; reflexivity|].
  rewrite IH by (intros Hin; apply Hk; right; exact Hin). reflexivity.
Qed.

Section MgDataReader.
Import ExMgData.

Variable cp932_decode : list Z -> option string.

(** The empty byte string decodes (to the empty string). *)
Hypothesis cp932_decode_nil : cp932_decode [] <> None.

Lemma unpack_uint32_total f off :
  0 <= off -> off + 4 <= len f -> exists v, unpack_uint32 f off = Ok v.
Proof.
  intros Hoff Hlen. unfold unpack_uint32, fread.
  assert (Hl : length (take (Z.to_nat 4) (drop (Z.to_nat off) f)) = 4%nat).
  { rewrite length_take, length_drop. unfold len in Hlen. lia. }
  destruct (take _ _) as [|b0 [|b1 [|b2 [|b3 [|b4 l]]]]]; try discriminate.
  simpl. eauto.
Qed.

Lemma name_bytes_nonempty f p i :
  0 <= 0x04 + i * entry_size p + name_offset p ->
  name_bytes f p i <> [] -> 0x04 + i * entry_size p + name_offset p < len f.
Proof.
  intros Hnn Hne. unfold name_bytes, fread in Hne.
  destruct (Z.lt_ge_cases (4 + i * entry_size p + name_offset p) (len f)) as [|Hge];
    [assumption|].
  exfalso. apply Hne. rewrite drop_ge by (unfold len in Hge; lia).
  rewrite take_nil. reflexivity.
Qed.

Lemma read_entry_fails f p i :
  name_fails cp932_decode f p i ->
  read_entry cp932_decode f (0x04 + i * entry_size p) (name_offset p)
             (file_offset p) (size_offset p) = Ok (None, 0, 0).
Proof.
  unfold name_fails, read_entry. fold (name_bytes f p i). intros ->. reflexivity.
Qed.

Lemma read_entry_name f p i :
  ~ name_fails cp932_decode f p i ->
  exists name,
    cp932_decode (name_bytes f p i) = Some name
    /\ read_entry cp932_decode f (0x04 + i * entry_size p) (name_offset p)
                  (file_offset p) (size_offset p)
       = (offset ← unpack_uint32 f (0x04 + i * entry_size p + file_offset p);
          size ← unpack_uint32 f (0x04 + i * entry_size p + size_offset p);
          Ok (Some name, offset, size)).
Proof.
  unfold name_fails, read_entry. fold (name_bytes f p i). intros Hok.
  destruct (cp932_decode (name_bytes f p i)) as [name|] eqn:Hn; [|contradiction].
  exists name. split; reflexivity.
Qed.

(** An attempt falls back exactly when one of the names does not decode: a
    name that fails is not empty, so the records before it are complete and
    are read without error. *)
Lemma read_entries_fails f p (n : nat) : forall (a : nat) entries,
  layout_ok p -> 0 <= entry_size p ->
  read_entries cp932_decode f p (map (fun k => 0 + Z.of_nat k) (seq a n)) entries
  = Ok None
  <-> exists i : nat, (a <= i < a + n)%nat /\ name_fails cp932_decode f p (Z.of_nat i).
Proof.
  induction n as [|n IH]; intros a entries Hlay Hes.
  - simpl. split; [discriminate|]. intros (i & Hi & _). lia.
  - cbn [seq map read_entries]. rewrite Z.add_0_l.
    destruct (cp932_decode (name_bytes f p (Z.of_nat a))) as [name|] eqn:Hname.
    + assert (Hok : ~ name_fails cp932_decode f p (Z.of_nat a))
        by (unfold name_fails; congruence).
      destruct (read_entry_name f p _ Hok) as (name' & Hn' & ->).
      assert (Hrest : (exists i : nat, (a <= i < a + S n)%nat
                                       /\ name_fails cp932_decode f p (Z.of_nat i))
                      <-> exists i : nat, (S a <= i < S a + n)%nat
                                       /\ name_fails cp932_decode f p (Z.of_nat i)).
      { split; intros (i & Hi & Hf).
        - destruct (decide (i = a)) as [->|]; [contradiction|]. exists i. split; [lia|auto].
        - exists i. split; [lia|auto]. }
      rewrite Hrest.
      assert (Hread : (exists i : nat, (S a <= i < S a + n)%nat
                                       /\ name_fails cp932_decode f p (Z.of_nat i)) ->
                      (exists v, unpack_uint32 f (4 + Z.of_nat a * entry_size p + file_offset p) = Ok v)
                      /\ (exists v, unpack_uint32 f (4 + Z.of_nat a * entry_size p + size_offset p) = Ok v)).
      { intros (i & Hi & Hf). destruct Hlay as (Hno & Hfo & Hso).
        assert (Hne : name_bytes f p (Z.of_nat i) <> []).
        { intros E. unfold name_fails in Hf. rewrite E in Hf. contradiction. }
        apply name_bytes_nonempty in Hne; [|nia].
        assert (Z.of_nat a * entry_size p + entry_size p <= Z.of_nat i * entry_size p) by nia.
        split; apply unpack_uint32_total; nia. }
      destruct (unpack_uint32 f (4 + Z.of_nat a * entry_size p + file_offset p))
        as [off|e] eqn:Hoff; cbn [mbind result_bind].
      * destruct (unpack_uint32 f (4 + Z.of_nat a * entry_size p + size_offset p))
          as [sz|e] eqn:Hsz; cbn [mbind result_bind].
        -- apply IH; assumption.
        -- split; [discriminate|]. intros Hex.
           destruct (Hread Hex) as [_ [v Hv]]. discriminate.
      * split; [discriminate|]. intros Hex.
        destruct (Hread Hex) as [[v Hv] _]. discriminate.
    + rewrite read_entry_fails by exact Hname. cbn [mbind result_bind].
      split; [|reflexivity]. intros _. exists a. split; [lia | exact Hname].
Qed.

Lemma attempt_fails f count p :
  layout_ok p -> 0 <= entry_size p ->
  attempt cp932_decode f count p = Ok None
  <-> exists i, 0 <= i < count /\ name_fails cp932_decode f p i.
Proof.
  intros Hlay Hes. unfold attempt, range. rewrite read_entries_fails by assumption.
  rewrite Z.sub_0_r. split.
  - intros (i & Hi & Hf). exists (Z.of_nat i). split; [lia | exact Hf].
  - intros (i & Hi & Hf). exists (Z.to_nat i). rewrite Z2Nat.id by lia.
    split; [lia | exact Hf].
Qed.

(** A successful attempt has read every entry. *)
Lemma read_entries_length f p idx : forall entries es,
  read_entries cp932_decode f p idx entries = Ok (Some es) ->
  length es = (length entries + length idx)%nat.
Proof.
  induction idx as [|i idx IH]; intros entries es; cbn [read_entries].
  - intros [= <-]. simpl. lia.
  - destruct (read_entry _ _ _ _ _ _) as [[[[name|] off] sz]|]; try discriminate.
    cbn [mbind result_bind]. intros H. apply IH in H.
    rewrite length_app in H. simpl in *. lia.
Qed.

Lemma attempt_length f count p es :
  attempt cp932_decode f count p = Ok (Some es) -> length es = Z.to_nat count.
Proof.
  unfold attempt, range. intros H. apply read_entries_length in H.
  rewrite length_map, length_seq in H. simpl in H. rewrite H. f_equal. lia.
Qed.

Lemma KEY_wf : wf_bytes KEY.
Proof. repeat constructor; unfold is_byte; lia. Qed.

(** With the preset key every payload is decrypted without error; the keys
    of the dict are the names read, each once. *)
Lemma extract_ok f p : forall es i acc,
  wf_bytes f -> key p = KEY -> List.NoDup (map fst acc) ->
  exists side,
    extract f p i es acc = Ok (map (extract_one f p) es, side)
    /\ List.NoDup (map fst side)
    /\ forall name, In name (map fst side)
                    <-> In name (map fst acc) \/ In name (map (fun e => e.1.1) es).
Proof.
  induction es as [|[[name off] sz] es IH]; intros i acc Hwf Hkey Hnd.
  - exists acc. split; [reflexivity|]. split; [exact Hnd|].
    intros n. cbn. intuition.
  - cbn [extract map]. unfold save_file.
    rewrite xor_decrypt_ok;
      [| apply fread_wf, Hwf | rewrite Hkey; apply KEY_wf | rewrite Hkey; discriminate].
    cbn [mbind result_bind].
    destruct (IH (i + 1) (dict_set acc name
                            (hex_of_bytes (fread f (Z.to_nat (4 + i * entry_size p))
                                                 (entry_size p))))
                 Hwf Hkey (dict_set_NoDup _ _ _ Hnd)) as (side & -> & Hnd' & Hkeys).
    cbn [mbind result_bind]. eexists. split; [reflexivity|].
    split; [exact Hnd'|]. intros n. rewrite Hkeys, dict_set_keys.
    cbn [map fst In]. intuition.
Qed.

End MgDataReader.

(** C8. The reader tries the layout with [entry_size = 0x40] and then the one
    with [0x18]. An attempt over the [count] entries falls back exactly when
    the NUL-truncated name of some entry does not decode. The first layout
    whose attempt succeeds is the one used, and every one of its [count]
    entries is extracted with the preset key; when both attempts fall back
    nothing is extracted and the archive is reported as not recognised. *)
Theorem mgdata_preset_fallback
    (cp932_decode : list Z -> option string) (f : list Z) (count : Z) :
  cp932_decode [] <> None ->
  wf_bytes f ->
  ExMgData.unpack_uint32 f 0 = Ok count ->
  ExMgData.parameter_sets = [p40; p18]
  /\ (forall p, In p ExMgData.parameter_sets ->
        (ExMgData.attempt cp932_decode f count p = Ok None
         <-> exists i, 0 <= i < count /\ name_fails cp932_decode f p i))
  /\ (forall es, ExMgData.attempt cp932_decode f count p40 = Ok (Some es) ->
        length es = Z.to_nat count
        /\ exists side,
             ExMgData.process_mbl cp932_decode f
             = Ok (ExMgData.Extracted p40 (map (extract_one f p40) es) side)
             /\ List.NoDup (map fst side)
             /\ forall name, In name (map fst side)
                             <-> In name (map (fun e => e.1.1) es))
  /\ (ExMgData.attempt cp932_decode f count p40 = Ok None ->
      forall es, ExMgData.attempt cp932_decode f count p18 = Ok (Some es) ->
        length es = Z.to_nat count
        /\ exists side,
             ExMgData.process_mbl cp932_decode f
             = Ok (ExMgData.Extracted p18 (map (extract_one f p18) es) side)
             /\ List.NoDup (map fst side)
             /\ forall name, In name (map fst side)
                             <-> In name (map (fun e => e.1.1) es))
  /\ (ExMgData.attempt cp932_decode f count p40 = Ok None ->
      ExMgData.attempt cp932_decode f count p18 = Ok None ->
      ExMgData.process_mbl cp932_decode f = Ok ExMgData.Unrecognized).
Proof.
  intros Hnil Hwf Hcount.
  split; [reflexivity|]. split; [|split; [|split]].
  - intros p [<- | [<- | []]]; apply attempt_fails; auto;
      unfold layout_ok; cbn; lia.
  - intros es Ha. split; [eapply attempt_length; eauto|].
    unfold ExMgData.process_mbl. rewrite Hcount. cbn [mbind result_bind].
    change ExMgData.parameter_sets with [p40; p18].
    cbn [ExMgData.try_parameter_sets]. rewrite Ha. cbn [mbind result_bind].
    destruct (extract_ok f p40 es 0 [] Hwf eq_refl (List.NoDup_nil _))
      as (side & -> & Hnd & Hkeys).
    cbn [mbind result_bind]. exists side. split; [reflexivity|].
    split; [exact Hnd|]. intros n. rewrite Hkeys. cbn. intuition.
  - intros Ha0 es Ha. split; [eapply attempt_length; eauto|].
    unfold ExMgData.process_mbl. rewrite Hcount. cbn [mbind result_bind].
    change ExMgData.parameter_sets with [p40; p18].
    cbn [ExMgData.try_parameter_sets]. rewrite Ha0. cbn [mbind result_bind].
    rewrite Ha. cbn [mbind result_bind].
    destruct (extract_ok f p18 es 0 [] Hwf eq_refl (List.NoDup_nil _))
      as (side & -> & Hnd & Hkeys).
    cbn [mbind result_bind]. exists side. split; [reflexivity|].
    split; [exact Hnd|]. intros n. rewrite Hkeys. cbn. intuition.
  - intros Ha0 Ha1.
    unfold ExMgData.process_mbl. rewrite Hcount. cbn [mbind result_bind].
    change ExMgData.parameter_sets with [p40; p18].
    cbn [ExMgData.try_parameter_sets]. rewrite Ha0. cbn [mbind result_bind].
    rewrite Ha1. reflexivity.
Qed.

Lemma mgdata_preset_fallback_witness :
  length [("a.bin"%string, 56, 13); ("b"%string, 69, 1)] = Z.to_nat 2
  /\ exists side,
       ExMgData.process_mbl ascii_decode sample_archive
       = Ok (ExMgData.Extracted p18
               (map (extract_one sample_archive p18)
                    [("a.bin"%string, 56, 13); ("b"%string, 69, 1)]) side)
       /\ List.NoDup (map fst side)
       /\ forall name, In name (map fst side)
                       <-> In name (map (fun e => e.1.1)
                                        [("a.bin"%string, 56, 13); ("b"%string, 69, 1)]).
Proof.
  refine (proj1 (proj2 (proj2 (proj2
            (mgdata_preset_fallback ascii_decode sample_archive 2 _ _ _)))) _ _ _).
  - discriminate.
  - apply Forall_forall. intros x Hx. apply list_elem_of_In in Hx.
    assert (Hb : forallb is_byteb sample_archive = true) by (vm_compute; reflexivity).
    rewrite forallb_forall in Hb. apply is_byteb_spec, Hb, Hx.
  - reflexivity.
  - vm_compute. reflexivity.
  - vm_compute. reflexivity.
Defined.
(** ** The MgGra packer *)

Section MgGraPacker.
Import PkmgGra.

Context {str : Type} `{PyStr str}.

Lemma getitem_head (x : Z) (l : list Z) : getitem (x :: l) 0 = Ok x.
Proof. apply (getitem_nat (x :: l) 0 x). reflexivity. Qed.

Lemma add_files_spec dso (files : list (str * list Z)) :
  forall offset entries buf,
    Forall (fun pf => pf.2 <> []) files ->
    add_files dso files offset entries buf
    = Ok (entries ++ entries_of dso offset files, buf ++ concat (map snd files)).
Proof.
  induction files as [|[path data] files IH]; intros offset entries buf Hne.
  - simpl. rewrite !app_nil_r. reflexivity.
  - apply Forall_cons in Hne as [Hd Hne]. simpl in Hd.
    destruct data as [|b0 data]; [contradiction|].
    cbn [add_files]. rewrite getitem_head. cbn [mbind result_bind].
    assert (Hsame : (if b0 =? 120 then b0 :: data else b0 :: data) = b0 :: data)
      by (destruct (b0 =? 120); reflexivity).
    rewrite Hsame, IH by exact Hne.
    cbn [entries_of map concat snd]. rewrite <- !app_assoc. reflexivity.
Qed.

(** Each entry of the index points at the bytes of its file. *)
Lemma entries_of_slices dso (files : list (str * list Z)) :
  forall offset (pre : list Z),
    offset = len pre ->
    Forall2 (fun e pf =>
               size e = len pf.2
               /\ take (Z.to_nat (size e))
                       (drop (Z.to_nat (PkmgGra.offset e - dso))
                             (pre ++ concat (map snd files))) = pf.2)
            (entries_of dso offset files) files.
Proof.
  induction files as [|[path data] files IH]; intros offset pre Hoff;
    cbn [entries_of]; constructor.
  - cbn [Entry_init size PkmgGra.offset snd map concat]. split; [reflexivity|].
    replace (Z.to_nat (dso + offset - dso)) with (length pre)
      by (subst offset; unfold len; lia).
    rewrite drop_app_length. unfold len. rewrite Nat2Z.id.
    rewrite take_app_length. reflexivity.
  - specialize (IH (offset + len data) (pre ++ data)).
    cbn [map concat snd]. rewrite app_assoc. apply IH.
    subst offset. unfold len. rewrite length_app. lia.
Qed.

Lemma entries_of_bounds dso (files : list (str * list Z)) :
  forall offset,
    0 <= dso -> 0 <= offset ->
    Forall (fun e => 0 <= PkmgGra.offset e
                     /\ PkmgGra.offset e + size e
                        <= dso + offset + len (concat (map snd files))
                     /\ 0 <= size e)
           (entries_of dso offset files).
Proof.
  induction files as [|[path data] files IH]; intros offset Hdso Hoff;
    cbn [entries_of]; constructor.
  - cbn [Entry_init size PkmgGra.offset map concat snd]. unfold len.
    rewrite length_app. lia.
  - eapply Forall_impl; [apply (IH (offset + len data)); unfold len; lia|].
    intros e (H1 & H2 & H3). cbn [map concat snd]. unfold len in *.
    rewrite length_app. lia.
Qed.

Lemma entries_of_length dso (files : list (str * list Z)) :
  forall offset, length (entries_of dso offset files) = length files.
Proof.
  induction files as [|[path data] files IH]; intros offset; [reflexivity|].
  cbn [entries_of length]. rewrite IH. reflexivity.
Qed.

Lemma write_entries_total (entries : list Entry) bound :
  bound < 4294967296 ->
  Forall (fun e => 0 <= PkmgGra.offset e /\ PkmgGra.offset e + size e <= bound
                   /\ 0 <= size e) entries ->
  exists idx, write_entries entries = Ok idx.
Proof.
  intros Hb. induction 1 as [|e entries (H1 & H2 & H3) _ [idx IH]]; [simpl; eauto|].
  cbn [write_entries].
  rewrite (proj1 (unpack_pack_u32 (PkmgGra.offset e) ltac:(lia))).
  rewrite (proj1 (unpack_pack_u32 (size e) ltac:(lia))).
  cbn [mbind result_bind]. rewrite IH. cbn [mbind result_bind]. eauto.
Qed.

End MgGraPacker.

(** C10. The MgGra packer stores every payload verbatim: for non-empty input
    files, whatever their first byte, the data buffer is the concatenation of
    the files' bytes, each index entry has the size of its file and points
    at exactly the file's bytes in the data section, and (when the archive
    fits 32-bit offsets) the archive written is the index followed by that
    data section. *)
Theorem mggra_payload_verbatim {str : Type} `{PyStr str}
    (files : list (str * list Z)) :
  let dso := 8 + 0x15 * len files in
  let data := concat (map snd files) in
  Forall (fun pf => pf.2 <> []) files ->
  dso + len data < 4294967296 ->
  exists entries count name_len index,
    PkmgGra.add_files dso files 0 [] [] = Ok (entries, data)
    /\ Forall2 (fun e pf =>
                  PkmgGra.size e = len pf.2
                  /\ take (Z.to_nat (PkmgGra.size e))
                          (drop (Z.to_nat (PkmgGra.offset e - dso)) data) = pf.2)
               entries files
    /\ pack_u32 (len files) = Ok count
    /\ pack_u32 13 = Ok name_len
    /\ PkmgGra.write_entries entries = Ok index
    /\ PkmgGra.pack_files files = Ok (count ++ name_len ++ index ++ data).
Proof.
  intros dso data Hne Hfit.
  assert (Hdso : 0 <= dso) by (unfold dso, len; lia).
  pose proof (len_nonneg data) as Hdata.
  destruct (write_entries_total (entries_of dso 0 files) (dso + len data) Hfit)
    as [index Hidx].
  { eapply Forall_impl; [apply entries_of_bounds; lia|].
    intros e (H1 & H2 & H3). fold data in H2. lia. }
  assert (Hlen : len (entries_of dso 0 files) = len files)
    by (unfold len; rewrite entries_of_length; reflexivity).
  destruct (unpack_pack_u32 (len files)
              ltac:(unfold dso in Hfit; unfold len in *; lia)) as [Hcount _].
  eexists (entries_of dso 0 files), _, _, index.
  split; [apply (add_files_spec dso files 0 [] []); exact Hne|].
  split; [apply (entries_of_slices dso files 0 []); reflexivity|].
  split; [exact Hcount|].
  split; [reflexivity|]. split; [exact Hidx|].
  unfold PkmgGra.pack_files. fold dso.
  rewrite (add_files_spec dso files 0 [] []) by exact Hne.
  cbn [mbind result_bind app]. fold data. rewrite Hlen.
  rewrite Hcount. cbn [mbind result_bind]. rewrite Hidx. reflexivity.
Qed.

Lemma mggra_payload_verbatim_witness :
  exists entries count name_len index,
    PkmgGra.add_files (8 + 0x15 * len sample_files) sample_files 0 [] []
    = Ok (entries, concat (map snd sample_files))
    /\ Forall2 (fun e pf =>
                  PkmgGra.size e = len pf.2
                  /\ take (Z.to_nat (PkmgGra.size e))
                          (drop (Z.to_nat (PkmgGra.offset e
                                           - (8 + 0x15 * len sample_files)))
                                (concat (map snd sample_files))) = pf.2)
               entries sample_files
    /\ pack_u32 (len sample_files) = Ok count
    /\ pack_u32 13 = Ok name_len
    /\ PkmgGra.write_entries entries = Ok index
    /\ PkmgGra.pack_files sample_files
       = Ok (count ++ name_len ++ index ++ concat (map snd sample_files)).
Proof.
  apply (mggra_payload_verbatim sample_files).
  - repeat constructor; discriminate.
  - vm_compute. reflexivity.
Defined.

(** * Further properties of the code *)

(** ** The delta filter *)

Section DeltaFilter.
Import PRS.

Lemma range_nil a b : b <= a -> range a b = [].
Proof. intros H. unfold range. rewrite Z2Nat.nonpos by lia. reflexivity. Qed.

Lemma range_cons a b : a < b -> range a b = a :: range (a + 1) b.
Proof.
  intros H. unfold range.
  replace (Z.to_nat (b - a)) with (S (Z.to_nat (b - (a + 1)))) by lia.
  cbn [seq map]. f_equal; [lia|].
  rewrite <- seq_shift, map_map. apply map_ext. intros k. lia.
Qed.

Lemma range_snoc a b : a <= b -> range a (b + 1) = range a b ++ [b].
Proof.
  intros H. unfold range.
  replace (Z.to_nat (b + 1 - a)) with (Z.to_nat (b - a) + 1)%nat by lia.
  rewrite seq_app, map_app. cbn [seq map]. do 2 f_equal. lia.
Qed.

Lemma getitem_lookup (l : list Z) (i : nat) v :
  l !! i = Some v -> getitem l (Z.of_nat i) = Ok v.
Proof. apply getitem_nat. Qed.

(** One round of the encoding loop at index [i]. *)
Lemma delta_encode_at_ok depth (cur : list Z) (i : nat) a b :
  cur !! i = Some a -> 0 <= depth <= Z.of_nat i ->
  cur !! (i - Z.to_nat depth)%nat = Some b ->
  delta_encode_at depth (Ok cur) (Z.of_nat i)
  = Ok (<[i := (a - b + 256) mod 256]> cur).
Proof.
  intros Ha Hd Hb. unfold delta_encode_at. cbn [mbind result_bind].
  rewrite (getitem_nat _ _ _ Ha). cbn [mbind result_bind].
  replace (Z.of_nat i - depth) with (Z.of_nat (i - Z.to_nat depth)) by lia.
  rewrite (getitem_nat _ _ _ Hb). cbn [mbind result_bind].
  rewrite setitem_ok.
  - rewrite Nat2Z.id. reflexivity.
  - pose proof (lookup_lt_Some _ _ _ Ha). unfold len. lia.
  - unfold is_byte. apply Z.mod_pos_bound. lia.
Qed.

Lemma delta_decode_at_ok depth (cur : list Z) (i : nat) a b :
  cur !! i = Some a -> 0 <= depth <= Z.of_nat i ->
  cur !! (i - Z.to_nat depth)%nat = Some b ->
  delta_decode_at depth (Ok cur) (Z.of_nat i)
  = Ok (<[i := (a + b) mod 256]> cur).
Proof.
  intros Ha Hd Hb. unfold delta_decode_at. cbn [mbind result_bind].
  rewrite (getitem_nat _ _ _ Ha). cbn [mbind result_bind].
  replace (Z.of_nat i - depth) with (Z.of_nat (i - Z.to_nat depth)) by lia.
  rewrite (getitem_nat _ _ _ Hb). cbn [mbind result_bind].
  rewrite setitem_ok.
  - rewrite Nat2Z.id. reflexivity.
  - pose proof (lookup_lt_Some _ _ _ Ha). unfold len. lia.
  - unfold is_byte. apply Z.mod_pos_bound. lia.
Qed.

(** The encoding loop over the indices [d + m - 1] down to [d]: every one of
    them receives the difference with the byte [d] places before it, taken
    from the buffer as it was. *)
Lemma delta_encode_loop (d : nat) (m : nat) : forall cur : list Z,
  (0 < d)%nat -> (d + m <= length cur)%nat ->
  exists R,
    foldl (delta_encode_at (Z.of_nat d)) (Ok cur)
          (reverse (range (Z.of_nat d) (Z.of_nat (d + m)))) = Ok R
    /\ length R = length cur
    /\ forall j, R !! j =
         if decide (d <= j < d + m)%nat
         then Some ((cur !!! j - cur !!! (j - d)%nat + 256) mod 256)
         else cur !! j.
Proof.
  induction m as [|m IH]; intros cur Hd Hlen.
  - exists cur. rewrite Nat.add_0_r, range_nil by lia.
    split; [reflexivity|]. split; [reflexivity|].
    intros j. destruct (decide _); [lia | reflexivity].
  - replace (Z.of_nat (d + S m)) with (Z.of_nat (d + m) + 1) by lia.
    rewrite range_snoc by lia. rewrite reverse_snoc. cbn [foldl].
    destruct (lookup_lt_is_Some_2 cur (d + m)%nat ltac:(lia)) as [a Ha].
    destruct (lookup_lt_is_Some_2 cur (d + m - d)%nat ltac:(lia)) as [b Hb].
    rewrite (delta_encode_at_ok _ cur (d + m) a b); [| exact Ha | lia |
      rewrite Nat2Z.id; exact Hb].
    destruct (IH (<[(d + m)%nat := (a - b + 256) mod 256]> cur) Hd
                 ltac:(rewrite length_insert; lia)) as (R & HR & HlenR & Hpt).
    exists R. split; [exact HR|]. split; [rewrite HlenR; apply length_insert|].
    intros j. rewrite Hpt.
    destruct (decide (d <= j < d + m)%nat) as [Hj|Hj].
    + destruct (decide (d <= j < d + S m)%nat); [|lia].
      rewrite !list_lookup_total_insert_ne by lia. reflexivity.
    + destruct (decide (j = d + m)%nat) as [->|Hne].
      * destruct (decide (d <= d + m < d + S m)%nat); [|lia].
        rewrite list_lookup_insert_eq by lia.
        rewrite (list_lookup_total_correct _ _ _ Ha).
        rewrite (list_lookup_total_correct _ _ _ Hb). reflexivity.
      * destruct (decide (d <= j < d + S m)%nat); [lia|].
        apply list_lookup_insert_ne. lia.
Qed.

(** The decoding loop from index [k] on rebuilds [x] from its encoding [E],
    once the bytes before [k] are those of [x]. *)
Lemma delta_decode_loop (d : nat) (x E : list Z) (m : nat) : forall k : nat,
  (0 < d)%nat -> wf_bytes x -> length E = length x ->
  (forall j, E !! j =
     if decide (d <= j < length x)%nat
     then Some ((x !!! j - x !!! (j - d)%nat + 256) mod 256)
     else x !! j) ->
  (d <= k)%nat -> (k + m = length x)%nat ->
  foldl (delta_decode_at (Z.of_nat d)) (Ok (take k x ++ drop k E))
        (range (Z.of_nat k) (Z.of_nat (length x))) = Ok x.
Proof.
  induction m as [|m IH]; intros k Hd Hwf HlenE HE Hk Hkm.
  - rewrite range_nil by lia. cbn [foldl].
    rewrite take_ge, drop_ge by lia. rewrite app_nil_r. reflexivity.
  - rewrite range_cons by lia. cbn [foldl].
    destruct (lookup_lt_is_Some_2 x k ltac:(lia)) as [xk Hxk].
    destruct (lookup_lt_is_Some_2 x (k - d)%nat ltac:(lia)) as [xp Hxp].
    pose proof (wf_bytes_lookup _ _ _ Hwf Hxk) as Hbk.
    pose proof (wf_bytes_lookup _ _ _ Hwf Hxp) as Hbp.
    assert (Hcur : (take k x ++ drop k E) !! k = Some ((xk - xp + 256) mod 256)).
    { rewrite lookup_app_r by (rewrite length_take; lia).
      rewrite length_take, lookup_drop.
      replace (k + (k - k `min` length x))%nat with k by lia.
      rewrite HE. destruct (decide _); [|lia].
      rewrite (list_lookup_total_correct _ _ _ Hxk).
      rewrite (list_lookup_total_correct _ _ _ Hxp). reflexivity. }
    assert (Hprev : (take k x ++ drop k E) !! (k - Z.to_nat (Z.of_nat d))%nat = Some xp).
    { rewrite Nat2Z.id. rewrite lookup_app_l by (rewrite length_take; lia).
      rewrite lookup_take_lt by lia. exact Hxp. }
    rewrite (delta_decode_at_ok (Z.of_nat d) _ k _ _ Hcur ltac:(lia) Hprev).
    replace (((xk - xp + 256) mod 256 + xp) mod 256) with xk.
    2:{ unfold is_byte in *. rewrite Zplus_mod_idemp_l.
        replace (xk - xp + 256 + xp) with (xk + 1 * 256) by lia.
        rewrite Z.mod_add by lia. symmetry. apply Z.mod_small. lia. }
    replace (<[k := xk]> (take k x ++ drop k E))
      with (take (S k) x ++ drop (S k) E).
    + replace (Z.of_nat k + 1) with (Z.of_nat (S k)) by lia.
      apply IH; auto; lia.
    + rewrite insert_app_r_alt by (rewrite length_take; lia).
      rewrite length_take. replace (k - k `min` length x)%nat with 0%nat by lia.
      rewrite (take_S_r _ _ _ Hxk), <- app_assoc. f_equal.
      destruct (drop k E) as [|e0 rest] eqn:Hdrop.
      * apply (f_equal length) in Hdrop. rewrite length_drop in Hdrop. simpl in Hdrop. lia.
      * cbn [insert list_insert app]. f_equal.
        replace (S k) with (k + 1)%nat by lia.
        rewrite <- drop_drop, Hdrop. reflexivity.
Qed.

End DeltaFilter.

Lemma delta_filters_inverse (depth : Z) (x : list Z) :
  0 < depth -> wf_bytes x ->
  exists e, PRS.delta_encode depth x = Ok e
            /\ wf_bytes e /\ length e = length x
            /\ PRS.delta_decode depth e = Ok x.
Proof.
  intros Hd Hwf.
  destruct (Z.le_gt_cases (len x) depth) as [Hshort|Hlong].
  - exists x. unfold PRS.delta_encode, PRS.delta_decode.
    rewrite range_nil by lia. auto.
  - unfold len in Hlong.
    destruct (delta_encode_loop (Z.to_nat depth) (length x - Z.to_nat depth) x
                ltac:(lia) ltac:(lia)) as (E & HE & HlenE & Hpt).
    replace (Z.to_nat depth + (length x - Z.to_nat depth))%nat with (length x) in * by lia.
    rewrite Z2Nat.id in HE by lia.
    exists E. unfold PRS.delta_encode, PRS.delta_decode. unfold len.
    split; [exact HE|]. split; [|split; [exact HlenE|]].
    + apply Forall_lookup_2. intros j v Hv. rewrite Hpt in Hv.
      destruct (decide _).
      * injection Hv as <-. unfold is_byte. apply Z.mod_pos_bound. lia.
      * eapply wf_bytes_lookup; eauto.
    + rewrite HlenE.
      pose proof (delta_decode_loop (Z.to_nat depth) x E (length x - Z.to_nat depth)
                    (Z.to_nat depth) ltac:(lia) Hwf HlenE Hpt ltac:(lia) ltac:(lia)) as Hdec.
      rewrite Z2Nat.id in Hdec by lia.
      replace (take (Z.to_nat depth) x ++ drop (Z.to_nat depth) E) with E in Hdec;
        [exact Hdec|].
      apply list_eq. intros j.
      destruct (decide (j < Z.to_nat depth)%nat).
      * rewrite lookup_app_l by (rewrite length_take; lia).
        rewrite lookup_take_lt by lia. rewrite Hpt.
        destruct (decide _); [lia | reflexivity].
      * rewrite lookup_app_r by (rewrite length_take; lia).
        rewrite length_take, lookup_drop. f_equal. lia.
Qed.

(** X1. The delta filter is reversible: for a stride [depth >= 1] the
    pre-filter of the writer turns a byte buffer into a byte buffer of the
    same length, and the post-filter of the reader turns that back into the
    original. *)
Theorem delta_round_trip (depth : Z) (x : list Z) :
  0 < depth -> wf_bytes x ->
  exists e, PRS.delta_encode depth x = Ok e
            /\ wf_bytes e /\ length e = length x
            /\ PRS.delta_decode depth e = Ok x.
Proof. exact (delta_filters_inverse depth x). Qed.

Lemma delta_round_trip_witness :
  exists e, PRS.delta_encode 3 [0; 0; 0; 1; 1; 1; 2; 2; 2; 3; 3; 3] = Ok e
            /\ wf_bytes e /\ length e = length [0; 0; 0; 1; 1; 1; 2; 2; 2; 3; 3; 3]
            /\ PRS.delta_decode 3 e = Ok [0; 0; 0; 1; 1; 1; 2; 2; 2; 3; 3; 3].
Proof.
  apply (delta_round_trip 3 [0; 0; 0; 1; 1; 1; 2; 2; 2; 3; 3; 3]).
  - lia.
  - repeat constructor; unfold is_byte; lia.
Defined.

(** ** Round trip through the filter *)

Section RoundTripFilter.
Import PRS.

(** Reading a file whose payload stores the buffer [E] with literals only:
    the loop rebuilds [E], and the post-filter says what is returned. *)
Lemma decode_literals_post (c d w h : Z) (E P : list Z) :
  let n := len (stream 0 E) in
  d = 3 \/ d = 4 -> 0 < w < 65536 -> 0 < h < 65536 ->
  wf_bytes E -> len E = w * h * d -> n < 4294967296 ->
  (if negb (Z.land c 0x80 =? 0) then delta_decode d E else Ok E) = Ok P ->
  length P = length E ->
  exists r,
    decode_file ([0x59; 0x42; c; d;
                  n mod 256; (n / 256) mod 256; (n / 65536) mod 256; n / 16777216;
                  0; 0; 0; 0; w mod 256; w / 256; h mod 256; h / 256]
                 ++ stream 0 E) = Ok r
    /\ r_output r = P /\ r_width r = w /\ r_height r = h /\ r_depth r = d
    /\ r_flag r = c.
Proof.
  intros n Hd Hw Hh Hwf Hlen Hn Hpost HlenP. unfold decode_file.
  rewrite read_header by exact Hd. cbn [mbind result_bind].
  assert (Hn0 : 0 <= n) by apply len_nonneg.
  rewrite (proj2 (unpack_pack_u16 w ltac:(lia))), (proj2 (unpack_pack_u16 h ltac:(lia))).
  rewrite (proj2 (unpack_pack_u32 n ltac:(lia))).
  unfold unpack, PrsReader_init.
  cbn [r_packed_size r_output r_flag r_depth r_format r_width r_height
       width height bpp flag packed_size].
  rewrite Z.div_mul by lia.
  replace (Z.to_nat (w * h * d)) with (length E) by (unfold len in Hlen; lia).
  set (f := _ ++ stream 0 E).
  destruct (unpack_loop_literals f E [] 0%nat (Z.to_nat n)
              (mkUnpack 16 n 0 0 0 (replicate (length E) 0)))
    as (st' & Hrun & Hout); auto; try reflexivity; try lia.
  { unfold n. rewrite stream_length by lia. unfold len.
    pose proof (Z.div_pos (Z.of_nat (length E) + 7 - Z.of_nat 0) 8). lia. }
  rewrite Hrun. cbn [mbind result_bind]. rewrite Hout. cbn [app].
  rewrite Hpost. cbn [mbind result_bind].
  destruct Hd as [-> | ->].
  - cbn [Z.eqb Pos.eqb mbind result_bind]. eexists. repeat split.
  - cbn [Z.eqb Pos.eqb mbind result_bind].
    destruct (is_dummy_alpha_channel_total P) as [b ->].
    { unfold len in *. rewrite HlenP. nia. }
    cbn [mbind result_bind]. eexists. repeat split.
Qed.

End RoundTripFilter.

Lemma round_trip_any_flag (w h : Z) (rgba : bool) (P : list Z) (flag : Z) :
  is_byte flag ->
  0 < w < 65536 -> 0 < h < 65536 ->
  wf_bytes P ->
  len P = w * h * (if rgba then 4 else 3) ->
  len P + (len P + 7) / 8 < 4294967296 ->
  exists wr file md r,
    PRS.PrsWriter_init w h rgba P flag = Ok wr
    /\ PRS.pack wr = Ok (file, md)
    /\ PRS.decode_file file = Ok r
    /\ PRS.r_output r = P /\ PRS.r_flag r = flag.
Proof.
  intros Hflag Hw Hh Hwf Hlen Hsize.
  set (d := if rgba then 4 else 3) in *.
  assert (Hd : d = 3 \/ d = 4) by (destruct rgba; auto).
  assert (Hbpp : (if rgba then 32 else 24) / 8 = d) by (unfold d; destruct rgba; reflexivity).
  (* the buffer that is packed, and what the post-filter does to it *)
  assert (HE : exists E,
    (if Z.land flag 128 =? 0 then Ok P else PRS.delta_encode d P) = Ok E
    /\ wf_bytes E /\ length E = length P
    /\ (if negb (Z.land flag 128 =? 0) then PRS.delta_decode d E else Ok E) = Ok P).
  { destruct (Z.land flag 128 =? 0).
    - exists P. auto.
    - destruct (delta_filters_inverse d P ltac:(lia) Hwf) as (E & He & HwfE & HlenE & Hdec).
      exists E. auto. }
  destruct HE as (E & Henc & HwfE & HlenE & Hdec).
  set (wr := PRS.mkWriter (PRS.mkMeta w h (if rgba then 32 else 24) flag 0) d (w * d) E).
  assert (Hinit : PRS.PrsWriter_init w h rgba P flag = Ok wr).
  { unfold PRS.PrsWriter_init. cbn [PRS.bpp PRS.width]. rewrite Hbpp.
    change 0x80 with 128. rewrite Henc. reflexivity. }
  assert (HlenE' : len E = len P) by (unfold len; rewrite HlenE; reflexivity).
  assert (Hn : len (stream 0 E) < 4294967296).
  { rewrite stream_length by lia. change (Z.of_nat 0) with 0.
    rewrite Z.sub_0_r, HlenE'. exact Hsize. }
  pose proof (pack_literals wr) as Hpack. cbv zeta in Hpack.
  cbn [PRS.metadata PRS.input PRS.flag PRS.width PRS.height PRS.bpp wr] in Hpack.
  rewrite Hbpp in Hpack.
  specialize (Hpack HwfE Hflag ltac:(unfold is_byte; lia) ltac:(lia) ltac:(lia) Hn).
  destruct (decode_literals_post flag d w h E P Hd Hw Hh HwfE
              ltac:(rewrite HlenE'; exact Hlen) Hn Hdec ltac:(symmetry; exact HlenE))
    as (r & Hdecode & Hout & _ & _ & _ & Hfl).
  eexists wr, _, _, r. split; [exact Hinit|]. split; [exact Hpack|].
  split; [exact Hdecode|]. split; [exact Hout | exact Hfl].
Qed.

(** X2. PRS round trip with any flag byte, in particular with the delta
    filter ([flag = 0x80], the choice of [convert_bmp_to_prs] for RGBA
    images): for an image of [w] by [h] pixels ([1..65535]) with 3 or 4
    bytes per pixel whose payload fits the 32-bit size field, the writer
    produces a file and reading it back returns the buffer it was given. *)
Theorem prs_round_trip_flag (w h : Z) (rgba : bool) (P : list Z) (flag : Z) :
  is_byte flag ->
  0 < w < 65536 -> 0 < h < 65536 ->
  wf_bytes P ->
  len P = w * h * (if rgba then 4 else 3) ->
  len P + (len P + 7) / 8 < 4294967296 ->
  exists wr file md r,
    PRS.PrsWriter_init w h rgba P flag = Ok wr
    /\ PRS.pack wr = Ok (file, md)
    /\ PRS.decode_file file = Ok r
    /\ PRS.r_output r = P /\ PRS.r_flag r = flag.
Proof. exact (round_trip_any_flag w h rgba P flag). Qed.

Lemma prs_round_trip_flag_witness :
  exists wr file md r,
    PRS.PrsWriter_init 2 2 true
      [10; 20; 30; 119; 11; 22; 33; 119; 12; 24; 36; 119; 13; 26; 39; 119] 0x80 = Ok wr
    /\ PRS.pack wr = Ok (file, md)
    /\ PRS.decode_file file = Ok r
    /\ PRS.r_output r
       = [10; 20; 30; 119; 11; 22; 33; 119; 12; 24; 36; 119; 13; 26; 39; 119]
    /\ PRS.r_flag r = 0x80.
Proof.
  apply (prs_round_trip_flag 2 2 true
           [10; 20; 30; 119; 11; 22; 33; 119; 12; 24; 36; 119; 13; 26; 39; 119] 0x80).
  - unfold is_byte. lia.
  - lia.
  - lia.
  - repeat constructor; unfold is_byte; lia.
  - reflexivity.
  - vm_compute. reflexivity.
Defined.

(** ** What [pack] writes, and when it raises *)

Section PackOutcome.
Import PRS.

Lemma pack_header_inv md hdr :
  pack_header md = Ok hdr ->
  (is_byte (flag md) /\ is_byte (bpp md / 8)
   /\ 0 <= width md < 65536 /\ 0 <= height md < 65536)
  /\ hdr = [0x59; 0x42; flag md; bpp md / 8; 0; 0; 0; 0; 0; 0; 0; 0;
            width md mod 256; width md / 256; height md mod 256; height md / 256].
Proof.
  unfold pack_header, bytes1, append, pack_u16.
  destruct (is_byteb (flag md)) eqn:Hf; [|discriminate]. cbn [mbind result_bind].
  destruct (is_byteb (bpp md / 8)) eqn:Hb; [|discriminate]. cbn [mbind result_bind].
  destruct (Z.leb_spec 0 (width md)); [|discriminate].
  destruct (Z.ltb_spec (width md) 65536); [|discriminate]. cbn [andb mbind result_bind].
  destruct (Z.leb_spec 0 (height md)); [|discriminate].
  destruct (Z.ltb_spec (height md) 65536); [|discriminate]. cbn [andb mbind result_bind].
  intros [= <-]. apply is_byteb_spec in Hf, Hb.
  split; [|reflexivity]. unfold is_byte in *. lia.
Qed.

(** After the header, [pack] depends on its input only through the literal
    stream. *)
Lemma pack_after_header (wr : PrsWriter) hdr :
  wf_bytes (input wr) -> pack_header (metadata wr) = Ok hdr ->
  pack wr
  = (sz ← pack_u32 (len (hdr ++ stream 0 (input wr)) - 16);
     Ok (take 4 (hdr ++ stream 0 (input wr)) ++ sz
         ++ drop 8 (hdr ++ stream 0 (input wr)),
         mkMeta (width (metadata wr)) (height (metadata wr)) (bpp (metadata wr))
                (flag (metadata wr)) (len (hdr ++ stream 0 (input wr)) - 16))).
Proof.
  intros Hwf Hh. unfold pack. rewrite Hh. cbn [mbind result_bind].
  destruct (pack_loop_literals (input wr) [] [] hdr 0%nat (length (input wr)))
    as (st' & j' & Hrun & Hj' & Hmask & Hctl & Hcb & Hout);
    [exact Hwf | reflexivity | lia | lia |].
  change (pack_loop (length (input wr)) (input wr) (mkPack 0 0 1 [] hdr ∅) = Ok st')
    in Hrun.
  rewrite Hrun. cbn [mbind result_bind]. cbn [pending] in Hout.
  assert (Hfinal : final_flush st' = Ok (hdr ++ stream 0 (input wr))).
  { unfold final_flush, bytes1, append.
    rewrite <- Hout, Hmask, Hctl. unfold len. rewrite Hcb.
    destruct j' as [|j'].
    - cbn [pending stream]. rewrite app_nil_r. reflexivity.
    - assert (Hne : (2 ^ Z.of_nat (S j') =? 1) = false).
      { apply Z.eqb_neq. do 8 (destruct j' as [|j']; [simpl; lia|]). lia. }
      rewrite Hne. cbn [negb orb is_byteb mbind result_bind pending stream app].
      rewrite app_nil_r. reflexivity. }
  rewrite Hfinal. reflexivity.
Qed.

End PackOutcome.

Lemma pack_payload (wr : PRS.PrsWriter) (file : list Z)
    (md : PRS.PrsMetaData) :
  wf_bytes (PRS.input wr) ->
  PRS.pack wr = Ok (file, md) ->
  drop 16 file = stream 0 (PRS.input wr)
  /\ PRS.packed_size md = len (PRS.input wr) + (len (PRS.input wr) + 7) / 8
  /\ len (PRS.input wr) <= PRS.packed_size md.
Proof.
  intros Hwf Hp.
  destruct (PRS.pack_header (PRS.metadata wr)) as [hdr|e] eqn:Hh.
  2:{ unfold PRS.pack in Hp. rewrite Hh in Hp. discriminate. }
  rewrite (pack_after_header wr hdr Hwf Hh) in Hp.
  destruct (pack_header_inv _ _ Hh) as [_ Hhdr].
  destruct (pack_u32 _) as [sz|] eqn:Hsz; [|discriminate].
  cbn [mbind result_bind] in Hp. injection Hp as <- <-.
  destruct (pack_u32_inv _ _ Hsz) as (_ & _ & Hlsz).
  assert (Hlh : length hdr = 16%nat) by (rewrite Hhdr; reflexivity).
  assert (Hsize : len (hdr ++ stream 0 (PRS.input wr)) - 16
                  = len (PRS.input wr) + (len (PRS.input wr) + 7) / 8).
  { unfold len at 1. rewrite length_app, Hlh.
    pose proof (stream_length (PRS.input wr) 0 ltac:(lia)) as Hs.
    unfold len in Hs at 1. change (Z.of_nat 0) with 0 in Hs.
    rewrite Z.sub_0_r in Hs. lia. }
  split; [|split].
  - destruct sz as [|a [|b [|c [|d [|? ?]]]]]; try discriminate.
    rewrite Hhdr. reflexivity.
  - cbn [PRS.packed_size]. exact Hsize.
  - cbn [PRS.packed_size]. rewrite Hsize.
    pose proof (len_nonneg (PRS.input wr)).
    pose proof (Z.div_pos (len (PRS.input wr) + 7) 8). lia.
Qed.

(** X3. The encoder never compresses. Its hash table is consulted before it
    is ever filled, so every byte is written as a literal: the payload of a
    packed file is the input cut into groups of eight bytes, each behind a
    zero control byte, and [packed_size] is [n + ceil(n / 8)] for an input of
    [n] bytes. *)
Theorem pack_stores_literals (wr : PRS.PrsWriter) (file : list Z)
    (md : PRS.PrsMetaData) :
  wf_bytes (PRS.input wr) ->
  PRS.pack wr = Ok (file, md) ->
  drop 16 file = stream 0 (PRS.input wr)
  /\ PRS.packed_size md = len (PRS.input wr) + (len (PRS.input wr) + 7) / 8
  /\ len (PRS.input wr) <= PRS.packed_size md.
Proof. exact (pack_payload wr file md). Qed.

Lemma pack_stores_literals_witness :
  drop 16 [89; 66; 0; 3; 11; 0; 0; 0; 0; 0; 0; 0; 3; 0; 1; 0;
           0; 7; 7; 7; 7; 7; 7; 7; 7; 0; 7]
  = stream 0 [7; 7; 7; 7; 7; 7; 7; 7; 7]
  /\ PRS.packed_size (PRS.mkMeta 3 1 24 0 11)
     = len [7; 7; 7; 7; 7; 7; 7; 7; 7] + (len [7; 7; 7; 7; 7; 7; 7; 7; 7] + 7) / 8
  /\ len [7; 7; 7; 7; 7; 7; 7; 7; 7] <= PRS.packed_size (PRS.mkMeta 3 1 24 0 11).
Proof.
  apply (pack_stores_literals
           (PRS.mkWriter (PRS.mkMeta 3 1 24 0 0) 3 9 [7; 7; 7; 7; 7; 7; 7; 7; 7])).
  - repeat constructor; unfold is_byte; lia.
  - vm_compute. reflexivity.
Defined.

(** X4. [pack] returns exactly when the header can be written: the flag and
    the bytes per pixel are bytes, width and height fit 16 bits, and the
    payload size fits 32 bits. Otherwise it raises. *)
Theorem pack_returns_iff (wr : PRS.PrsWriter) :
  wf_bytes (PRS.input wr) ->
  (exists r, PRS.pack wr = Ok r)
  <-> (is_byte (PRS.flag (PRS.metadata wr))
       /\ is_byte (PRS.bpp (PRS.metadata wr) / 8)
       /\ 0 <= PRS.width (PRS.metadata wr) < 65536
       /\ 0 <= PRS.height (PRS.metadata wr) < 65536
       /\ len (PRS.input wr) + (len (PRS.input wr) + 7) / 8 < 4294967296).
Proof.
  intros Hwf. split.
  - intros [[file md] Hp].
    destruct (pack_payload wr file md Hwf Hp) as (_ & Hsz & _).
    destruct (PRS.pack_header (PRS.metadata wr)) as [hdr|e] eqn:Hh.
    2:{ unfold PRS.pack in Hp. rewrite Hh in Hp. discriminate. }
    destruct (pack_header_inv _ _ Hh) as [(Hf & Hb & Hw & Hht) _].
    rewrite (pack_after_header wr hdr Hwf Hh) in Hp.
    destruct (pack_u32 _) as [sz|] eqn:Hpz; [|discriminate].
    cbn [mbind result_bind] in Hp. injection Hp as _ Hmd.
    destruct (pack_u32_inv _ _ Hpz) as (Hrange & _ & _).
    rewrite <- Hmd in Hsz. cbn [PRS.packed_size] in Hsz.
    unfold is_byte in *. lia.
  - intros (Hf & Hb & Hw & Hht & Hsz).
    eexists. apply (pack_literals wr Hwf Hf Hb Hw Hht).
    rewrite stream_length by lia. change (Z.of_nat 0) with 0.
    rewrite Z.sub_0_r. exact Hsz.
Qed.

Lemma pack_returns_iff_witness :
  ~ (exists r, PRS.pack (PRS.mkWriter (PRS.mkMeta 70000 0 24 0 0) 3 210000 []) = Ok r).
Proof.
  intros Hex.
  apply (proj1 (pack_returns_iff
           (PRS.mkWriter (PRS.mkMeta 70000 0 24 0 0) 3 210000 [])
           ltac:(constructor))) in Hex.
  cbn in Hex. lia.
Defined.

(** ** Header parsing *)

Lemma read_prs_meta_data_inv (f : list Z) (md : PRS.PrsMetaData) :
  PRS.read_prs_meta_data f = Ok md ->
  exists c d s0 s1 s2 s3 z0 z1 z2 z3 w0 w1 h0 h1 rest,
    f = [0x59; 0x42; c; d; s0; s1; s2; s3; z0; z1; z2; z3; w0; w1; h0; h1] ++ rest
    /\ (d = 3 \/ d = 4)
    /\ md = PRS.mkMeta (w0 + 256 * w1) (h0 + 256 * h1) (d * 8) c
                       (s0 + 256 * s1 + 65536 * s2 + 16777216 * s3).
Proof.
  intros Hr.
  assert (Hlen : (16 <= length f)%nat).
  { revert Hr. unfold PRS.read_prs_meta_data.
    destruct (negb _); [discriminate|].
    destruct (getitem _ 3) as [bpp|]; [|discriminate]. cbn [mbind result_bind].
    destruct (negb _); [discriminate|].
    destruct (unpack_u16 (take 2 (drop 12 _))); [|discriminate].
    cbn [mbind result_bind].
    destruct (unpack_u16 (take 2 (drop 14 (fread f 0 16)))) as [hh|] eqn:Hh;
      [|discriminate].
    intros _. unfold unpack_u16 in Hh.
    destruct (take 2 (drop 14 (fread f 0 16))) as [|b0 [|b1 [|? ?]]] eqn:Ht;
      try discriminate.
    apply (f_equal length) in Ht. unfold fread in Ht.
    rewrite length_take, length_drop, length_take, drop_0 in Ht.
    change (Z.to_nat 16) with 16%nat in Ht. cbn [length] in Ht. lia. }
  rewrite <- (take_drop 16 f) in Hr |- *.
  assert (Hl16 : length (take 16 f) = 16%nat) by (rewrite length_take; lia).
  destruct (take 16 f)
    as [|a0 [|a1 [|a2 [|a3 [|a4 [|a5 [|a6 [|a7 [|a8 [|a9 [|a10 [|a11 [|a12
        [|a13 [|a14 [|a15 [|? ?]]]]]]]]]]]]]]]]]; try discriminate.
  clear Hl16 Hlen. revert Hr. generalize (drop 16 f). intros rest.
  unfold PRS.read_prs_meta_data, fread. rewrite drop_0.
  change (Z.to_nat 16) with 16%nat.
  change (take 16 ([a0; a1; a2; a3; a4; a5; a6; a7; a8; a9; a10; a11; a12; a13;
                    a14; a15] ++ rest))
    with [a0; a1; a2; a3; a4; a5; a6; a7; a8; a9; a10; a11; a12; a13; a14; a15].
  change (take 2 [a0; a1; a2; a3; a4; a5; a6; a7; a8; a9; a10; a11; a12; a13;
                  a14; a15]) with [a0; a1].
  destruct (bool_decide ([a0; a1] = [89; 66])) eqn:Hm; [|discriminate].
  apply bool_decide_eq_true in Hm. injection Hm as -> ->.
  change (getitem [89; 66; a2; a3; a4; a5; a6; a7; a8; a9; a10; a11; a12; a13;
                   a14; a15] 3) with (@Ok Z a3).
  cbn [negb mbind result_bind].
  destruct (Z.eqb_spec a3 3) as [->|H3]; [|destruct (Z.eqb_spec a3 4) as [->|H4]];
    cbn [orb negb]; try discriminate.
  * intros [= <-]. do 14 eexists. exists rest. split; [reflexivity|]. auto.
  * intros [= <-]. do 14 eexists. exists rest. split; [reflexivity|]. auto.
Qed.

(** X5. [read_prs_meta_data] accepts exactly the files that have 16 header
    bytes, start with ["YB"] and give 3 or 4 bytes per pixel; it then returns
    the little-endian fields of the header, with [bpp] in bits. A wrong magic
    is reported first, whatever the rest of the file. *)
Theorem read_prs_meta_data_accepts (f : list Z) :
  (forall md, PRS.read_prs_meta_data f = Ok md <->
     exists c d s0 s1 s2 s3 z0 z1 z2 z3 w0 w1 h0 h1 rest,
       f = [0x59; 0x42; c; d; s0; s1; s2; s3; z0; z1; z2; z3; w0; w1; h0; h1] ++ rest
       /\ (d = 3 \/ d = 4)
       /\ md = PRS.mkMeta (w0 + 256 * w1) (h0 + 256 * h1) (d * 8) c
                          (s0 + 256 * s1 + 65536 * s2 + 16777216 * s3))
  /\ (take 2 f <> [0x59; 0x42] ->
      PRS.read_prs_meta_data f = Raise (ValueError "Not a valid PRS file")).
Proof.
  split.
  - intros md. split.
    + apply read_prs_meta_data_inv.
    + intros (c & d & s0 & s1 & s2 & s3 & z0 & z1 & z2 & z3 & w0 & w1 & h0 & h1
              & rest & -> & Hd & ->).
      apply read_header. exact Hd.
  - intros Hm. unfold PRS.read_prs_meta_data, fread. rewrite drop_0.
    change (Z.to_nat 16) with 16%nat.
    rewrite take_take. change (2 `min` 16)%nat with 2%nat.
    rewrite bool_decide_eq_false_2 by exact Hm. reflexivity.
Qed.

Lemma read_prs_meta_data_accepts_witness :
  PRS.read_prs_meta_data [0x42; 0x4d; 0x36; 0x00] = Raise (ValueError "Not a valid PRS file").
Proof.
  apply (proj2 (read_prs_meta_data_accepts [0x42; 0x4d; 0x36; 0x00])).
  discriminate.
Defined.

(** ** The dummy alpha channel *)

Section DummyAlpha.
Import PRS.

Lemma all_equal_at_spec (o : list Z) alpha idx :
  Forall (fun i => 0 <= i < len o) idx ->
  exists b, all_equal_at o alpha idx = Ok b
            /\ (b = true <-> forall i, In i idx -> o !!! Z.to_nat i = alpha).
Proof.
  induction 1 as [|i idx Hi _ IH].
  - exists true. split; [reflexivity|]. split; [intros _ i []|reflexivity].
  - cbn [all_equal_at].
    destruct (lookup_lt_is_Some_2 o (Z.to_nat i) ltac:(unfold len in Hi; lia)) as [v Hv].
    pose proof (getitem_nat _ _ _ Hv) as Hg. rewrite Z2Nat.id in Hg by lia.
    rewrite Hg. cbn [mbind result_bind].
    destruct (Z.eqb_spec v alpha) as [->|Hne]; cbn [negb].
    + destruct IH as (b & -> & Hb). exists b. split; [reflexivity|].
      rewrite Hb. split.
      * intros Hall j [<-|Hj]; [apply list_lookup_total_correct, Hv | auto].
      * intros Hall j Hj. apply Hall. right. exact Hj.
    + exists false. split; [reflexivity|]. split; [discriminate|].
      intros Hall. exfalso. apply Hne.
      rewrite <- (Hall i (or_introl eq_refl)).
      symmetry. apply list_lookup_total_correct, Hv.
Qed.

End DummyAlpha.

(** X6. [is_dummy_alpha_channel] needs a first pixel: on a buffer of fewer
    than four bytes it raises [IndexError]. Otherwise it answers [True]
    exactly when the first alpha byte is not [0xFF] and every alpha byte
    (the bytes at the indices [3, 7, 11, ...]) equals it. *)
Theorem is_dummy_alpha_channel_spec (o : list Z) :
  (len o < 4 -> PRS.is_dummy_alpha_channel o = Raise IndexError)
  /\ (4 <= len o ->
      exists b, PRS.is_dummy_alpha_channel o = Ok b
                /\ (b = true <->
                    o !!! 3%nat <> 0xFF
                    /\ forall k : nat, (k < length o)%nat -> (k mod 4 = 3)%nat ->
                                       o !!! k = o !!! 3%nat)).
Proof.
  split.
  - intros Hlen. unfold PRS.is_dummy_alpha_channel, getitem.
    change (3 <? 0) with false. cbn iota.
    destruct (Z.ltb_spec 3 (len o)); [lia|]. reflexivity.
  - intros Hlen. unfold PRS.is_dummy_alpha_channel.
    destruct (lookup_lt_is_Some_2 o 3 ltac:(unfold len in Hlen; lia)) as [a Ha].
    pose proof (getitem_nat _ _ _ Ha) as Hg. change (Z.of_nat 3) with 3 in Hg.
    rewrite Hg. cbn [mbind result_bind].
    rewrite (list_lookup_total_correct _ _ _ Ha).
    destruct (Z.eqb_spec a 255) as [->|Hne].
    + exists false. split; [reflexivity|]. split; [discriminate|]. intros [H _]. lia.
    + set (idx := map (fun k => 7 + 4 * k) (range 0 ((len o - 7 + 3) / 4))).
      assert (Hidx : forall i, In i idx <-> exists k, 0 <= k /\ i = 7 + 4 * k /\ i < len o).
      { intros i. unfold idx, range. rewrite in_map_iff. split.
        - intros (k & <- & Hk). apply in_map_iff in Hk as (m & <- & Hm).
          apply in_seq in Hm. exists (0 + Z.of_nat m). split; [lia|]. split; [reflexivity|].
          assert (0 <= (len o - 7 + 3) / 4 - 0 \/ (len o - 7 + 3) / 4 - 0 < 0) as [Hq|Hq] by lia.
          + pose proof (Z.mul_div_le (len o - 7 + 3) 4 ltac:(lia)). lia.
          + rewrite Z2Nat.nonpos in Hm; lia.
        - intros (k & Hk & -> & Hlt). exists k. split; [reflexivity|].
          apply in_map_iff. exists (Z.to_nat k). split; [lia|]. apply in_seq.
          assert (k + 1 <= (len o - 7 + 3) / 4).
          { apply Z.div_le_lower_bound; lia. }
          lia. }
      destruct (all_equal_at_spec o a idx) as (b & Hb & Hiff).
      { apply Forall_forall. intros i Hi. apply list_elem_of_In, Hidx in Hi.
        destruct Hi as (k & Hk & -> & Hlt). lia. }
      exists b. split; [exact Hb|]. rewrite Hiff. split.
      * intros Hall. split; [exact Hne|]. intros k Hk Hmod.
        destruct (decide (k = 3%nat)) as [->|Hk3];
          [apply list_lookup_total_correct, Ha|].
        assert (Hdm := Nat.div_mod_eq k 4).
        replace k with (Z.to_nat (7 + 4 * Z.of_nat (k / 4 - 1))) by lia.
        apply Hall, Hidx. exists (Z.of_nat (k / 4 - 1)).
        split; [lia|]. split; [reflexivity|]. unfold len. lia.
      * intros [_ Hall] i Hi. apply Hidx in Hi as (k & Hk & -> & Hlt).
        apply Hall; [unfold len in Hlt; lia|].
        replace (Z.to_nat (7 + 4 * k)) with (3 + (Z.to_nat k + 1) * 4)%nat by lia.
        rewrite Nat.Div0.mod_add. reflexivity.
Qed.

Lemma is_dummy_alpha_channel_spec_witness :
  exists b, PRS.is_dummy_alpha_channel [1; 2; 3; 0x77; 4; 5; 6; 0x77] = Ok b
            /\ (b = true <->
                [1; 2; 3; 0x77; 4; 5; 6; 0x77] !!! 3%nat <> 0xFF
                /\ forall k : nat,
                     (k < length [1; 2; 3; 0x77; 4; 5; 6; 0x77])%nat ->
                     (k mod 4 = 3)%nat ->
                     [1; 2; 3; 0x77; 4; 5; 6; 0x77] !!! k
                     = [1; 2; 3; 0x77; 4; 5; 6; 0x77] !!! 3%nat).
Proof.
  apply (proj2 (is_dummy_alpha_channel_spec [1; 2; 3; 0x77; 4; 5; 6; 0x77])).
  vm_compute. discriminate.
Defined.

(** X7. An image without pixels: when the header announces a width or a
    height of zero, the decode loop does not run; a file with 3 bytes per
    pixel is read as an empty buffer, and a file with 4 bytes per pixel makes
    the reader raise [IndexError], because the alpha test looks at
    [output[3]]. *)
Theorem decode_file_no_pixels (f : list Z) (md : PRS.PrsMetaData) :
  PRS.read_prs_meta_data f = Ok md ->
  PRS.width md * PRS.height md = 0 ->
  (PRS.bpp md = 24 -> exists r, PRS.decode_file f = Ok r /\ PRS.r_output r = [])
  /\ (PRS.bpp md = 32 -> PRS.decode_file f = Raise IndexError).
Proof.
  intros Hmd Hzero.
  assert (Hdepth : 0 <= PRS.bpp md / 8).
  { destruct (read_prs_meta_data_inv f md Hmd)
      as (c & d & s0 & s1 & s2 & s3 & z0 & z1 & z2 & z3 & w0 & w1 & h0 & h1
          & rest & _ & Hd & ->).
    cbn [PRS.bpp]. rewrite Z.div_mul by lia. lia. }
  unfold PRS.decode_file. rewrite Hmd. cbn [mbind result_bind].
  unfold PRS.unpack, PRS.PrsReader_init.
  cbn [PRS.r_packed_size PRS.r_output PRS.r_flag PRS.r_depth PRS.r_format
       PRS.r_width PRS.r_height].
  rewrite Hzero. cbn [Z.mul Z.to_nat replicate].
  assert (Hloop : forall fuel p rem,
             PRS.unpack_loop fuel f (PRS.mkUnpack p rem 0 0 0 [])
             = Ok (PRS.mkUnpack p rem 0 0 0 [])).
  { intros fuel p rem. destruct fuel; cbn [PRS.unpack_loop]; unfold PRS.loop_cond;
      cbn [PRS.remaining PRS.dst PRS.output]; rewrite andb_false_r; reflexivity. }
  rewrite Hloop. cbn [mbind result_bind PRS.output].
  assert (Hdelta : PRS.delta_decode (PRS.bpp md / 8) [] = Ok []).
  { unfold PRS.delta_decode. rewrite range_nil; [reflexivity|]. unfold len. simpl. lia. }
  assert (Hout : (if negb (Z.land (PRS.flag md) 128 =? 0)
                  then PRS.delta_decode (PRS.bpp md / 8) [] else Ok []) = Ok [])
    by (destruct (negb _); [apply Hdelta | reflexivity]).
  rewrite Hout. cbn [mbind result_bind]. split; intros ->.
  - cbn. eexists. split; reflexivity.
  - reflexivity.
Qed.

Lemma decode_file_no_pixels_witness :
  PRS.decode_file [0x59; 0x42; 0x80; 4; 0; 0; 0; 0; 0; 0; 0; 0; 0; 0; 5; 0]
  = Raise IndexError.
Proof.
  apply (proj2 (decode_file_no_pixels
                  [0x59; 0x42; 0x80; 4; 0; 0; 0; 0; 0; 0; 0; 0; 0; 0; 5; 0]
                  (PRS.mkMeta 0 5 32 0x80 0) eq_refl eq_refl)).
  reflexivity.
Defined.

(** ** The back-reference copy *)

Section BackRefCopy.
Import PRS.

Lemma copy_loop_copied (o : list Z) (d s : nat) (m : nat) : forall (a : nat) cur,
  wf_bytes o -> (1 <= s <= d)%nat -> (d + a + m <= length o)%nat ->
  length cur = length o -> copied o d s a cur ->
  exists o',
    foldl (copy_at (Z.of_nat d) (Z.of_nat s)) (Ok cur)
          (map (fun k => 0 + Z.of_nat k) (seq a m)) = Ok o'
    /\ length o' = length o /\ copied o d s (a + m) o'.
Proof.
  induction m as [|m IH]; intros a cur Hwf Hs Hlen Hcur Hinv.
  - exists cur. rewrite Nat.add_0_r. auto.
  - cbn [seq map foldl]. unfold copy_at at 2. cbn [mbind result_bind].
    rewrite Z.add_0_l.
    assert (Hsrc : cur !! (d - s + a)%nat = o !! (d - s + a mod s)%nat).
    { rewrite Hinv. destruct (decide (d <= d - s + a < d + a)%nat) as [Hge|Hlt].
      - f_equal. f_equal.
        replace (d - s + a - d)%nat with (a - s)%nat by lia.
        replace a with (a - s + 1 * s)%nat at 2 by lia.
        rewrite Nat.Div0.mod_add. reflexivity.
      - f_equal. rewrite Nat.mod_small by lia. reflexivity. }
    assert (Hmod : (a mod s < s)%nat) by (apply Nat.mod_upper_bound; lia).
    destruct (lookup_lt_is_Some_2 o (d - s + a mod s)%nat ltac:(lia)) as [v Hv].
    pose proof (wf_bytes_lookup _ _ _ Hwf Hv) as Hbv.
    rewrite <- Hsrc in Hv.
    replace (Z.of_nat d - Z.of_nat s + Z.of_nat a) with (Z.of_nat (d - s + a)) by lia.
    rewrite (getitem_nat _ _ _ Hv). cbn [mbind result_bind].
    rewrite setitem_ok by (auto; unfold len; lia).
    replace (Z.to_nat (Z.of_nat d + Z.of_nat a)) with (d + a)%nat by lia.
    destruct (IH (S a) (<[(d + a)%nat := v]> cur) Hwf Hs ltac:(lia)
                 ltac:(rewrite length_insert; exact Hcur)) as (o' & Hf & Hlo & Hc).
    + intros j. destruct (decide (j = d + a)%nat) as [->|Hne].
      * rewrite list_lookup_insert_eq by lia.
        destruct (decide _); [|lia].
        replace (d + a - d)%nat with a by lia. rewrite <- Hsrc. symmetry. exact Hv.
      * rewrite list_lookup_insert_ne by lia. rewrite Hinv.
        destruct (decide (d <= j < d + a)%nat);
          destruct (decide (d <= j < d + S a)%nat); try lia; reflexivity.
    + exists o'. split; [exact Hf|]. split; [exact Hlo|].
      replace (a + S m)%nat with (S a + m)%nat by lia. exact Hc.
Qed.

End BackRefCopy.

Lemma backref_applied (o : list Z) (d s n : nat) (length : Z) :
  wf_bytes o ->
  (1 <= s <= d)%nat -> (d < List.length o)%nat -> 0 <= length ->
  n = Z.to_nat (Z.min length (len o - Z.of_nat d)) ->
  exists o',
    PRS.apply_token (PRS.BackRef (Z.of_nat s - 1) length) o (Z.of_nat d)
    = Ok (o', Z.of_nat d + Z.of_nat n)
    /\ List.length o' = List.length o
    /\ forall j : nat,
         o' !! j = if decide (d <= j < d + n)%nat
                   then o !! (d - s + (j - d) mod s)%nat
                   else o !! j.
Proof.
  intros Hwf Hs Hd Hlen ->. cbn [PRS.apply_token].
  replace (Z.of_nat s - 1 + 1) with (Z.of_nat s) by lia.
  destruct (Z.ltb_spec (Z.of_nat d) (Z.of_nat s)); [lia|].
  unfold PRS.copy_back, range. rewrite Z.sub_0_r.
  destruct (copy_loop_copied o d s (Z.to_nat (Z.min length (len o - Z.of_nat d))) 0 o
              Hwf Hs ltac:(unfold len; lia) eq_refl) as (o' & Hf & Hlo & Hc).
  { intros j. destruct (decide _); [lia | reflexivity]. }
  rewrite Hf. cbn [mbind result_bind]. exists o'.
  split; [f_equal; f_equal; unfold len; lia|]. split; [exact Hlo|].
  exact Hc.
Qed.

(** X8. A back-reference with back-distance [s = shift + 1 <= dst] always
    succeeds. It copies [n = min(length, len(output) - dst)] bytes, one at a
    time, so the copy may overlap its source: the bytes written at
    [dst .. dst + n - 1] repeat the [s] bytes before [dst] (with [s = 1], the
    byte before [dst] is repeated [n] times). Everything else in the buffer,
    and its length, is unchanged, and the cursor moves by [n]. *)
Theorem backref_copy (o : list Z) (d s n : nat) (length : Z) :
  wf_bytes o ->
  (1 <= s <= d)%nat -> (d < List.length o)%nat -> 0 <= length ->
  n = Z.to_nat (Z.min length (len o - Z.of_nat d)) ->
  exists o',
    PRS.apply_token (PRS.BackRef (Z.of_nat s - 1) length) o (Z.of_nat d)
    = Ok (o', Z.of_nat d + Z.of_nat n)
    /\ List.length o' = List.length o
    /\ forall j : nat,
         o' !! j = if decide (d <= j < d + n)%nat
                   then o !! (d - s + (j - d) mod s)%nat
                   else o !! j.
Proof. exact (backref_applied o d s n length). Qed.

Lemma backref_copy_witness :
  exists o',
    PRS.apply_token (PRS.BackRef (Z.of_nat 2 - 1) 5) [0x41; 0x42; 0; 0; 0; 0; 0; 9]
                    (Z.of_nat 2)
    = Ok (o', Z.of_nat 2 + Z.of_nat 5)
    /\ List.length o' = List.length [0x41; 0x42; 0; 0; 0; 0; 0; 9]
    /\ forall j : nat,
         o' !! j = if decide (2 <= j < 2 + 5)%nat
                   then [0x41; 0x42; 0; 0; 0; 0; 0; 9] !! (2 - 2 + (j - 2) mod 2)%nat
                   else [0x41; 0x42; 0; 0; 0; 0; 0; 9] !! j.
Proof.
  apply (backref_copy [0x41; 0x42; 0; 0; 0; 0; 0; 9] 2 2 5 5).
  - repeat constructor; unfold is_byte; lia.
  - lia.
  - simpl. lia.
  - lia.
  - reflexivity.
Defined.

(** ** What one iteration of the decoder does in each branch *)

Section DecoderBranches.
Import PRS.

Lemma read_token_branches (f : list Z) (st : UnpackState) (b1 : Z) :
  fread1 f (pos st) = Ok b1 ->
  (Z.land (ctl st) (bit st) = 0 ->
   read_token f st = Token (Literal b1) (S (pos st)) (remaining st - 1))
  /\ (Z.land (ctl st) (bit st) <> 0 -> Z.land b1 0x80 = 0 ->
      (Z.land b1 3 = 3 ->
       read_token f st
       = Token (RawRun (Z.shiftr b1 2 + 9)
                       (fread f (S (pos st)) (Z.shiftr b1 2 + 9)))
           (S (pos st) + length (fread f (S (pos st)) (Z.shiftr b1 2 + 9)))
           (remaining st - 1 - len (fread f (S (pos st)) (Z.shiftr b1 2 + 9))))
      /\ (Z.land b1 3 <> 3 ->
          read_token f st
          = Token (BackRef (Z.shiftr b1 2) (Z.land b1 3 + 2))
              (S (pos st)) (remaining st - 1)))
  /\ (forall n data p r,
        read_token f st = Token (RawRun n data) p r ->
        Z.land (ctl st) (bit st) <> 0 /\ Z.land b1 0x80 = 0
        /\ Z.land b1 3 = 3 /\ n = Z.shiftr b1 2 + 9).
Proof.
  intros Hb. unfold read_token. rewrite Hb.
  split; [|split].
  - intros ->. reflexivity.
  - intros Hc H80.
    destruct (Z.eqb_spec (Z.land (ctl st) (bit st)) 0); [contradiction|].
    rewrite H80. cbn [Z.eqb negb]. split; intros H3.
    + rewrite H3. reflexivity.
    + destruct (Z.eqb_spec (Z.land b1 3) 3); [contradiction | reflexivity].
  - intros n data p r.
    destruct (Z.eqb_spec (Z.land (ctl st) (bit st)) 0); [discriminate|].
    destruct (Z.eqb_spec (Z.land b1 128) 0) as [H80|H80]; cbn [negb].
    + destruct (Z.eqb_spec (Z.land b1 3) 3) as [H3|H3]; [|discriminate].
      intros [= <- _ _ _]. auto.
    + repeat match goal with
             | |- context [fread1 ?f ?p] => destruct (fread1 f p)
             | |- context [getitem ?l ?i] => destruct (getitem l i)
             | |- context [if ?b then _ else _] => destruct b
             end; discriminate.
Qed.

Lemma unpack_step_token (f : list Z) (st0 st : UnpackState) (t : token)
    (p : nat) (r : Z) :
  next_bit f st0 = Ok st -> 0 < remaining st ->
  read_token f st = Token t p r ->
  unpack_step f st0
  = match apply_token t (output st) (dst st) with
    | Raise e => Throw e
    | Ok (out, d) => Continue (mkUnpack p r d (bit st) (ctl st) out)
    end.
Proof.
  intros Hnb Hrem Hrt. unfold unpack_step. rewrite Hnb.
  destruct (Z.leb_spec (remaining st) 0); [lia|]. rewrite Hrt. reflexivity.
Qed.

End DecoderBranches.

(** C3, as the code has it. In an iteration that reads the byte [b1] after
    moving to the next control bit: when the control bit is clear, [b1] is
    stored at [output[dst]] as a literal and [dst] moves by one. The split
    into [mode = b1 & 3] and [length = b1 >> 2] is made in the branch where
    the control bit is set and [b1 & 0x80 == 0]: there [mode == 3] is a raw
    run, which reads [length + 9] payload bytes and assigns them to
    [output[dst : dst + length + 9]], moving [dst] by the number of bytes
    read; any other mode is a short back-reference with back-distance
    [(b1 >> 2) + 1] and copy length [(b1 & 3) + 2], which raises the
    invalid-offset error when the distance exceeds [dst] and otherwise
    copies, byte by byte, the bytes that far back, clamped to the end of the
    buffer. A raw run is decoded only in that branch. *)
Theorem decoder_branches (f : list Z) (st0 st : PRS.UnpackState) (b1 : Z) :
  PRS.next_bit f st0 = Ok st -> 0 < PRS.remaining st ->
  fread1 f (PRS.pos st) = Ok b1 ->
  (Z.land (PRS.ctl st) (PRS.bit st) = 0 ->
   0 <= PRS.dst st < len (PRS.output st) -> is_byte b1 ->
   PRS.unpack_step f st0
   = PRS.Continue
       (PRS.mkUnpack (S (PRS.pos st)) (PRS.remaining st - 1) (PRS.dst st + 1)
          (PRS.bit st) (PRS.ctl st)
          (<[Z.to_nat (PRS.dst st) := b1]> (PRS.output st))))
  /\ (Z.land (PRS.ctl st) (PRS.bit st) <> 0 -> Z.land b1 0x80 = 0 ->
      (Z.land b1 3 = 3 ->
       PRS.unpack_step f st0
       = PRS.Continue
           (PRS.mkUnpack
              (S (PRS.pos st) + length (fread f (S (PRS.pos st)) (Z.shiftr b1 2 + 9)))
              (PRS.remaining st - 1 - len (fread f (S (PRS.pos st)) (Z.shiftr b1 2 + 9)))
              (PRS.dst st + len (fread f (S (PRS.pos st)) (Z.shiftr b1 2 + 9)))
              (PRS.bit st) (PRS.ctl st)
              (take (Z.to_nat (PRS.dst st)) (PRS.output st)
               ++ fread f (S (PRS.pos st)) (Z.shiftr b1 2 + 9)
               ++ drop (Z.to_nat (PRS.dst st + (Z.shiftr b1 2 + 9))) (PRS.output st))))
      /\ (Z.land b1 3 <> 3 ->
          (PRS.dst st < Z.shiftr b1 2 + 1 ->
           PRS.unpack_step f st0 = PRS.Throw (ValueError "Invalid offset value"))
          /\ (0 <= b1 -> Z.shiftr b1 2 + 1 <= PRS.dst st < len (PRS.output st) ->
              wf_bytes (PRS.output st) ->
              exists o',
                PRS.unpack_step f st0
                = PRS.Continue
                    (PRS.mkUnpack (S (PRS.pos st)) (PRS.remaining st - 1)
                       (PRS.dst st
                        + Z.min (Z.land b1 3 + 2) (len (PRS.output st) - PRS.dst st))
                       (PRS.bit st) (PRS.ctl st) o')
                /\ length o' = length (PRS.output st)
                /\ forall j : nat,
                     o' !! j
                     = if decide (Z.to_nat (PRS.dst st) <= j
                                  < Z.to_nat (PRS.dst st)
                                    + Z.to_nat (Z.min (Z.land b1 3 + 2)
                                                  (len (PRS.output st) - PRS.dst st)))%nat
                       then PRS.output st
                              !! (Z.to_nat (PRS.dst st) - Z.to_nat (Z.shiftr b1 2 + 1)
                                  + (j - Z.to_nat (PRS.dst st))
                                    mod Z.to_nat (Z.shiftr b1 2 + 1))%nat
                       else PRS.output st !! j)))
  /\ (forall n data p r,
        PRS.read_token f st = PRS.Token (PRS.RawRun n data) p r ->
        Z.land (PRS.ctl st) (PRS.bit st) <> 0 /\ Z.land b1 0x80 = 0
        /\ Z.land b1 3 = 3 /\ n = Z.shiftr b1 2 + 9).
Proof.
  intros Hnb Hrem Hb.
  destruct (read_token_branches f st b1 Hb) as (Hlit & Hset & Honly).
  split; [|split; [|exact Honly]].
  - intros Hc Hd Hbyte.
    rewrite (unpack_step_token f st0 st _ _ _ Hnb Hrem (Hlit Hc)).
    cbn [PRS.apply_token]. rewrite setitem_ok by assumption. reflexivity.
  - intros Hc H80. destruct (Hset Hc H80) as [Hraw Hback]. split.
    + intros H3.
      rewrite (unpack_step_token f st0 st _ _ _ Hnb Hrem (Hraw H3)).
      reflexivity.
    + intros H3. specialize (Hback H3).
      rewrite (unpack_step_token f st0 st _ _ _ Hnb Hrem Hback). split.
      * intros Hfar. cbn [PRS.apply_token].
        destruct (Z.ltb_spec (PRS.dst st) (Z.shiftr b1 2 + 1)); [reflexivity|lia].
      * intros Hb0 Hd Hwf.
        assert (Hsh : 0 <= Z.shiftr b1 2) by (apply Z.shiftr_nonneg; exact Hb0).
        assert (Hl : 0 <= Z.land b1 3 + 2).
        { assert (0 <= Z.land b1 3) by (apply Z.land_nonneg; lia). lia. }
        destruct (backref_applied (PRS.output st) (Z.to_nat (PRS.dst st))
                    (Z.to_nat (Z.shiftr b1 2 + 1))
                    (Z.to_nat (Z.min (Z.land b1 3 + 2)
                                 (len (PRS.output st) - PRS.dst st)))
                    (Z.land b1 3 + 2) Hwf ltac:(lia) ltac:(unfold len in Hd; lia) Hl)
          as (o' & Happ & Hlen & Hpt).
        { rewrite Z2Nat.id by lia. reflexivity. }
        rewrite !Z2Nat.id in Happ by (unfold len in *; lia).
        replace (Z.shiftr b1 2 + 1 - 1) with (Z.shiftr b1 2) in Happ by lia.
        rewrite Happ. exists o'. split; [reflexivity|]. split; [exact Hlen|exact Hpt].
Qed.

Lemma decoder_branches_witness :
  PRS.unpack_step (sample_header 11 ++ [0x80; 0x03; 1; 2; 3; 4; 5; 6; 7; 8; 9])
                  (PRS.mkUnpack 16 11 0 0 0 [0; 0; 0])
  = PRS.Continue (PRS.mkUnpack 27 0 9 0x80 0x80 [1; 2; 3; 4; 5; 6; 7; 8; 9]).
Proof.
  apply (proj1 (proj1 (proj2 (decoder_branches
           (sample_header 11 ++ [0x80; 0x03; 1; 2; 3; 4; 5; 6; 7; 8; 9])
           (PRS.mkUnpack 16 11 0 0 0 [0; 0; 0])
           (PRS.mkUnpack 17 10 0 0x80 0x80 [0; 0; 0]) 0x03
           eq_refl ltac:(cbn; lia) eq_refl))
         ltac:(discriminate) eq_refl)).
  reflexivity.
Defined.

(** ** The decoded length *)

Section DecodedLength.
Import PRS.

Lemma read_token_backref_length f st shift length p r :
  read_token f st = Token (BackRef shift length) p r -> 0 <= length.
Proof.
  unfold read_token.
  repeat match goal with
         | |- context [fread1 ?f ?p] => destruct (fread1 f p)
         | |- context [getitem ?l ?i] =>
             let H := fresh "Hg" in destruct (getitem l i) eqn:H
         | |- context [if ?b then _ else _] => destruct b
         end;
    intros [= <- <- <- <-] || discriminate;
    first [ eapply length_table_nonneg; eassumption
          | match goal with
            | |- 0 <= Z.land ?x ?m + _ => pose proof (Z.land_nonneg x m); lia
            end ].
Qed.

Lemma next_bit_same f st st1 :
  next_bit f st = Ok st1 -> dst st1 = dst st /\ output st1 = output st.
Proof.
  unfold next_bit. destruct (_ =? 0).
  - destruct (fread1 f (pos st)); intros [= <-]. auto.
  - intros [= <-]. auto.
Qed.

Lemma unpack_step_length f st st' :
  loop_cond st = true -> 0 <= dst st -> raw_run_fits f st ->
  unpack_step f st = Continue st' ->
  length (output st') = length (output st) /\ 0 <= dst st'.
Proof.
  intros Hc Hd Hfit. unfold unpack_step.
  destruct (next_bit f st) as [st1|] eqn:Hn; [|discriminate].
  destruct (next_bit_same _ _ _ Hn) as [Hd1 Ho1].
  destruct (Z.leb_spec (remaining st1) 0); [discriminate|].
  destruct (read_token f st1) as [t p r| |] eqn:Ht; try discriminate.
  destruct (apply_token t (output st1) (dst st1)) as [[o d]|] eqn:Ha; [|discriminate].
  intros [= <-]. cbn [output dst].
  unfold loop_cond in Hc. apply andb_true_iff in Hc as [_ Hlt]. apply Z.ltb_lt in Hlt.
  pose proof (apply_token_length _ _ _ _ _ Ha) as Hlen.
  destruct t as [v|n data|shift length]; cbn [apply_token] in Ha.
  - destruct (setitem _ _ _); [|discriminate]. injection Ha as _ <-.
    rewrite Hlen, Ho1. split; [reflexivity | lia].
  - destruct (Hfit st1 n data p r Hn ltac:(lia) Ht) as [Hdata Hend].
    injection Ha as _ <-. split; [|pose proof (len_nonneg data); lia].
    rewrite Hlen, !length_app, length_take, length_drop.
    rewrite <- Ho1. unfold len in *. lia.
  - destruct (_ <? _); [discriminate|].
    destruct (copy_back _ _ _ _); [|discriminate]. injection Ha as _ <-.
    apply read_token_backref_length in Ht.
    rewrite Hlen, Ho1. split; [reflexivity|]. rewrite Ho1 in *. lia.
Qed.

Lemma unpack_step_break_same f st st' :
  unpack_step f st = Break st' -> output st' = output st.
Proof.
  unfold unpack_step. destruct (next_bit f st) as [st1|] eqn:Hn; [|discriminate].
  destruct (next_bit_same _ _ _ Hn) as [_ Ho1].
  destruct (_ <=? 0); [intros [= <-]; exact Ho1|].
  destruct (read_token f st1) as [t p r| |]; try discriminate.
  - destruct (apply_token _ _ _) as [[o d]|]; discriminate.
  - intros [= <-]. exact Ho1.
Qed.

Lemma unpack_loop_length f fuel : forall st st',
  0 <= dst st ->
  (forall s, reaches f st s -> loop_cond s = true -> raw_run_fits f s) ->
  unpack_loop fuel f st = Ok st' ->
  length (output st') = length (output st).
Proof.
  induction fuel as [|fuel IH]; intros st st' Hd Hfit; cbn [unpack_loop].
  - destruct (loop_cond st); [discriminate|]. intros [= <-]. reflexivity.
  - destruct (loop_cond st) eqn:Hc; [|intros [= <-]; reflexivity].
    destruct (unpack_step f st) as [st1|st1|e] eqn:Hs; [| |discriminate].
    + destruct (unpack_step_length f st st1 Hc Hd
                  (Hfit st (reaches_here f st) Hc) Hs) as [Hl Hd1].
      intros Hrun. rewrite <- Hl. apply IH; auto.
      intros s Hr. apply Hfit. eapply reaches_step; eauto.
    + intros [= <-]. f_equal. eapply unpack_step_break_same; eauto.
Qed.

Lemma delta_decode_length idx : forall depth (acc : result (list Z)) o o',
  acc = Ok o -> foldl (delta_decode_at depth) acc idx = Ok o' -> length o' = length o.
Proof.
  induction idx as [|i idx IH]; intros depth acc o o' -> Hf.
  - injection Hf as <-. reflexivity.
  - cbn [foldl] in Hf.
    destruct (delta_decode_at depth (Ok o) i) as [o1|e] eqn:Hc.
    + rewrite (IH _ _ o1 o' eq_refl Hf).
      unfold delta_decode_at in Hc. cbn [mbind result_bind] in Hc.
      destruct (getitem o i); [|discriminate]. cbn [mbind result_bind] in Hc.
      destruct (getitem o (i - depth)); [|discriminate].
      cbn [mbind result_bind] in Hc. eapply setitem_length; eauto.
    + assert (Hraise : forall l, foldl (delta_decode_at depth) (Raise e) l = Raise e).
      { induction l as [|x l IHl]; [reflexivity|]. cbn [foldl]. exact IHl. }
      rewrite Hraise in Hf. discriminate.
Qed.

End DecodedLength.

(** X9. When every raw run of the payload is read in full and ends inside
    the buffer, [unpack] returns a buffer of the length it started with,
    [width * height * depth] bytes for a reader made from the header: literals,
    back-references, the delta post-filter and an early end of the payload
    all keep the length. *)
Theorem unpack_keeps_length (f : list Z) (r r' : PRS.PrsReader) :
  (forall st, reaches f (unpack_start r) st -> PRS.loop_cond st = true ->
              raw_run_fits f st) ->
  PRS.unpack f r = Ok r' ->
  length (PRS.r_output r') = length (PRS.r_output r).
Proof.
  intros Hfit. unfold PRS.unpack. fold (unpack_start r).
  destruct (PRS.unpack_loop _ f (unpack_start r)) as [st|] eqn:Hl; [|discriminate].
  cbn [mbind result_bind].
  apply unpack_loop_length in Hl; [|simpl; lia|exact Hfit].
  cbn [unpack_start PRS.output] in Hl.
  destruct (negb _).
  - destruct (PRS.delta_decode _ _) as [o|] eqn:Hd; [|discriminate].
    cbn [mbind result_bind]. unfold PRS.delta_decode in Hd.
    apply (delta_decode_length _ _ _ _ _ eq_refl) in Hd.
    destruct (PRS.r_depth r =? 4).
    + destruct (PRS.is_dummy_alpha_channel o); [|discriminate].
      cbn [mbind result_bind]. intros [= <-]. cbn. lia.
    + cbn [mbind result_bind]. intros [= <-]. cbn. lia.
  - cbn [mbind result_bind].
    destruct (PRS.r_depth r =? 4).
    + destruct (PRS.is_dummy_alpha_channel _); [|discriminate].
      cbn [mbind result_bind]. intros [= <-]. cbn. lia.
    + cbn [mbind result_bind]. intros [= <-]. cbn. lia.
Qed.

Lemma unpack_keeps_length_witness :
  length (PRS.r_output (PRS.mkReader 1 1 3 0 3 [0x41; 0x41; 0x41] PRS.RGB))
  = length (PRS.r_output (PRS.PrsReader_init (PRS.mkMeta 1 1 24 0 3))).
Proof.
  apply (unpack_keeps_length (sample_header 3 ++ [0x40; 0x41; 0x00])).
  - intros st Hr Hc.
    assert (Hst : st = PRS.mkUnpack 16 3 0 0 0 [0; 0; 0]
                  \/ st = PRS.mkUnpack 18 1 1 128 64 [65; 0; 0]).
    { inversion Hr as [|? st1 ? Hc0 Hs Hr1]; subst; [left; reflexivity|].
      vm_compute in Hs. injection Hs as <-.
      inversion Hr1 as [|? st2 ? Hc1 Hs1 Hr2]; subst; [right; reflexivity|].
      vm_compute in Hs1. injection Hs1 as <-.
      inversion Hr2 as [|? st3 ? Hc2 Hs2 Hr3]; subst; vm_compute in Hc; discriminate. }
    destruct Hst as [-> | ->]; intros st1 n data p r Hn Hrem Ht;
      vm_compute in Hn; injection Hn as <-; vm_compute in Ht; discriminate.
  - vm_compute. reflexivity.
Defined.

(** ** The encoder never selects a match *)

Section NoMatch.
Import PRS.

Lemma pack_step_empty_table (inp : list Z) (st st' : PackState) :
  hash_table st = ∅ -> 0 <= input_index st ->
  pack_step inp st = Ok st' ->
  hash_table st' = ∅ /\ input_index st' = input_index st + 1.
Proof.
  intros Htbl Hidx. unfold pack_step. rewrite Htbl.
  rewrite find_longest_match_empty by exact Hidx.
  cbn [mbind result_bind]. unfold encode_token. cbn [Z.ltb Z.compare].
  destruct (getitem inp (input_index st)) as [b|]; [|discriminate].
  cbn [mbind result_bind].
  destruct (append (control_buffer st) b) as [cb|]; [|discriminate].
  cbn [mbind result_bind].
  destruct (flush_group _ _ _ _) as [[[[c m] cb'] o]|]; [|discriminate].
  cbn [mbind result_bind]. rewrite update_hash_table_literal.
  cbn [mbind result_bind]. intros [= <-]. split; reflexivity.
Qed.

End NoMatch.

(** X24. No run of the encoder selects a match. The hash table is fed only
    with the positions of a match ([range(input_index - match_length,
    input_index)] is empty after a literal), so from a state with an empty
    table every iteration of the loop of [pack] leaves the table empty and
    advances by one byte, and [find_longest_match] answers [(0, 0)] in every
    state that is reached: the match forms of the token encoder are never
    used. *)
Theorem pack_selects_no_match (inp : list Z) (n : nat) (st0 st : PRS.PackState) :
  PRS.hash_table st0 = ∅ -> 0 <= PRS.input_index st0 ->
  nsteps (enc_step inp) n st0 st ->
  PRS.hash_table st = ∅
  /\ PRS.input_index st = PRS.input_index st0 + Z.of_nat n
  /\ PRS.find_longest_match inp (PRS.hash_table st) (PRS.input_index st) = Ok (0, 0).
Proof.
  intros Htbl Hidx Hsteps.
  assert (Hinv : PRS.hash_table st = ∅
                 /\ PRS.input_index st = PRS.input_index st0 + Z.of_nat n).
  { induction Hsteps as [st|n st0 st1 st [_ Hstep] _ IH].
    - split; [exact Htbl|lia].
    - destruct (pack_step_empty_table inp st0 st1 Htbl Hidx Hstep) as [Ht1 Hi1].
      destruct (IH Ht1 ltac:(lia)) as [Ht Hi]. split; [exact Ht|lia]. }
  destruct Hinv as [Ht Hi]. split; [exact Ht|]. split; [exact Hi|].
  rewrite Ht. apply find_longest_match_empty. lia.
Qed.

Lemma pack_selects_no_match_witness :
  PRS.hash_table (PRS.mkPack 1 0 2 [1] [] ∅) = ∅
  /\ PRS.input_index (PRS.mkPack 1 0 2 [1] [] ∅)
     = PRS.input_index (PRS.mkPack 0 0 1 [] [] ∅) + Z.of_nat 1
  /\ PRS.find_longest_match [1; 2; 3; 1; 2; 3]
       (PRS.hash_table (PRS.mkPack 1 0 2 [1] [] ∅))
       (PRS.input_index (PRS.mkPack 1 0 2 [1] [] ∅)) = Ok (0, 0).
Proof.
  apply (pack_selects_no_match [1; 2; 3; 1; 2; 3] 1 (PRS.mkPack 0 0 1 [] [] ∅)).
  - reflexivity.
  - cbn. lia.
  - apply nsteps_once. split; [vm_compute; reflexivity|].
    exact (pack_step_literal [] [2; 3; 1; 2; 3] 1 0 [] []
             ltac:(unfold is_byte; lia) ltac:(lia)).
Defined.

(** ** The match finder of the PRS encoder *)

Lemma getitem_in_range (l : list Z) (i : Z) :
  0 <= i < len l ->
  exists v, getitem l i = Ok v /\ l !! Z.to_nat i = Some v.
Proof.
  intros Hi. unfold len in Hi.
  destruct (lookup_lt_is_Some_2 l (Z.to_nat i) ltac:(lia)) as [v Hv].
  exists v. split; [|exact Hv].
  rewrite <- (Z2Nat.id i) by lia. apply getitem_nat. exact Hv.
Qed.

Lemma common_prefix_spec (inp : list Z) (input_index offset max_length : Z) :
  forall (fuel : nat) (length : Z),
    0 <= offset < input_index -> input_index + max_length <= len inp ->
    0 <= length <= max_length -> (Z.to_nat (max_length - length) <= fuel)%nat ->
    exists l,
      PRS.common_prefix fuel inp input_index offset max_length length = Ok l
      /\ length <= l <= max_length
      /\ forall j, length <= j < l ->
           inp !! Z.to_nat (input_index + j) = inp !! Z.to_nat (offset + j).
Proof.
  induction fuel as [|fuel IH]; intros length Hoff Hmax Hlen Hfuel.
  - assert (length = max_length) by lia. subst length.
    exists max_length. cbn [PRS.common_prefix]. rewrite Z.ltb_irrefl.
    split; [reflexivity|]. split; [lia|]. intros j Hj. lia.
  - cbn [PRS.common_prefix].
    destruct (Z.ltb_spec length max_length) as [Hlt|Hge].
    + destruct (getitem_in_range inp (input_index + length) ltac:(lia))
        as (a & -> & Ha).
      destruct (getitem_in_range inp (offset + length) ltac:(lia))
        as (b & -> & Hb).
      cbn [mbind result_bind].
      destruct (Z.eqb_spec a b) as [->|Hne].
      * destruct (IH (length + 1) Hoff Hmax ltac:(lia) ltac:(lia))
          as (l & -> & Hl & Hrep).
        exists l. split; [reflexivity|]. split; [lia|].
        intros j Hj. destruct (Z.eq_dec j length) as [->|Hjl].
        -- rewrite Ha, Hb. reflexivity.
        -- apply Hrep. lia.
      * exists length. split; [reflexivity|]. split; [lia|]. intros j Hj. lia.
    + exists length. split; [reflexivity|]. split; [lia|]. intros j Hj. lia.
Qed.

Lemma scan_chain_spec (inp : list Z) (input_index max_offset max_length : Z)
    (chain : list Z) :
  forall match_length match_offset,
    input_index + max_length <= len inp -> 0 <= max_length ->
    Forall (fun offset => 0 <= offset < input_index) chain ->
    0 <= match_length <= max_length ->
    (0 < match_length ->
     1 <= match_offset <= max_offset
     /\ repeats inp input_index match_length match_offset) ->
    exists ml mo,
      PRS.scan_chain inp input_index max_offset max_length chain
                     match_length match_offset = Ok (ml, mo)
      /\ match_length <= ml <= max_length
      /\ (ml = match_length -> mo = match_offset)
      /\ (0 < ml -> 1 <= mo <= max_offset /\ repeats inp input_index ml mo).
Proof.
  induction chain as [|offset chain IH];
    intros match_length match_offset Hmax Hml Hchain Hcur Hinv.
  - exists match_length, match_offset. cbn. split; [reflexivity|].
    split; [lia|]. split; [reflexivity|exact Hinv].
  - apply Forall_cons in Hchain as [Hoff Hchain]. cbn [PRS.scan_chain].
    destruct (Z.gtb_spec (input_index - offset) max_offset) as [Hfar|Hnear].
    + apply IH; assumption.
    + destruct (common_prefix_spec inp input_index offset max_length
                  (Z.to_nat max_length) 0 Hoff Hmax ltac:(lia) ltac:(lia))
        as (l & -> & Hl & Hrep).
      cbn [mbind result_bind].
      assert (Hnew : 0 < l -> 1 <= input_index - offset <= max_offset
                              /\ repeats inp input_index l (input_index - offset)).
      { intros _. split; [lia|]. intros j Hj.
        replace (input_index - (input_index - offset) + j) with (offset + j) by lia.
        apply Hrep. lia. }
      destruct (Z.gtb_spec l match_length) as [Hbetter|Hworse].
      * destruct (Z.eqb_spec l max_length) as [Hfull|Hpart].
        -- exists l, (input_index - offset). split; [reflexivity|].
           split; [lia|]. split; [lia|exact Hnew].
        -- destruct (IH l (input_index - offset) Hmax Hml Hchain ltac:(lia) Hnew)
             as (ml & mo & -> & Hr & Hsame & Hres).
           exists ml, mo. split; [reflexivity|]. split; [lia|].
           split; [lia|exact Hres].
      * destruct (IH match_length match_offset Hmax Hml Hchain Hcur Hinv)
          as (ml & mo & -> & Hr & Hsame & Hres).
        exists ml, mo. split; [reflexivity|]. split; [lia|].
        split; [exact Hsame|exact Hres].
Qed.

(** X19. [find_longest_match] is sound for a hash table that holds earlier
    positions: at an index inside the input it returns, and what it returns
    is either no match, [(0, 0)], or a match that the decoder can copy: a
    length of 3 to [min(len(input) - input_index, 0x100)] bytes, a
    back-distance of 1 to [min(input_index, 0x2000)], and input bytes that
    repeat the bytes that far back. *)
Theorem find_longest_match_sound (inp : list Z) (hash_table : gmap Z (list Z))
    (input_index : Z) :
  0 <= input_index < len inp ->
  earlier_positions hash_table input_index ->
  exists match_length match_offset,
    PRS.find_longest_match inp hash_table input_index
    = Ok (match_length, match_offset)
    /\ ((match_length = 0 /\ match_offset = 0)
        \/ (3 <= match_length <= Z.min (len inp - input_index) 0x100
            /\ 1 <= match_offset <= Z.min input_index 0x2000
            /\ repeats inp input_index match_length match_offset)).
Proof.
  intros Hidx Hearlier. unfold PRS.find_longest_match.
  destruct (hash_total inp input_index ltac:(lia)) as [h ->].
  cbn [mbind result_bind].
  destruct (hash_table !! h) as [chain|] eqn:Hchain.
  2: { exists 0, 0. split; [reflexivity|]. left. split; reflexivity. }
  destruct (scan_chain_spec inp input_index (Z.min input_index 0x2000)
              (Z.min (len inp - input_index) 0x100) chain 0 0
              ltac:(lia) ltac:(lia) (Hearlier h chain Hchain) ltac:(lia)
              ltac:(intros; lia))
    as (ml & mo & -> & Hr & _ & Hres).
  cbn [mbind result_bind].
  destruct (Z.ltb_spec ml 3) as [Hshort|Hlong].
  - exists 0, 0. split; [reflexivity|]. left. split; reflexivity.
  - exists ml, mo. split; [reflexivity|]. right.
    destruct (Hres ltac:(lia)) as [Hmo Hrep].
    split; [lia|]. split; [exact Hmo|exact Hrep].
Qed.

Lemma find_longest_match_sound_witness :
  exists match_length match_offset,
    PRS.find_longest_match [1; 2; 3; 1; 2; 3; 1; 2; 3] {[ 197121 := [0] ]} 3
    = Ok (match_length, match_offset)
    /\ ((match_length = 0 /\ match_offset = 0)
        \/ (3 <= match_length <= Z.min (len [1; 2; 3; 1; 2; 3; 1; 2; 3] - 3) 0x100
            /\ 1 <= match_offset <= Z.min 3 0x2000
            /\ repeats [1; 2; 3; 1; 2; 3; 1; 2; 3] 3 match_length match_offset)).
Proof.
  apply (find_longest_match_sound [1; 2; 3; 1; 2; 3; 1; 2; 3] {[ 197121 := [0] ]} 3).
  - unfold len. cbn. lia.
  - intros h chain Hl. apply lookup_singleton_Some in Hl as [_ <-].
    repeat constructor; lia.
Defined.

Lemma short_match_byte (v : Z) : is_byte (Z.land v 0xFF).
Proof.
  unfold is_byte. change 255 with (Z.ones 8). rewrite Z.land_ones by lia.
  apply Z.mod_pos_bound. lia.
Qed.

Lemma long_match_bytes (mo : Z) :
  1 <= mo <= 0x2000 ->
  is_byte (Z.lor 0xC0 (Z.shiftr (mo - 1) 8)) /\ is_byte (Z.land (mo - 1) 0xFF).
Proof.
  intros Hmo. split; [|apply short_match_byte].
  apply lor_is_byte; unfold is_byte; [lia|].
  rewrite Z.shiftr_div_pow2 by lia. change (2 ^ 8) with 256.
  pose proof (Z.div_pos (mo - 1) 256).
  assert ((mo - 1) / 256 < 256) by (apply Z.div_lt_upper_bound; lia). lia.
Qed.

(** X20. The encoder can write every match that the match finder can
    return, and no longer one. For a length of 3 to [0x100] and a
    back-distance of 1 to [0x2000], [encode_token] sets the control bit,
    moves the input index by the length and appends a token of bytes: one
    byte in the short form, two in the mid form, three in the long form,
    whose last byte is [length - 1]. A longer match raises [ValueError]: its
    length byte does not fit. *)
Theorem encode_token_range (inp : list Z) (st : PRS.PackState) (ml mo : Z) :
  1 <= mo <= 0x2000 ->
  (3 <= ml <= 0x100 ->
   exists tok,
     PRS.encode_token inp st ml mo
     = Ok (Z.lor (PRS.control st) (PRS.mask st), PRS.control_buffer st ++ tok,
           PRS.input_index st + ml)
     /\ wf_bytes tok
     /\ len tok = (if (ml <=? 5) && (mo <=? 256) then 1
                   else if ml <=? 9 then 2 else 3)
     /\ (9 < ml -> last tok = Some (ml - 1)))
  /\ (0x100 < ml ->
      PRS.encode_token inp st ml mo
      = Raise (ValueError "byte must be in range(0, 256)")).
Proof.
  intros Hmo. destruct (long_match_bytes mo Hmo) as [Hl1 Hl2]. split.
  - intros Hml. unfold PRS.encode_token.
    destruct (Z.ltb_spec ml 3); [lia|].
    destruct ((ml <=? 5) && (mo <=? 256)) eqn:Hshort.
    + apply andb_true_iff in Hshort as [H5 _]. apply Z.leb_le in H5.
      unfold append. rewrite (is_byteb_true _ (short_match_byte _)).
      cbn [mbind result_bind]. eexists. split; [reflexivity|].
      split; [constructor; [apply short_match_byte|constructor]|].
      split; [reflexivity|lia].
    + destruct (Z.leb_spec ml 9) as [H9|H9].
      * destruct (mid_match_bytes ml mo ltac:(lia) Hmo) as [H1 H2].
        unfold append. rewrite (is_byteb_true _ H1). cbn [mbind result_bind].
        rewrite (is_byteb_true _ H2). cbn [mbind result_bind].
        rewrite <- app_assoc. eexists. split; [reflexivity|].
        split; [constructor; [exact H1|constructor; [exact H2|constructor]]|].
        split; [reflexivity|lia].
      * unfold append. rewrite (is_byteb_true _ Hl1). cbn [mbind result_bind].
        rewrite (is_byteb_true _ Hl2). cbn [mbind result_bind].
        rewrite (is_byteb_true (ml - 1)) by (unfold is_byte; lia).
        cbn [mbind result_bind]. rewrite <- !app_assoc.
        eexists. split; [reflexivity|].
        split; [constructor; [exact Hl1|constructor; [exact Hl2|constructor;
                 [unfold is_byte; lia|constructor]]]|].
        split; reflexivity.
  - intros Hml. unfold PRS.encode_token.
    destruct (Z.ltb_spec ml 3); [lia|].
    destruct (Z.leb_spec ml 5); [lia|]. cbn [andb].
    destruct (Z.leb_spec ml 9); [lia|].
    unfold append. rewrite (is_byteb_true _ Hl1). cbn [mbind result_bind].
    rewrite (is_byteb_true _ Hl2). cbn [mbind result_bind].
    unfold is_byteb. destruct (Z.ltb_spec (ml - 1) 256); [lia|].
    rewrite andb_false_r. reflexivity.
Qed.

Lemma encode_token_range_witness :
  (3 <= 0x100 <= 0x100 ->
   exists tok,
     PRS.encode_token [7; 7; 7] (PRS.mkPack 0 0 1 [] [] ∅) 0x100 0x2000
     = Ok (Z.lor (PRS.control (PRS.mkPack 0 0 1 [] [] ∅))
                 (PRS.mask (PRS.mkPack 0 0 1 [] [] ∅)),
           PRS.control_buffer (PRS.mkPack 0 0 1 [] [] ∅) ++ tok,
           PRS.input_index (PRS.mkPack 0 0 1 [] [] ∅) + 0x100)
     /\ wf_bytes tok
     /\ len tok = (if (0x100 <=? 5) && (0x2000 <=? 256) then 1
                   else if 0x100 <=? 9 then 2 else 3)
     /\ (9 < 0x100 -> last tok = Some (0x100 - 1)))
  /\ (0x100 < 0x100 ->
      PRS.encode_token [7; 7; 7] (PRS.mkPack 0 0 1 [] [] ∅) 0x100 0x2000
      = Raise (ValueError "byte must be in range(0, 256)")).
Proof.
  apply (encode_token_range [7; 7; 7] (PRS.mkPack 0 0 1 [] [] ∅) 0x100 0x2000).
  lia.
Defined.

(** ** Edge cases of the MgData tools *)

(** X10. The empty key: XOR-ing empty data returns empty data whatever the
    key is, and XOR-ing any other data with the empty key raises
    [ZeroDivisionError] (from [i % len(key)]). *)
Theorem xor_empty_key (data key : list Z) :
  (ExMgData.xor_decrypt [] key = Ok [] /\ PkMgData.xor_encrypt [] key = Ok [])
  /\ (data <> [] ->
      ExMgData.xor_decrypt data [] = Raise ZeroDivisionError
      /\ PkMgData.xor_encrypt data [] = Raise ZeroDivisionError).
Proof.
  split; [split; reflexivity|]. intros Hne.
  assert (H : ExMgData.xor_decrypt data [] = Raise ZeroDivisionError).
  { destruct data as [|d rest]; [contradiction|].
    unfold ExMgData.xor_decrypt. rewrite range_cons by (unfold len; simpl; lia).
    cbn [ExMgData.collect_bytes].
    assert (Hx : ExMgData.xor_at (d :: rest) [] 0 = Raise ZeroDivisionError).
    { unfold ExMgData.xor_at. rewrite getitem_head. reflexivity. }
    rewrite Hx. reflexivity. }
  split; [exact H|]. exact H.
Qed.

Lemma xor_empty_key_witness :
  ExMgData.xor_decrypt [0xDE; 0xAD] [] = Raise ZeroDivisionError
  /\ PkMgData.xor_encrypt [0xDE; 0xAD] [] = Raise ZeroDivisionError.
Proof.
  apply (proj2 (xor_empty_key [0xDE; 0xAD] [])). discriminate.
Defined.

Section ShortIndex.
Import ExMgData.

Lemma unpack_uint32_short f off :
  0 <= off -> len f < off + 4 -> unpack_uint32 f off = Raise StructError.
Proof.
  intros Hoff Hlen. unfold unpack_uint32, fread.
  assert (Hl : (length (take (Z.to_nat 4) (drop (Z.to_nat off) f)) < 4)%nat).
  { rewrite length_take, length_drop. unfold len in Hlen. lia. }
  destruct (take _ _) as [|b0 [|b1 [|b2 [|b3 l]]]]; try reflexivity.
  simpl in Hl. lia.
Qed.

End ShortIndex.

(** X11. No fallback on a short index. When the first name decodes in the
    [0x40] layout but the file ends before that record does (fewer than
    [4 + 0x40] bytes), reading the record's offset or size raises
    [struct.error]: [process_mbl] stops there and never tries the [0x18]
    layout. *)
Theorem mgdata_short_index_raises
    (cp932_decode : list Z -> option string) (f : list Z) (count : Z) :
  ExMgData.unpack_uint32 f 0 = Ok count ->
  0 < count ->
  ~ name_fails cp932_decode f p40 0 ->
  len f < 4 + 0x40 ->
  ExMgData.process_mbl cp932_decode f = Raise StructError.
Proof.
  intros Hcount Hpos Hname Hshort.
  unfold ExMgData.process_mbl. rewrite Hcount. cbn [mbind result_bind].
  change ExMgData.parameter_sets with [p40; p18].
  cbn [ExMgData.try_parameter_sets]. unfold ExMgData.attempt.
  rewrite range_cons by lia. cbn [ExMgData.read_entries].
  unfold name_fails, name_bytes in Hname. unfold ExMgData.read_entry.
  change (4 + 0 * ExMgData.entry_size p40 + ExMgData.name_offset p40)
    with (4 + 0 * ExMgData.entry_size p40 + ExMgData.name_offset p40) in Hname.
  destruct (cp932_decode _) as [name|]; [|contradiction].
  cbn [ExMgData.entry_size ExMgData.file_offset ExMgData.size_offset p40].
  destruct (Z.lt_ge_cases (len f) 64) as [H64|H64].
  - rewrite (unpack_uint32_short f (4 + 0 * 64 + 56)) by lia. reflexivity.
  - destruct (unpack_uint32_total f (4 + 0 * 64 + 56) ltac:(lia) ltac:(lia)) as [v ->].
    cbn [mbind result_bind].
    rewrite (unpack_uint32_short f (4 + 0 * 64 + 60)) by lia. reflexivity.
Qed.

Lemma mgdata_short_index_raises_witness :
  ExMgData.process_mbl ascii_decode
    [1; 0; 0; 0;
     97; 46; 98; 105; 110; 0; 0; 0; 0; 0; 0; 0; 0; 0; 0; 0; 32; 0; 0; 0; 4; 0; 0; 0;
     0; 0; 0; 0; 81; 58; 53; 92]
  = Raise StructError.
Proof.
  apply (mgdata_short_index_raises ascii_decode _ 1).
  - reflexivity.
  - lia.
  - vm_compute. discriminate.
  - vm_compute. reflexivity.
Defined.

(** ** Layout of the MgGra archive, and reading it back *)

Section MgGraLayout.

Context {str : Type} `{PyStrOps str}.

Lemma slot_bytes (nm : str) :
  slot_name nm ->
  exists pad,
    PkmgGra.write_fixed_length_string nm 13 = encode_utf8 nm ++ pad
    /\ length (encode_utf8 nm ++ pad) = 13%nat
    /\ (pad = [] \/ exists pad', pad = 0 :: pad').
Proof.
  intros [Henc Hle]. unfold PkmgGra.write_fixed_length_string.
  change (9 <=? 13) with true. cbn iota. eexists. split; [reflexivity|].
  unfold PkmgGra.slice_to. rewrite <- Henc.
  pose proof (len_nonneg (encode_utf8 nm)) as Hnn.
  destruct (Z.ltb_spec (13 - len (encode_utf8 nm)) 0); [lia|].
  rewrite length_app. unfold len in *.
  set (n := length (encode_utf8 nm)) in *.
  assert (Hn : (n <= 13)%nat) by lia.
  do 14 (destruct n as [|n]; [split; [reflexivity|]; cbn; eauto|]). lia.
Qed.

Lemma before_nul_app (enc pad : list Z) :
  Forall (fun b => b <> 0) enc ->
  (pad = [] \/ exists pad', pad = 0 :: pad') ->
  ExMgData.before_nul (enc ++ pad) = enc.
Proof.
  intros Hnz Hpad. induction Hnz as [|b enc Hb _ IH].
  - destruct Hpad as [-> | [pad' ->]]; reflexivity.
  - cbn [app ExMgData.before_nul].
    destruct (Z.eqb_spec b 0); [contradiction|]. rewrite IH. reflexivity.
Qed.

Lemma write_entries_inv (e : PkmgGra.Entry) (es : list PkmgGra.Entry) idx :
  PkmgGra.write_entries (e :: es) = Ok idx ->
  exists o s more,
    pack_u32 (PkmgGra.offset e) = Ok o /\ pack_u32 (PkmgGra.size e) = Ok s
    /\ PkmgGra.write_entries es = Ok more
    /\ idx = PkmgGra.write_fixed_length_string (PkmgGra.name e) 13 ++ o ++ s ++ more.
Proof.
  cbn [PkmgGra.write_entries].
  destruct (pack_u32 (PkmgGra.offset e)) as [o|]; [|discriminate].
  cbn [mbind result_bind].
  destruct (pack_u32 (PkmgGra.size e)) as [s|]; [|discriminate].
  cbn [mbind result_bind].
  destruct (PkmgGra.write_entries es) as [more|]; [|discriminate].
  cbn [mbind result_bind]. intros [= <-]. eauto 10.
Qed.

(** Every index record takes 21 bytes. *)
Lemma write_entries_length (es : list PkmgGra.Entry) : forall idx,
  Forall (fun e => slot_name (PkmgGra.name e)) es ->
  PkmgGra.write_entries es = Ok idx -> len idx = 0x15 * len es.
Proof.
  induction es as [|e es IH]; intros idx Hs Hw.
  - injection Hw as <-. reflexivity.
  - apply Forall_cons in Hs as [He Hs].
    destruct (write_entries_inv _ _ _ Hw) as (o & s & more & Ho & Hsz & Hmore & ->).
    destruct (slot_bytes _ He) as (pad & -> & Hl & _).
    apply pack_u32_inv in Ho as (_ & _ & Hlo). apply pack_u32_inv in Hsz as (_ & _ & Hls).
    specialize (IH _ Hs Hmore). unfold len in *.
    rewrite !length_app in *. cbn [length]. lia.
Qed.

Lemma unpack_II_app (o s : list Z) vo vs :
  unpack_u32 o = Ok vo -> unpack_u32 s = Ok vs ->
  ExmgGra.unpack_II (o ++ s) = Ok (vo, vs).
Proof.
  unfold unpack_u32.
  destruct o as [|a0 [|a1 [|a2 [|a3 [|? ?]]]]]; try discriminate.
  destruct s as [|c0 [|c1 [|c2 [|c3 [|? ?]]]]]; try discriminate.
  intros [= <-] [= <-]. reflexivity.
Qed.

Lemma take_app_exact {A} (l r : list A) n : length l = n -> take n (l ++ r) = l.
Proof. intros <-. apply take_app_length. Qed.

Lemma drop_app_exact {A} (l r : list A) n : length l = n -> drop n (l ++ r) = r.
Proof. intros <-. apply drop_app_length. Qed.

(** The reader's loop over an index written by the packer. *)
Lemma read_index_written (data : list Z) (es : list PkmgGra.Entry) :
  forall (pre idx : list Z) (acc : list ExmgGra.Entry),
    Forall (fun e => slot_name (PkmgGra.name e) /\ readable_name (PkmgGra.name e)) es ->
    PkmgGra.write_entries es = Ok idx ->
    Forall (fun e => PkmgGra.offset e + PkmgGra.size e <= len (pre ++ idx ++ data)) es ->
    ExmgGra.read_index (pre ++ idx ++ data) 13 (length es) (len pre) acc
    = Ok (Some (acc ++ map read_back es)).
Proof.
  induction es as [|e es IH]; intros pre idx acc Hn Hw Hp.
  - cbn. rewrite app_nil_r. reflexivity.
  - apply Forall_cons in Hn as [[Hslot [Hnz Hdec]] Hn].
    apply Forall_cons in Hp as [Hpe Hp].
    destruct (write_entries_inv _ _ _ Hw) as (o & s & more & Ho & Hsz & Hmore & ->).
    destruct (slot_bytes _ Hslot) as (pad & Hslotb & Hl & Hpad).
    pose proof (before_nul_app _ _ Hnz Hpad) as Hbn.
    rewrite Hslotb in *. clear Hslotb Hw.
    set (slot := encode_utf8 (PkmgGra.name e) ++ pad) in *. clearbody slot.
    apply pack_u32_inv in Ho as (_ & Huo & Hlo).
    apply pack_u32_inv in Hsz as (_ & Hus & Hls).
    assert (Hfile : pre ++ (slot ++ o ++ s ++ more) ++ data
                    = (pre ++ slot ++ o ++ s) ++ more ++ data)
      by (rewrite <- !app_assoc; reflexivity).
    rewrite Hfile in *.
    assert (Hname : fread ((pre ++ slot ++ o ++ s) ++ more ++ data)
                          (Z.to_nat (len pre)) 13 = slot).
    { unfold fread. replace (Z.to_nat (len pre)) with (length pre) by (unfold len; lia).
      rewrite <- !app_assoc, drop_app_length. apply take_app_exact. exact Hl. }
    assert (Hnum : fread ((pre ++ slot ++ o ++ s) ++ more ++ data)
                         (Z.to_nat (len pre) + length slot) 8 = o ++ s).
    { unfold fread. replace (Z.to_nat (len pre)) with (length pre) by (unfold len; lia).
      rewrite <- !app_assoc, <- drop_drop, drop_app_length, drop_app_length.
      rewrite (app_assoc o s). apply take_app_exact. rewrite length_app. lia. }
    cbn [length ExmgGra.read_index]. unfold ExmgGra.read_string.
    rewrite Hname, Hbn, Hdec. cbn [mbind result_bind].
    rewrite Hnum, (unpack_II_app _ _ _ _ Huo Hus). cbn [mbind result_bind].
    unfold ExmgGra.check_placement. cbn [ExmgGra.offset ExmgGra.size].
    destruct (Z.leb_spec (PkmgGra.offset e + PkmgGra.size e)
                         (len ((pre ++ slot ++ o ++ s) ++ more ++ data))); [|lia].
    cbn [negb].
    replace (len pre + 13 + 8) with (len (pre ++ slot ++ o ++ s))
      by (unfold len; rewrite !length_app; lia).
    rewrite (IH _ more _ Hn Hmore Hp), <- app_assoc. reflexivity.
Qed.

Lemma entries_of_names dso (files : list (str * list Z)) : forall offset,
  map PkmgGra.name (entries_of dso offset files) = map (fun pf => entry_name pf.1) files.
Proof.
  induction files as [|[path data] files IH]; intros offset; [reflexivity|].
  cbn [entries_of map]. rewrite IH. reflexivity.
Qed.

End MgGraLayout.

Section MgGraArchive.

Context {str : Type} `{PyStrOps str}.

(** The archive written for files with slot-sized names. *)
Lemma pack_files_layout (files : list (str * list Z)) :
  let dso := 8 + 0x15 * len files in
  let data := concat (map snd files) in
  Forall (fun pf => pf.2 <> []) files ->
  Forall (fun pf => slot_name (entry_name pf.1)) files ->
  dso + len data < 4294967296 ->
  exists count index,
    pack_u32 (len files) = Ok count
    /\ PkmgGra.write_entries (entries_of dso 0 files) = Ok index
    /\ len index = 0x15 * len files
    /\ PkmgGra.pack_files files = Ok (count ++ [13; 0; 0; 0] ++ index ++ data).
Proof.
  intros dso data Hne Hslot Hfit.
  assert (Hdso : 0 <= dso) by (unfold dso, len; lia).
  pose proof (len_nonneg data) as Hdata.
  destruct (write_entries_total (entries_of dso 0 files) (dso + len data) Hfit)
    as [index Hidx].
  { eapply Forall_impl; [apply entries_of_bounds; lia|].
    intros e (H1 & H2 & H3). fold data in H2. lia. }
  assert (Hlen : len (entries_of dso 0 files) = len files)
    by (unfold len; rewrite entries_of_length; reflexivity).
  destruct (unpack_pack_u32 (len files)
              ltac:(unfold dso in Hfit; unfold len in *; lia)) as [Hcount _].
  eexists _, index. split; [exact Hcount|]. split; [exact Hidx|]. split.
  - assert (Hs : Forall (fun e => slot_name (PkmgGra.name e)) (entries_of dso 0 files)).
    { apply Forall_forall. intros e He.
      apply list_elem_of_In, (in_map PkmgGra.name) in He.
      rewrite entries_of_names in He. apply in_map_iff in He as (pf & <- & Hpf).
      rewrite Forall_forall in Hslot. apply Hslot, list_elem_of_In, Hpf. }
    rewrite (write_entries_length _ _ Hs Hidx), Hlen. reflexivity.
  - unfold PkmgGra.pack_files. fold dso.
    rewrite (add_files_spec dso files 0 [] []) by exact Hne.
    cbn [mbind result_bind app]. fold data. rewrite Hlen, Hcount.
    cbn [mbind result_bind]. rewrite Hidx. reflexivity.
Qed.

Lemma entries_of_after dso (files : list (str * list Z)) : forall offset,
  0 <= offset ->
  Forall (fun e => dso <= PkmgGra.offset e) (entries_of dso offset files).
Proof.
  induction files as [|[path d] files IH]; intros offset Hoff;
    cbn [entries_of]; constructor.
  - cbn. lia.
  - apply IH. unfold len. lia.
Qed.

Lemma slices_in_archive (archive data : list Z) (D : Z)
    (es : list (@PkmgGra.Entry str)) (fs : list (str * list Z)) :
  drop (Z.to_nat D) archive = data -> len archive = D + len data -> 0 <= D ->
  Forall (fun e => PkmgGra.offset e + PkmgGra.size e <= D + len data) es ->
  Forall (fun e => D <= PkmgGra.offset e) es ->
  Forall2 (fun e pf =>
             PkmgGra.size e = len pf.2
             /\ take (Z.to_nat (PkmgGra.size e))
                     (drop (Z.to_nat (PkmgGra.offset e - D)) data) = pf.2) es fs ->
  Forall2 (fun e pf =>
             fread archive (Z.to_nat (PkmgGra.offset e)) (PkmgGra.size e) = pf.2
             /\ PkmgGra.offset e + PkmgGra.size e <= len archive) es fs.
Proof.
  intros Hdrop Hlen HD Hb Hall Hsl. revert Hb Hall.
  induction Hsl as [|e pf es fs [Hsz Hslice] _ IH]; intros Hb Hall; constructor.
  - apply Forall_cons in Hb as [Hbe _]. apply Forall_cons in Hall as [Hge _].
    split; [|lia]. unfold fread.
    replace (Z.to_nat (PkmgGra.offset e))
      with (Z.to_nat D + Z.to_nat (PkmgGra.offset e - D))%nat by lia.
    rewrite <- drop_drop, Hdrop. exact Hslice.
  - apply Forall_cons in Hb as [_ Hb]. apply Forall_cons in Hall as [_ Hall].
    apply IH; assumption.
Qed.

Lemma written_archive (files : list (str * list Z)) (count index : list Z) :
  let dso := 8 + 0x15 * len files in
  let data := concat (map snd files) in
  let archive := count ++ [13; 0; 0; 0] ++ index ++ data in
  unpack_u32 count = Ok (len files) -> length count = 4%nat ->
  len index = 0x15 * len files ->
  len archive = dso + len data
  /\ drop (Z.to_nat dso) archive = data
  /\ ExmgGra.unpack_II (fread archive 0 8) = Ok (len files, 13)
  /\ Forall2 (fun e pf =>
                fread archive (Z.to_nat (PkmgGra.offset e)) (PkmgGra.size e) = pf.2
                /\ PkmgGra.offset e + PkmgGra.size e <= len archive)
             (entries_of dso 0 files) files.
Proof.
  intros dso data archive Hucount Hlcount Hlidx.
  assert (Hdso : 0 <= dso) by (unfold dso, len; lia).
  assert (Hpre : length (count ++ [13; 0; 0; 0] ++ index) = Z.to_nat dso).
  { rewrite !length_app. unfold len in Hlidx. cbn [length]. unfold dso, len. lia. }
  assert (Hdrop : drop (Z.to_nat dso) archive = data).
  { unfold archive. rewrite (app_assoc [13; 0; 0; 0]), app_assoc.
    apply drop_app_exact. exact Hpre. }
  assert (Hlen : len archive = dso + len data).
  { unfold archive, len in *. rewrite !length_app in *. cbn [length] in *. lia. }
  split; [exact Hlen|]. split; [exact Hdrop|]. split.
  - unfold fread, archive. rewrite drop_0. change (Z.to_nat 8) with 8%nat.
    rewrite app_assoc. rewrite take_app_exact by (rewrite length_app; simpl; lia).
    apply unpack_II_app; [exact Hucount | reflexivity].
  - pose proof (entries_of_slices dso files 0 [] eq_refl) as Hsl.
    pose proof (entries_of_bounds dso files 0 Hdso ltac:(lia)) as Hb.
    pose proof (entries_of_after dso files 0 ltac:(lia)) as Hall.
    cbn [app] in Hsl. fold data in Hsl, Hb.
    apply (slices_in_archive _ data dso); auto.
    eapply Forall_impl; [exact Hb|]. intros e (H1 & H2 & H3). lia.
Qed.

(** The offset and size fields of the records of a written index. *)
Lemma written_index_fields (data : list Z) (es : list (@PkmgGra.Entry str)) :
  forall (pre idx : list Z) (i : nat) (e : PkmgGra.Entry),
    Forall (fun e => slot_name (PkmgGra.name e)) es ->
    PkmgGra.write_entries es = Ok idx ->
    es !! i = Some e ->
    ExmgGra.unpack_II (fread (pre ++ idx ++ data) (length pre + 21 * i + 13) 8)
    = Ok (PkmgGra.offset e, PkmgGra.size e).
Proof.
  induction es as [|e0 es IH]; intros pre idx i e Hs Hw Hi; [discriminate|].
  apply Forall_cons in Hs as [Hslot Hs].
  destruct (write_entries_inv _ _ _ Hw) as (o & s & more & Ho & Hsz & Hmore & ->).
  destruct (slot_bytes _ Hslot) as (pad & Hslotb & Hl & _).
  rewrite Hslotb. set (slot := encode_utf8 (PkmgGra.name e0) ++ pad) in *.
  apply pack_u32_inv in Ho as (_ & Huo & Hlo).
  apply pack_u32_inv in Hsz as (_ & Hus & Hls).
  destruct i as [|i].
  - injection Hi as <-.
    replace (pre ++ (slot ++ o ++ s ++ more) ++ data)
      with ((pre ++ slot) ++ (o ++ s) ++ (more ++ data))
      by (rewrite <- !app_assoc; reflexivity).
    unfold fread.
    replace (length pre + 21 * 0 + 13)%nat with (length (pre ++ slot))
      by (rewrite length_app; lia).
    rewrite drop_app_length.
    rewrite take_app_exact by (rewrite length_app; lia).
    apply unpack_II_app; assumption.
  - cbn [lookup list_lookup] in Hi.
    replace (pre ++ (slot ++ o ++ s ++ more) ++ data)
      with ((pre ++ slot ++ o ++ s) ++ more ++ data)
      by (rewrite <- !app_assoc; reflexivity).
    replace (length pre + 21 * S i + 13)%nat
      with (length (pre ++ slot ++ o ++ s) + 21 * i + 13)%nat
      by (rewrite !length_app; lia).
    apply (IH _ more i e Hs Hmore Hi).
Qed.

Lemma entries_of_slots dso (files : list (str * list Z)) : forall offset,
  Forall (fun pf => slot_name (entry_name pf.1)) files ->
  Forall (fun e => slot_name (PkmgGra.name e)) (entries_of dso offset files).
Proof.
  induction files as [|[path d] files IH]; intros offset Hall; [constructor|].
  apply Forall_cons in Hall as [Hp Hall].
  cbn [entries_of]. constructor; [exact Hp|apply IH; exact Hall].
Qed.

Lemma entries_of_sizes dso (files : list (str * list Z)) : forall offset,
  Forall2 (fun e pf => PkmgGra.size e = len pf.2) (entries_of dso offset files) files.
Proof.
  induction files as [|[path d] files IH]; intros offset; cbn [entries_of];
    constructor; [reflexivity|apply IH].
Qed.

End MgGraArchive.

(** X12. The offsets that [pack_files] of [PkmgGra.py] writes are absolute:
    when the files are non-empty, their names fill a 13-byte slot and the
    archive fits 32-bit offsets, the archive has [8 + 0x15 * count] bytes of
    count, name length and index followed by the files' bytes, its first
    eight bytes read back as [(count, 13)], and for the file at position
    [i] the eight bytes behind the name slot of record [i] of the index hold
    an offset and a size such that the size is that of the file and seeking
    to the offset and reading the size gives exactly the file's bytes, inside
    the archive. *)
Theorem mggra_offsets_absolute {str : Type} `{PyStrOps str}
    (files : list (str * list Z)) :
  let dso := 8 + 0x15 * len files in
  let data := concat (map snd files) in
  Forall (fun pf => pf.2 <> []) files ->
  Forall (fun pf => slot_name (entry_name pf.1)) files ->
  dso + len data < 4294967296 ->
  exists archive,
    PkmgGra.pack_files files = Ok archive
    /\ len archive = dso + len data
    /\ drop (Z.to_nat dso) archive = data
    /\ ExmgGra.unpack_II (fread archive 0 8) = Ok (len files, 13)
    /\ forall (i : nat) (pf : str * list Z),
         files !! i = Some pf ->
         exists offset size,
           ExmgGra.unpack_II (fread archive (8 + 0x15 * i + 13) 8) = Ok (offset, size)
           /\ size = len pf.2
           /\ fread archive (Z.to_nat offset) size = pf.2
           /\ offset + size <= len archive.
Proof.
  intros dso data Hne Hslot Hfit.
  destruct (pack_files_layout files Hne Hslot Hfit)
    as (count & index & Hcount & Hidx & Hlidx & Hpack).
  destruct (pack_u32_inv _ _ Hcount) as (_ & Hucount & Hlcount).
  destruct (written_archive files count index Hucount Hlcount Hlidx)
    as (Hlen & Hdrop & Hhdr & Hsl).
  exists (count ++ [13; 0; 0; 0] ++ index ++ data).
  split; [exact Hpack|]. split; [exact Hlen|]. split; [exact Hdrop|].
  split; [exact Hhdr|].
  intros i pf Hi.
  destruct (Forall2_lookup_r _ _ _ _ _ Hsl Hi) as (e & He & Hrd & Hin).
  destruct (Forall2_lookup_r _ _ _ _ _ (entries_of_sizes dso files 0) Hi)
    as (e' & He' & Hsz).
  assert (e' = e) as -> by (unfold dso in *; congruence).
  exists (PkmgGra.offset e), (PkmgGra.size e).
  split; [|split; [exact Hsz|split; [exact Hrd|exact Hin]]].
  pose proof (written_index_fields data (entries_of dso 0 files)
                (count ++ [13; 0; 0; 0]) index i e
                (entries_of_slots dso files 0 Hslot) Hidx He) as Hf.
  rewrite <- app_assoc, length_app, Hlcount in Hf. cbn [length] in Hf.
  exact Hf.
Qed.

Lemma mggra_offsets_absolute_witness :
  exists archive,
    PkmgGra.pack_files sample_files = Ok archive
    /\ len archive = 8 + 0x15 * len sample_files + len (concat (map snd sample_files))
    /\ drop (Z.to_nat (8 + 0x15 * len sample_files)) archive
       = concat (map snd sample_files)
    /\ ExmgGra.unpack_II (fread archive 0 8) = Ok (len sample_files, 13)
    /\ forall (i : nat) (pf : string * list Z),
         sample_files !! i = Some pf ->
         exists offset size,
           ExmgGra.unpack_II (fread archive (8 + 0x15 * i + 13) 8) = Ok (offset, size)
           /\ size = len pf.2
           /\ fread archive (Z.to_nat offset) size = pf.2
           /\ offset + size <= len archive.
Proof.
  apply (mggra_offsets_absolute sample_files).
  - repeat constructor; discriminate.
  - repeat constructor; vm_compute; congruence.
  - vm_compute. reflexivity.
Defined.
Section MgGraReader.

Context {str : Type} `{PyStrOps str}.

Lemma read_back_entries (archive : list Z) (all : list ExmgGra.Entry)
    (es : list PkmgGra.Entry) (files : list (str * list Z)) :
  map PkmgGra.name es = map (fun pf => entry_name pf.1) files ->
  Forall2 (fun e pf =>
             fread archive (Z.to_nat (PkmgGra.offset e)) (PkmgGra.size e) = pf.2
             /\ PkmgGra.offset e + PkmgGra.size e <= len archive) es files ->
  Forall2 (fun e pf =>
             ExmgGra.name e = str_app (str_lower (entry_name pf.1)) (str_lit ".prs")
             /\ ExmgGra.open_entry (ExmgGra.mkArc archive all) e = pf.2)
          (map read_back es) files.
Proof.
  intros Hnames Hsl. revert Hnames.
  induction Hsl as [|e pf es fs [Hrd _] _ IH]; intros Hnames; [constructor|].
  cbn [map] in *. injection Hnames as Hn Hnames.
  constructor; [|apply IH; exact Hnames].
  split; [cbn; rewrite Hn; reflexivity|exact Hrd].
Qed.

Lemma Forall2_right_fact {A B : Type} (P : A -> B -> Prop) (Q : A -> Prop)
    (es : list A) (fs : list B) :
  Forall2 (fun e pf => P e pf /\ Q e) es fs -> Forall Q es.
Proof. induction 1 as [|e pf es fs [_ Hq] _ IH]; constructor; auto. Qed.

Lemma entries_of_named (P : str -> Prop) dso (files : list (str * list Z)) :
  forall offset,
    Forall (fun pf => P (entry_name pf.1)) files ->
    Forall (fun e => P (PkmgGra.name e)) (entries_of dso offset files).
Proof.
  induction files as [|[path fd] files IH]; intros offset Hall; [constructor|].
  apply Forall_cons in Hall as [Hp Hall].
  cbn [entries_of]. constructor; [exact Hp|apply IH; exact Hall].
Qed.

Lemma try_open_written (arc_path : str) (files : list (str * list Z))
    (count index : list Z) :
  let dso := 8 + 0x15 * len files in
  let data := concat (map snd files) in
  let archive := count ++ [13; 0; 0; 0] ++ index ++ data in
  0 < len files < 10000 ->
  str_eqb (str_lower (path_splitext_root (path_basename arc_path)))
          (str_lit "mg_gra") = true ->
  Forall (fun pf => slot_name (entry_name pf.1) /\ readable_name (entry_name pf.1))
         files ->
  unpack_u32 count = Ok (len files) -> length count = 4%nat ->
  PkmgGra.write_entries (entries_of dso 0 files) = Ok index ->
  len index = 0x15 * len files ->
  ExmgGra.try_open_gra_mbl arc_path archive
  = Ok (Some (ExmgGra.mkArc archive (map read_back (entries_of dso 0 files)))).
Proof.
  intros dso data archive Hcnt Hname Hnames Hucount Hlcount Hidx Hlidx.
  destruct (written_archive files count index Hucount Hlcount Hlidx)
    as (Hlen & Hdrop & Hhdr & Hsl).
  fold dso data archive in Hlen, Hdrop, Hhdr, Hsl.
  unfold ExmgGra.try_open_gra_mbl. rewrite Hhdr. cbn [mbind result_bind].
  change (13 <? 8) with false. change (13 >? 64) with false.
  unfold ExmgGra.is_sane_count.
  destruct (Z.ltb_spec 0 (len files)); [|lia].
  destruct (Z.ltb_spec (len files) 10000); [|lia].
  cbn [orb andb negb]. rewrite Hname. cbn [negb].
  assert (Hri : ExmgGra.read_index archive 13 (Z.to_nat (len files)) 8 []
                = Ok (Some (map read_back (entries_of dso 0 files)))).
  { pose proof (read_index_written data (entries_of dso 0 files)
                  (count ++ [13; 0; 0; 0]) index []) as Hr.
    rewrite entries_of_length in Hr.
    replace (len (count ++ [13; 0; 0; 0])) with 8 in Hr
      by (unfold len; rewrite length_app; cbn [length]; lia).
    rewrite <- app_assoc in Hr. fold archive in Hr.
    unfold len at 1. rewrite Nat2Z.id. apply Hr; [|exact Hidx|].
    - exact (entries_of_named (fun nm => slot_name nm /\ readable_name nm)
                              dso files 0 Hnames).
    - exact (Forall2_right_fact _ _ _ _ Hsl). }
  rewrite Hri. cbn [mbind result_bind].
  assert (Hl : len (map read_back (entries_of dso 0 files)) = len files).
  { unfold len. rewrite length_map, entries_of_length. reflexivity. }
  rewrite Hl.
  destruct (Z.eqb_spec (len files) 0); [lia|].
  destruct (Z.eqb_spec (len files) 1) as [->|]; reflexivity.
Qed.

Variable zlib_decompress : list Z -> result (list Z).

Lemma extract_entries_verbatim (a : ExmgGra.ArcFile) (es : list ExmgGra.Entry)
    (fs : list (str * list Z)) :
  Forall2 (fun e pf =>
             ExmgGra.name e = str_app (str_lower (entry_name pf.1)) (str_lit ".prs")
             /\ ExmgGra.open_entry a e = pf.2) es fs ->
  Forall (fun pf => pf.2 <> [] /\ head pf.2 <> Some 0x78) fs ->
  ExmgGra.extract_entries zlib_decompress a es
  = Ok (map (fun pf => (str_app (str_lower (entry_name pf.1)) (str_lit ".prs"), pf.2))
            fs).
Proof.
  induction 1 as [|e pf es fs [Hn Ho] _ IH]; intros Hfs; [reflexivity|].
  apply Forall_cons in Hfs as [[Hne H78] Hfs].
  cbn [ExmgGra.extract_entries map]. rewrite Ho.
  destruct pf.2 as [|b0 rest] eqn:Hd; [congruence|].
  rewrite getitem_head. cbn [mbind result_bind].
  destruct (Z.eqb_spec b0 0x78) as [->|_]; [exfalso; apply H78; reflexivity|].
  cbn [mbind result_bind]. rewrite (IH Hfs). cbn [mbind result_bind].
  rewrite Hn. reflexivity.
Qed.

Lemma extract_entries_inflates (a : ExmgGra.ArcFile) (es : list ExmgGra.Entry)
    (fs1 fs2 : list (str * list Z)) (pf : str * list Z) (e : exn) :
  Forall2 (fun e pf =>
             ExmgGra.name e = str_app (str_lower (entry_name pf.1)) (str_lit ".prs")
             /\ ExmgGra.open_entry a e = pf.2) es (fs1 ++ pf :: fs2) ->
  Forall (fun pf => pf.2 <> [] /\ head pf.2 <> Some 0x78) fs1 ->
  head pf.2 = Some 0x78 -> zlib_decompress pf.2 = Raise e ->
  ExmgGra.extract_entries zlib_decompress a es = Raise e.
Proof.
  revert es. induction fs1 as [|p fs1 IH]; intros es Hes Hfs H78 Hz.
  - cbn [app] in Hes. inversion Hes as [|x y xs ys [_ Ho] _]; subst.
    cbn [ExmgGra.extract_entries]. rewrite Ho.
    destruct pf.2 as [|b0 rest] eqn:Hd; [discriminate|].
    injection H78 as ->. rewrite getitem_head. cbn [mbind result_bind].
    change (120 =? 120) with true. cbn iota. rewrite Hz. reflexivity.
  - cbn [app] in Hes. inversion Hes as [|x y xs ys [_ Ho] Hrest]; subst.
    apply Forall_cons in Hfs as [[Hne Hn78] Hfs].
    cbn [ExmgGra.extract_entries]. rewrite Ho.
    destruct p.2 as [|b0 rest] eqn:Hd; [congruence|].
    rewrite getitem_head. cbn [mbind result_bind].
    destruct (Z.eqb_spec b0 0x78) as [->|_]; [exfalso; apply Hn78; reflexivity|].
    cbn [mbind result_bind]. rewrite (IH xs Hrest Hfs H78 Hz). reflexivity.
Qed.

End MgGraReader.

(** X13. An archive written by [pack_files] of [PkmgGra.py] is opened by
    [try_open_gra_mbl] of [ExmgGra.py]: for 1 to 9999 non-empty files whose
    entry names fill a 13-byte slot and decode as they were encoded, under an
    archive path whose base name without extension is [mg_gra] in any case,
    the reader returns an archive with one entry per file, in order, named
    by the lower-cased entry name followed by [.prs], and [open_entry] of
    each entry gives the bytes of its file. *)
Theorem mggra_archive_reopens {str : Type} `{PyStrOps str}
    (arc_path : str) (files : list (str * list Z)) :
  0 < len files < 10000 ->
  str_eqb (str_lower (path_splitext_root (path_basename arc_path)))
          (str_lit "mg_gra") = true ->
  Forall (fun pf => pf.2 <> []) files ->
  Forall (fun pf => slot_name (entry_name pf.1) /\ readable_name (entry_name pf.1))
         files ->
  8 + 0x15 * len files + len (concat (map snd files)) < 4294967296 ->
  exists archive a,
    PkmgGra.pack_files files = Ok archive
    /\ ExmgGra.try_open_gra_mbl arc_path archive = Ok (Some a)
    /\ ExmgGra.file_data a = archive
    /\ Forall2 (fun e pf =>
                  ExmgGra.name e
                  = str_app (str_lower (entry_name pf.1)) (str_lit ".prs")
                  /\ ExmgGra.open_entry a e = pf.2)
               (ExmgGra.entries a) files.
Proof.
  intros Hcnt Hname Hne Hnames Hfit.
  assert (Hslot : Forall (fun pf => slot_name (entry_name pf.1)) files)
    by (eapply Forall_impl; [exact Hnames|]; intros pf [Hs _]; exact Hs).
  destruct (pack_files_layout files Hne Hslot Hfit)
    as (count & index & Hcount & Hidx & Hlidx & Hpack).
  destruct (pack_u32_inv _ _ Hcount) as (_ & Hucount & Hlcount).
  destruct (written_archive files count index Hucount Hlcount Hlidx)
    as (_ & _ & _ & Hsl).
  eexists. eexists. split; [exact Hpack|]. split.
  - exact (try_open_written arc_path files count index Hcnt Hname Hnames
             Hucount Hlcount Hidx Hlidx).
  - split; [reflexivity|]. cbn [ExmgGra.entries].
    apply read_back_entries; [apply entries_of_names|exact Hsl].
Qed.

Lemma mggra_archive_reopens_witness :
  exists archive a,
    PkmgGra.pack_files sample_files = Ok archive
    /\ ExmgGra.try_open_gra_mbl "arc/MG_GRA.mbl"%string archive = Ok (Some a)
    /\ ExmgGra.file_data a = archive
    /\ Forall2 (fun e pf =>
                  ExmgGra.name e
                  = str_app (str_lower (entry_name pf.1)) (str_lit ".prs")
                  /\ ExmgGra.open_entry a e = pf.2)
               (ExmgGra.entries a) sample_files.
Proof.
  apply (mggra_archive_reopens "arc/MG_GRA.mbl"%string sample_files).
  - vm_compute. split; reflexivity.
  - vm_compute. reflexivity.
  - repeat constructor; discriminate.
  - repeat constructor; vm_compute; congruence.
  - vm_compute. reflexivity.
Defined.

(** X14. [extract_mbl] of [ExmgGra.py] on an archive written by [pack_files]
    of [PkmgGra.py], for files as in X13: when no file starts with the byte
    [0x78] the files come back verbatim, in order, under their entry names;
    and a file that starts with [0x78] (which the packer stored as it was) is
    handed to [zlib.decompress], so that if the first such file does not
    inflate the extraction raises that error. *)
Theorem mggra_extract_round_trip {str : Type} `{PyStrOps str}
    (zlib_decompress : list Z -> result (list Z))
    (arc_path : str) (files : list (str * list Z)) :
  0 < len files < 10000 ->
  str_eqb (str_lower (path_splitext_root (path_basename arc_path)))
          (str_lit "mg_gra") = true ->
  Forall (fun pf => pf.2 <> []) files ->
  Forall (fun pf => slot_name (entry_name pf.1) /\ readable_name (entry_name pf.1))
         files ->
  8 + 0x15 * len files + len (concat (map snd files)) < 4294967296 ->
  exists archive,
    PkmgGra.pack_files files = Ok archive
    /\ (Forall (fun pf => head pf.2 <> Some 0x78) files ->
        ExmgGra.extract_mbl zlib_decompress arc_path archive
        = Ok (Some (map (fun pf => (str_app (str_lower (entry_name pf.1))
                                            (str_lit ".prs"), pf.2)) files)))
    /\ (forall fs1 pf fs2 e,
          files = fs1 ++ pf :: fs2 ->
          Forall (fun pf => head pf.2 <> Some 0x78) fs1 ->
          head pf.2 = Some 0x78 -> zlib_decompress pf.2 = Raise e ->
          ExmgGra.extract_mbl zlib_decompress arc_path archive = Raise e).
Proof.
  intros Hcnt Hname Hne Hnames Hfit.
  assert (Hslot : Forall (fun pf => slot_name (entry_name pf.1)) files)
    by (eapply Forall_impl; [exact Hnames|]; intros pf [Hs _]; exact Hs).
  destruct (pack_files_layout files Hne Hslot Hfit)
    as (count & index & Hcount & Hidx & Hlidx & Hpack).
  destruct (pack_u32_inv _ _ Hcount) as (_ & Hucount & Hlcount).
  destruct (written_archive files count index Hucount Hlcount Hlidx)
    as (_ & _ & _ & Hsl).
  pose proof (try_open_written arc_path files count index Hcnt Hname Hnames
                Hucount Hlcount Hidx Hlidx) as Hopen.
  cbv zeta in Hopen, Hsl.
  pose proof (read_back_entries _
                (map read_back (entries_of (8 + 0x15 * len files) 0 files)) _ _
                (entries_of_names (8 + 0x15 * len files) files 0) Hsl) as Hes.
  eexists. split; [exact Hpack|]. split.
  - intros H78. unfold ExmgGra.extract_mbl. rewrite Hopen.
    cbn [mbind result_bind ExmgGra.entries].
    rewrite (extract_entries_verbatim zlib_decompress _ _ _ Hes); [reflexivity|].
    apply Forall_forall. intros pf Hin. rewrite Forall_forall in Hne, H78.
    split; [apply Hne | apply H78]; exact Hin.
  - intros fs1 pf fs2 e Hfiles H781 H78 Hz. subst files.
    unfold ExmgGra.extract_mbl. rewrite Hopen.
    cbn [mbind result_bind ExmgGra.entries].
    rewrite (extract_entries_inflates zlib_decompress _ _ fs1 fs2 pf e Hes);
      [reflexivity| |exact H78|exact Hz].
    apply Forall_app in Hne as [Hne _].
    apply Forall_forall. intros q Hin. rewrite Forall_forall in Hne, H781.
    split; [apply Hne | apply H781]; exact Hin.
Qed.

Lemma mggra_extract_round_trip_witness :
  exists archive,
    PkmgGra.pack_files sample_files = Ok archive
    /\ (Forall (fun pf => head pf.2 <> Some 0x78) sample_files ->
        ExmgGra.extract_mbl (fun _ => Raise (ValueError "zlib.error"))
                            "arc/MG_GRA.mbl"%string archive
        = Ok (Some (map (fun pf => (str_app (str_lower (entry_name pf.1))
                                            (str_lit ".prs"), pf.2)) sample_files)))
    /\ (forall fs1 pf fs2 e,
          sample_files = fs1 ++ pf :: fs2 ->
          Forall (fun pf => head pf.2 <> Some 0x78) fs1 ->
          head pf.2 = Some 0x78 ->
          (fun _ : list Z => @Raise (list Z) (ValueError "zlib.error")) pf.2 = Raise e ->
          ExmgGra.extract_mbl (fun _ => Raise (ValueError "zlib.error"))
                              "arc/MG_GRA.mbl"%string archive = Raise e).
Proof.
  apply (mggra_extract_round_trip (fun _ => Raise (ValueError "zlib.error"))
           "arc/MG_GRA.mbl"%string sample_files).
  - vm_compute. split; reflexivity.
  - vm_compute. reflexivity.
  - repeat constructor; discriminate.
  - repeat constructor; vm_compute; congruence.
  - vm_compute. reflexivity.
Defined.

(** ** The data archive: writer and reader *)

Lemma hex_value_digit (d : Z) :
  0 <= d < 16 -> PkMgDataWriter.hex_value (ExMgData.hex_digit d) = Some d.
Proof.
  intros Hd.
  assert (Hc : d = 0 \/ d = 1 \/ d = 2 \/ d = 3 \/ d = 4 \/ d = 5 \/ d = 6 \/ d = 7
               \/ d = 8 \/ d = 9 \/ d = 10 \/ d = 11 \/ d = 12 \/ d = 13 \/ d = 14
               \/ d = 15) by lia.
  repeat (destruct Hc as [->|Hc]; [reflexivity|]). subst d. reflexivity.
Qed.

Lemma is_space_digit (d : Z) :
  0 <= d < 16 -> PkMgDataWriter.is_space (ExMgData.hex_digit d) = false.
Proof.
  intros Hd.
  assert (Hc : d = 0 \/ d = 1 \/ d = 2 \/ d = 3 \/ d = 4 \/ d = 5 \/ d = 6 \/ d = 7
               \/ d = 8 \/ d = 9 \/ d = 10 \/ d = 11 \/ d = 12 \/ d = 13 \/ d = 14
               \/ d = 15) by lia.
  repeat (destruct Hc as [->|Hc]; [reflexivity|]). subst d. reflexivity.
Qed.

Lemma fromhex_hex_of_bytes (b : list Z) :
  wf_bytes b -> PkMgDataWriter.fromhex (ExMgData.hex_of_bytes b) = Ok b.
Proof.
  induction 1 as [|x l Hx _ IH]; [reflexivity|].
  unfold is_byte in Hx.
  assert (H1 : 0 <= x / 16 < 16)
    by (split; [apply Z.div_pos; lia | apply Z.div_lt_upper_bound; lia]).
  assert (H2 : 0 <= x mod 16 < 16) by (apply Z.mod_pos_bound; lia).
  cbn [ExMgData.hex_of_bytes PkMgDataWriter.fromhex].
  rewrite (is_space_digit _ H1), (hex_value_digit _ H1), (hex_value_digit _ H2), IH.
  cbn [mbind result_bind]. f_equal. f_equal.
  pose proof (Z.div_mod x 16). lia.
Qed.

(** X15. The sidecar of [entries.json] is read back: the hexadecimal text
    that [process_mbl] of [ExMgData.py] writes for a record (two lower-case
    digits for each byte) is turned by [hex_to_bytes] of [PkMgData.py] into
    the bytes of that record. *)
Theorem hex_round_trip (b : list Z) :
  wf_bytes b -> PkMgDataWriter.hex_to_bytes (ExMgData.hex_of_bytes b) = Ok b.
Proof. intros Hb. unfold PkMgDataWriter.hex_to_bytes. apply fromhex_hex_of_bytes, Hb. Qed.

Lemma hex_round_trip_witness :
  PkMgDataWriter.hex_to_bytes (ExMgData.hex_of_bytes [0x00; 0x9f; 0xff]) = Ok [0x00; 0x9f; 0xff].
Proof.
  apply (hex_round_trip [0x00; 0x9f; 0xff]).
  repeat constructor; unfold is_byte; lia.
Defined.

Lemma pack_u32_le32 (v : Z) : 0 <= v < 4294967296 -> pack_u32 v = Ok (le32 v).
Proof.
  intros Hv. unfold pack_u32.
  destruct (Z.leb_spec 0 v); [|lia]. destruct (Z.ltb_spec v 4294967296); [|lia].
  reflexivity.
Qed.

Lemma overlay_length (r : list Z) (k : nat) (d : list Z) :
  (k + length d <= length r)%nat -> length (overlay r k d) = length r.
Proof.
  intros Hk. unfold overlay.
  rewrite !length_app, length_take, length_drop. lia.
Qed.

Lemma write_overlay (pre r : list Z) (k : nat) (d : list Z) :
  (k <= length r)%nat ->
  PkMgDataWriter.write (PkMgDataWriter.mkFile (pre ++ r) (length pre + k)) d
  = PkMgDataWriter.mkFile (pre ++ overlay r k d) (length pre + k + length d).
Proof.
  intros Hk. unfold overlay, PkMgDataWriter.write.
  cbn [PkMgDataWriter.content PkMgDataWriter.pos].
  destruct d as [|x d].
  - cbn [length app]. rewrite !Nat.add_0_r, take_drop. reflexivity.
  - f_equal.
    rewrite take_app, drop_app, length_app.
    replace (length pre + k - (length pre + length r))%nat with 0%nat by lia.
    replace (length pre + k - length pre)%nat with k by lia.
    replace (length pre + k + length (x :: d) - length pre)%nat
      with (k + length (x :: d))%nat by lia.
    rewrite take_ge by lia. rewrite (drop_ge pre) by lia.
    cbn [replicate app]. rewrite <- app_assoc. reflexivity.
Qed.

Lemma write_at_end (pre d : list Z) :
  PkMgDataWriter.write (PkMgDataWriter.mkFile pre (length pre)) d
  = PkMgDataWriter.mkFile (pre ++ d) (length pre + length d).
Proof.
  pose proof (write_overlay pre [] 0 d (Nat.le_refl _)) as Hw.
  rewrite app_nil_r, Nat.add_0_r in Hw. rewrite Hw. unfold overlay.
  rewrite take_nil, drop_nil, app_nil_r. reflexivity.
Qed.

Lemma seek_to (buf : list Z) (pos0 : nat) (offset : Z) (n : nat) :
  0 <= offset -> Z.to_nat offset = n ->
  PkMgDataWriter.seek (PkMgDataWriter.mkFile buf pos0) offset
  = Ok (PkMgDataWriter.mkFile buf n).
Proof.
  intros H0 Hk. unfold PkMgDataWriter.seek.
  destruct (Z.ltb_spec offset 0); [lia|].
  cbn [PkMgDataWriter.content]. rewrite Hk. reflexivity.
Qed.

Lemma xor_encrypt_ok (data key : list Z) :
  wf_bytes data -> wf_bytes key -> key <> [] ->
  PkMgData.xor_encrypt data key = Ok (xor_stream data key).
Proof. exact (xor_decrypt_ok data key). Qed.

Lemma le32_length (v : Z) : length (le32 v) = 4%nat.
Proof. reflexivity. Qed.

Section DataArchive.

Variable cp932_encode : string -> option (list Z).
Variable p : PkMgDataWriter.parameters.
Variable patch : bool.
Variable KEY : list Z.
Variables enc bin : string -> list Z.

Hypothesis HKEY : wf_bytes KEY.
Hypothesis HKEYne : KEY <> [].
Hypothesis Hfields : fields_inside p.

Lemma base_record_length (ne b : list Z) :
  len ne <= PkMgDataWriter.entry_size p ->
  length (base_record p patch ne b) = Z.to_nat (PkMgDataWriter.entry_size p).
Proof.
  intros Hne. unfold base_record, len in *.
  assert (Hb : length (ne ++ replicate (Z.to_nat (PkMgDataWriter.entry_size p
                                                  - Z.of_nat (length ne))) 0)
               = Z.to_nat (PkMgDataWriter.entry_size p)).
  { rewrite length_app, length_replicate. lia. }
  destruct patch; [exact Hb|].
  rewrite overlay_length; [exact Hb|]. rewrite Hb, length_take. lia.
Qed.

Lemma record_of_length (base : list Z) (offset size : Z) :
  length base = Z.to_nat (PkMgDataWriter.entry_size p) ->
  length (record_of p base offset size) = Z.to_nat (PkMgDataWriter.entry_size p).
Proof.
  intros Hb. destruct Hfields as (_ & Hfo & Hso). unfold record_of.
  assert (H1 : length (overlay base (Z.to_nat (PkMgDataWriter.file_offset p))
                               (le32 offset)) = length base)
    by (apply overlay_length; rewrite le32_length; lia).
  rewrite overlay_length; rewrite H1; [exact Hb|rewrite le32_length; lia].
Qed.

Lemma write_entry_record (pre : list Z) (pos0 : nat) (i : Z)
    (file_name hex_data : string) (data : list Z) (offset : Z) :
  packable cp932_encode p patch enc bin (file_name, hex_data, data) ->
  0 <= i -> length pre = Z.to_nat (4 + i * PkMgDataWriter.entry_size p) ->
  0 <= offset < 4294967296 -> len data < 4294967296 ->
  forall rest,
    PkMgDataWriter.write_entries cp932_encode p KEY patch
      ((file_name, hex_data, data) :: rest) i (PkMgDataWriter.mkFile pre pos0) offset
    = PkMgDataWriter.write_entries cp932_encode p KEY patch rest (i + 1)
        (PkMgDataWriter.mkFile
           (pre ++ record_of p (base_record p patch (enc file_name) (bin hex_data))
                             offset (len data))
           (length pre + Z.to_nat (PkMgDataWriter.size_offset p) + 4))
        (offset + len data).
Proof.
  intros (Henc & Hlen & Hwf & Hhex) Hi Hpre Hoff Hsz rest.
  cbn [fst snd] in *.
  destruct Hfields as (Hno & Hfo & Hso).
  assert (HES : 0 <= PkMgDataWriter.entry_size p) by lia.
  cbn [PkMgDataWriter.write_entries].
  rewrite (xor_encrypt_ok data KEY Hwf HKEY HKEYne). cbn [mbind result_bind].
  assert (Hxl : len (xor_stream data KEY) = len data)
    by (unfold len; rewrite xor_stream_length; reflexivity).
  rewrite Hxl.
  assert (Hstart : 0 <= 4 + i * PkMgDataWriter.entry_size p) by nia.
  rewrite (seek_to pre pos0 _ (length pre)) by lia.
  cbn [mbind result_bind]. unfold PkMgDataWriter.encode. rewrite Henc.
  cbn [mbind result_bind]. rewrite write_at_end.
  rewrite <- length_app, write_at_end, <- app_assoc, Hno, Z.add_0_l.
  set (blank := enc file_name
                ++ replicate (Z.to_nat (PkMgDataWriter.entry_size p - len (enc file_name))) 0).
  assert (Hbl : length blank = Z.to_nat (PkMgDataWriter.entry_size p)).
  { unfold blank, len in *. rewrite length_app, length_replicate. lia. }
  set (base := base_record p patch (enc file_name) (bin hex_data)).
  assert (Hbase : length base = Z.to_nat (PkMgDataWriter.entry_size p))
    by (apply base_record_length; exact Hlen).
  assert (Hstep : exists pos1,
    (if patch
     then Ok (PkMgDataWriter.mkFile (pre ++ blank)
                (length (pre ++ enc file_name)
                 + length (replicate (Z.to_nat (PkMgDataWriter.entry_size p
                                                - len (enc file_name))) 0)))
     else
       binary_data ← PkMgDataWriter.hex_to_bytes hex_data;
       archive ← PkMgDataWriter.seek
                   (PkMgDataWriter.mkFile (pre ++ blank)
                      (length (pre ++ enc file_name)
                       + length (replicate (Z.to_nat (PkMgDataWriter.entry_size p
                                                      - len (enc file_name))) 0)))
                   (4 + i * PkMgDataWriter.entry_size p);
       Ok (PkMgDataWriter.write archive
             (PkmgGra.slice_to binary_data (PkMgDataWriter.entry_size p))))
    = Ok (PkMgDataWriter.mkFile (pre ++ base) pos1)).
  { unfold base, base_record. fold blank. destruct patch.
    - eexists. reflexivity.
    - rewrite (Hhex eq_refl). cbn [mbind result_bind].
      rewrite (seek_to (pre ++ blank) _ _ (length pre + 0)) by lia.
      cbn [mbind result_bind].
      unfold PkmgGra.slice_to.
      destruct (Z.ltb_spec (PkMgDataWriter.entry_size p) 0); [lia|].
      rewrite write_overlay by lia. eexists. reflexivity. }
  destruct Hstep as [pos1 Hstep]. rewrite Hstep. clear Hstep.
  cbn [mbind result_bind].
  rewrite (seek_to (pre ++ base) _ _
             (length pre + Z.to_nat (PkMgDataWriter.file_offset p))) by lia.
  cbn [mbind result_bind].
  rewrite (pack_u32_le32 offset Hoff). cbn [mbind result_bind].
  rewrite write_overlay by lia.
  rewrite (seek_to _ _ _ (length pre + Z.to_nat (PkMgDataWriter.size_offset p)))
    by lia.
  cbn [mbind result_bind].
  rewrite (pack_u32_le32 (len data)) by (unfold len in *; lia).
  cbn [mbind result_bind].
  rewrite write_overlay
    by (rewrite overlay_length; rewrite ?le32_length; lia).
  reflexivity.
Qed.
Lemma write_entries_records (files : list (string * string * list Z)) :
  forall (i : Z) (pre : list Z) (pos0 : nat) (offset : Z),
    Forall (packable cp932_encode p patch enc bin) files ->
    0 <= i -> length pre = Z.to_nat (4 + i * PkMgDataWriter.entry_size p) ->
    0 <= offset -> offset + len (concat (map snd files)) < 4294967296 ->
    exists pos1,
      PkMgDataWriter.write_entries cp932_encode p KEY patch files i
        (PkMgDataWriter.mkFile pre pos0) offset
      = Ok (PkMgDataWriter.mkFile
              (pre ++ concat (records_of p patch enc bin files offset)) pos1,
            offset + len (concat (map snd files))).
Proof.
  induction files as [|[[file_name hex_data] data] files IH];
    intros i pre pos0 offset Hall Hi Hpre Hoff Hfit.
  - exists pos0. cbn. rewrite app_nil_r, Z.add_0_r. reflexivity.
  - apply Forall_cons in Hall as [Hf Hall].
    cbn [map snd concat] in Hfit. unfold len in Hfit. rewrite length_app in Hfit.
    rewrite (write_entry_record pre pos0 i file_name hex_data data offset Hf Hi Hpre)
      by (unfold len; lia).
    destruct Hf as (_ & Hlen & _). cbn [fst snd] in Hlen.
    set (rec := record_of p (base_record p patch (enc file_name) (bin hex_data))
                          offset (len data)).
    assert (Hrec : length (pre ++ rec)
                   = Z.to_nat (4 + (i + 1) * PkMgDataWriter.entry_size p)).
    { unfold rec.
      rewrite length_app, record_of_length by (apply base_record_length; exact Hlen).
      destruct Hfields as (_ & Hfo & _). nia. }
    assert (Hfit' : offset + len data + len (concat (map snd files)) < 4294967296)
      by (unfold len; lia).
    destruct (IH (i + 1) (pre ++ rec)
                 (length pre + Z.to_nat (PkMgDataWriter.size_offset p) + 4)%nat
                 (offset + len data) Hall ltac:(lia) Hrec ltac:(unfold len; lia) Hfit')
      as [pos1 Hw].
    exists pos1. rewrite Hw. cbn [records_of concat map snd]. fold rec.
    rewrite <- app_assoc. unfold len. rewrite length_app. f_equal. f_equal. lia.
Qed.

Lemma records_of_length (files : list (string * string * list Z)) :
  forall offset,
    Forall (packable cp932_encode p patch enc bin) files ->
    len (concat (records_of p patch enc bin files offset))
    = len files * PkMgDataWriter.entry_size p.
Proof.
  induction files as [|[[file_name hex_data] data] files IH]; intros offset Hall;
    [reflexivity|].
  apply Forall_cons in Hall as [(_ & Hlen & _) Hall]. cbn [fst snd] in Hlen.
  cbn [records_of concat]. unfold len in *. rewrite length_app.
  rewrite record_of_length by (apply base_record_length; exact Hlen).
  specialize (IH (offset + Z.of_nat (length data)) Hall).
  destruct Hfields as (_ & Hfo & _). cbn [length]. nia.
Qed.

Lemma write_data_appends (files : list (string * string * list Z)) :
  forall buf : list Z,
    Forall (packable cp932_encode p patch enc bin) files ->
    PkMgDataWriter.write_data KEY files (PkMgDataWriter.mkFile buf (length buf))
    = Ok (PkMgDataWriter.mkFile
            (buf ++ concat (map (fun f => xor_stream f.2 KEY) files))
            (length (buf ++ concat (map (fun f => xor_stream f.2 KEY) files)))).
Proof.
  induction files as [|[[file_name hex_data] data] files IH]; intros buf Hall.
  - cbn. rewrite app_nil_r. reflexivity.
  - apply Forall_cons in Hall as [(_ & _ & Hwf & _) Hall]. cbn [fst snd] in Hwf.
    cbn [PkMgDataWriter.write_data].
    rewrite (xor_encrypt_ok data KEY Hwf HKEY HKEYne). cbn [mbind result_bind].
    rewrite write_at_end, <- length_app, (IH _ Hall).
    cbn [map concat snd]. rewrite <- !app_assoc. reflexivity.
Qed.

End DataArchive.

Lemma pack_files_written
    (cp932_encode : string -> option (list Z))
    (input_dir : string -> option (list Z))
    (p : PkMgDataWriter.parameters) (file_info : list (string * string))
    (patch : bool) (KEY : list Z) (enc bin : string -> list Z) :
  let files := PkMgDataWriter.available_files input_dir file_info in
  let header_size := 4 + len files * PkMgDataWriter.entry_size p in
  cp932_encode (PkMgDataWriter.key p) = Some KEY ->
  wf_bytes KEY -> KEY <> [] ->
  fields_inside p ->
  Forall (packable cp932_encode p patch enc bin) files ->
  header_size + 4 + len (concat (map snd files)) < 4294967296 ->
  PkMgDataWriter.pack_files cp932_encode input_dir p file_info patch
  = Ok (le32 (len files)
        ++ concat (records_of p patch enc bin files (header_size + 4))
        ++ [0; 0; 0; 0]
        ++ concat (map (fun f => xor_stream f.2 KEY) files)).
Proof.
  intros files header_size Hkey HKEY HKEYne Hfields Hall Hfit.
  assert (HES : 4 <= PkMgDataWriter.entry_size p)
    by (destruct Hfields as (_ & Hfo & _); lia).
  assert (Hn : 0 <= len files) by (unfold len; lia).
  assert (Hd : 0 <= len (concat (map snd files))) by (unfold len; lia).
  assert (Hhs : 4 <= header_size) by (unfold header_size; nia).
  unfold PkMgDataWriter.pack_files, PkMgDataWriter.encode. rewrite Hkey.
  cbn [mbind result_bind]. fold files. fold header_size.
  rewrite (pack_u32_le32 (len files)) by (unfold header_size in *; nia).
  cbn [mbind result_bind].
  change (PkMgDataWriter.mkFile [] 0) with (PkMgDataWriter.mkFile [] (length (@nil Z))).
  rewrite write_at_end. cbn [app].
  destruct (write_entries_records cp932_encode p patch KEY enc bin HKEY HKEYne
              Hfields files 0 (le32 (len files)) (length (@nil Z) + length (le32 (len files)))
              (header_size + 4) Hall ltac:(lia) eq_refl ltac:(lia) Hfit) as [pos1 Hw].
  rewrite Hw. cbn [mbind result_bind].
  pose proof (records_of_length cp932_encode p patch enc bin Hfields files
                (header_size + 4) Hall) as Hrl.
  set (idx := concat (records_of p patch enc bin files (header_size + 4))) in *.
  assert (Hlen : length (le32 (len files) ++ idx) = Z.to_nat header_size).
  { rewrite length_app, le32_length. unfold header_size, len in *. lia. }
  rewrite (seek_to _ _ _ (length (le32 (len files) ++ idx))) by lia.
  cbn [mbind result_bind]. rewrite write_at_end.
  rewrite (seek_to _ _ _ (length ((le32 (len files) ++ idx) ++ [0; 0; 0; 0])))
    by (rewrite ?length_app in *; cbn [length] in *; lia).
  cbn [mbind result_bind].
  rewrite (write_data_appends cp932_encode p patch KEY enc bin HKEY HKEYne files _ Hall).
  cbn [mbind result_bind PkMgDataWriter.content].
  rewrite <- !app_assoc. reflexivity.
Qed.

(** X16. The layout of the archive that [pack_files] of [PkMgData.py]
    writes with its seeks and writes, for a key that encodes to a non-empty
    byte string, a layout whose name starts the record and whose offset and
    size fields lie inside it, names that fit the record and an archive
    below 4 GiB: the count, one record of [entry_size] bytes for each file
    that exists in the input directory (in the order of the JSON object),
    four zero bytes, and the files XOR-ed with the key, in the same order.
    A record is the name padded with zero bytes (covered in normal mode by
    the first [entry_size] bytes of the file's JSON text) with the offset and
    the size written over their fields; the offsets start after the four zero
    bytes and advance by the sizes. *)
Theorem mgdata_archive_layout
    (cp932_encode : string -> option (list Z))
    (input_dir : string -> option (list Z))
    (p : PkMgDataWriter.parameters) (file_info : list (string * string))
    (patch : bool) (KEY : list Z) (enc bin : string -> list Z) :
  let files := PkMgDataWriter.available_files input_dir file_info in
  let header_size := 4 + len files * PkMgDataWriter.entry_size p in
  cp932_encode (PkMgDataWriter.key p) = Some KEY ->
  wf_bytes KEY -> KEY <> [] ->
  fields_inside p ->
  Forall (packable cp932_encode p patch enc bin) files ->
  header_size + 4 + len (concat (map snd files)) < 4294967296 ->
  PkMgDataWriter.pack_files cp932_encode input_dir p file_info patch
  = Ok (le32 (len files)
        ++ concat (records_of p patch enc bin files (header_size + 4))
        ++ [0; 0; 0; 0]
        ++ concat (map (fun f => xor_stream f.2 KEY) files)).
Proof. exact (pack_files_written cp932_encode input_dir p file_info patch KEY enc bin). Qed.

Lemma mgdata_archive_layout_witness :
  PkMgDataWriter.pack_files sample_encode sample_dir sample_parameters sample_info false
  = Ok (le32 2
        ++ concat (records_of sample_parameters false string_bytes bytes_of_hex
                     (PkMgDataWriter.available_files sample_dir sample_info)
                     (4 + 2 * 0x18 + 4))
        ++ [0; 0; 0; 0]
        ++ concat (map (fun f => xor_stream f.2 [0x6b; 0x31])
                       (PkMgDataWriter.available_files sample_dir sample_info))).
Proof.
  apply (mgdata_archive_layout sample_encode sample_dir sample_parameters sample_info
           false [0x6b; 0x31] string_bytes bytes_of_hex).
  - reflexivity.
  - repeat constructor; unfold is_byte; lia.
  - discriminate.
  - unfold fields_inside. cbn. lia.
  - repeat constructor; cbn; try (unfold is_byte; lia); vm_compute; congruence.
  - vm_compute. reflexivity.
Defined.

Lemma unpack_le32 (v : Z) : 0 <= v < 4294967296 -> unpack_u32 (le32 v) = Ok v.
Proof.
  intros Hv. destruct (unpack_pack_u32 v Hv) as [_ Hsum].
  unfold le32, unpack_u32. f_equal. lia.
Qed.

Lemma le32_wf (v : Z) : 0 <= v < 4294967296 -> wf_bytes (le32 v).
Proof.
  intros Hv. unfold le32.
  repeat constructor; unfold is_byte;
    try (apply Z.mod_pos_bound; lia);
    try (apply Z.div_pos; lia); try (apply Z.div_lt_upper_bound; lia).
Qed.

Lemma fread_mid (pre r post : list Z) (k : nat) (n : Z) :
  (k + Z.to_nat n <= length r)%nat ->
  fread (pre ++ r ++ post) (length pre + k) n = take (Z.to_nat n) (drop k r).
Proof.
  intros Hk. unfold fread.
  rewrite <- drop_drop, drop_app_exact by reflexivity.
  rewrite drop_app_le by lia. rewrite take_app_le by (rewrite length_drop; lia).
  reflexivity.
Qed.

Lemma record_p40 (k : string) (base : list Z) (offset size : Z) :
  length base = 64%nat ->
  record_of (writer_params k p40) base offset size
  = take 56 base ++ le32 offset ++ le32 size.
Proof.
  intros Hb. unfold record_of, overlay. cbn [writer_params p40 PkMgDataWriter.file_offset
    PkMgDataWriter.size_offset ExMgData.file_offset ExMgData.size_offset].
  change (Z.to_nat 56) with 56%nat. change (Z.to_nat 60) with 60%nat.
  rewrite !le32_length.
  rewrite (app_assoc (take 56 base)).
  rewrite take_app_exact by (rewrite length_app, length_take, le32_length; lia).
  rewrite drop_ge
    by (rewrite !length_app, length_take, length_drop, le32_length; lia).
  rewrite app_nil_r, <- app_assoc. reflexivity.
Qed.

Section MgDataRoundTrip.

Variable cp932_encode : string -> option (list Z).
Variable cp932_decode : list Z -> option string.
Variable enc : string -> list Z.
Variable k : string.

Lemma blank_p40 (name : string) (b : list Z) :
  len (enc name) <= 0x20 ->
  base_record (writer_params k p40) true (enc name) b
  = enc name ++ replicate (64 - length (enc name)) 0
  /\ length (base_record (writer_params k p40) true (enc name) b) = 64%nat.
Proof.
  intros Hlen. unfold base_record, len in *.
  cbn [writer_params p40 PkMgDataWriter.entry_size ExMgData.entry_size].
  replace (Z.to_nat (64 - Z.of_nat (length (enc name))))
    with (64 - length (enc name))%nat by lia.
  split; [reflexivity|]. rewrite length_app, length_replicate. lia.
Qed.

Lemma record_name (base rest : list Z) (name : string) :
  Forall (fun b => b <> 0) (enc name) -> len (enc name) <= 0x20 ->
  base = enc name ++ replicate (64 - length (enc name)) 0 ->
  ExMgData.before_nul (take 32 (take 56 base ++ rest)) = enc name.
Proof.
  intros Hnz Hlen ->. unfold len in Hlen.
  rewrite take_app_le
    by (rewrite length_take, length_app, length_replicate; lia).
  rewrite take_take. change (32 `min` 56)%nat with 32%nat.
  rewrite take_app, (take_ge (enc name)) by lia.
  rewrite take_replicate.
  apply before_nul_app; [exact Hnz|].
  destruct (Nat.min _ _) as [|m]; [left; reflexivity|right; eexists; reflexivity].
Qed.

Lemma read_entry_written (pre post : list Z) (i : nat)
    (f : string * string * list Z) (b : list Z) (offset : Z) :
  length pre = (4 + i * 64)%nat ->
  round_trips cp932_encode cp932_decode enc f ->
  0 <= offset < 4294967296 -> len f.2 < 4294967296 ->
  ExMgData.read_entry cp932_decode
    (pre ++ record_of (writer_params k p40)
                      (base_record (writer_params k p40) true (enc f.1.1) b)
                      offset (len f.2) ++ post)
    (0x04 + (0 + Z.of_nat i) * 0x40) 0x00 0x38 0x3C
  = Ok (Some f.1.1, offset, len f.2).
Proof.
  intros Hpre ((Henc & Hwf & Hnz & Hlen & Hdec) & Hd) Hoff Hsz.
  destruct (blank_p40 f.1.1 b Hlen) as [Hbase Hbl].
  rewrite (record_p40 k _ offset (len f.2) Hbl).
  set (base := base_record (writer_params k p40) true (enc f.1.1) b) in *.
  set (rec := take 56 base ++ le32 offset ++ le32 (len f.2)).
  assert (Hrl : length rec = 64%nat)
    by (unfold rec; rewrite !length_app, length_take, !le32_length; lia).
  unfold ExMgData.read_entry, ExMgData.unpack_uint32.
  replace (Z.to_nat (4 + (0 + Z.of_nat i) * 64 + 0)) with (length pre + 0)%nat by lia.
  replace (Z.to_nat (4 + (0 + Z.of_nat i) * 64 + 56)) with (length pre + 56)%nat by lia.
  replace (Z.to_nat (4 + (0 + Z.of_nat i) * 64 + 60)) with (length pre + 60)%nat by lia.
  rewrite !fread_mid by (rewrite Hrl; lia).
  rewrite drop_0. change (Z.to_nat 32) with 32%nat. change (Z.to_nat 4) with 4%nat.
  unfold rec at 1. rewrite (record_name base _ f.1.1 Hnz Hlen Hbase), Hdec.
  assert (H56 : take 4 (drop 56 rec) = le32 offset).
  { unfold rec. rewrite drop_app_exact by (rewrite length_take; lia).
    apply take_app_exact. reflexivity. }
  assert (H60 : take 4 (drop 60 rec) = le32 (len f.2)).
  { unfold rec. rewrite app_assoc.
    rewrite drop_app_exact by (rewrite length_app, length_take, le32_length; lia).
    apply take_ge. rewrite le32_length. lia. }
  rewrite H56, H60, !unpack_le32 by (unfold len in *; lia).
  reflexivity.
Qed.

Lemma record_p40_length (name : string) (b : list Z) (offset size : Z) :
  len (enc name) <= 0x20 ->
  length (record_of (writer_params k p40)
                    (base_record (writer_params k p40) true (enc name) b)
                    offset size) = 64%nat.
Proof.
  intros Hlen. destruct (blank_p40 name b Hlen) as [_ Hbl].
  rewrite (record_p40 k _ offset size Hbl).
  rewrite !length_app, length_take, !le32_length. lia.
Qed.

Lemma read_entries_written (bin : string -> list Z)
    (files : list (string * string * list Z)) :
  forall (i : nat) (pre post : list Z) (acc : list (string * Z * Z)) (offset : Z),
    length pre = (4 + i * 64)%nat ->
    Forall (round_trips cp932_encode cp932_decode enc) files ->
    0 <= offset -> offset + len (concat (map snd files)) < 4294967296 ->
    ExMgData.read_entries cp932_decode
      (pre ++ concat (records_of (writer_params k p40) true enc bin files offset)
           ++ post)
      p40 (map (fun j => 0 + Z.of_nat j) (seq i (length files))) acc
    = Ok (Some (acc ++ index_of files offset)).
Proof.
  induction files as [|[[name hex] data] files IH];
    intros i pre post acc offset Hpre Hall Hoff Hfit.
  - cbn. rewrite app_nil_r. reflexivity.
  - apply Forall_cons in Hall as [Hf Hall].
    cbn [map snd concat] in Hfit. unfold len in Hfit. rewrite length_app in Hfit.
    cbn [length seq map ExMgData.read_entries records_of concat index_of].
    cbn [p40 ExMgData.entry_size ExMgData.name_offset ExMgData.file_offset
         ExMgData.size_offset].
    rewrite <- (app_assoc (record_of _ _ _ _)).
    rewrite (read_entry_written pre _ i (name, hex, data) (bin hex) offset Hpre Hf)
      by (cbn [snd]; unfold len; lia).
    cbn [mbind result_bind fst snd].
    rewrite (app_assoc pre).
    pose proof Hf as ((_ & _ & _ & Hlen & _) & _). cbn [fst] in Hlen.
    rewrite (IH (S i)); [rewrite <- app_assoc; reflexivity| |exact Hall| |].
    + rewrite length_app, (record_p40_length name (bin hex) _ _ Hlen), Hpre. lia.
    + unfold len. lia.
    + unfold len. lia.
Qed.

Lemma extract_written (bin : string -> list Z)
    (files : list (string * string * list Z)) :
  forall (i : nat) (pre mid post : list Z) (offset : Z)
         (acc : list (string * string)),
    length pre = (4 + i * 64)%nat ->
    offset = Z.of_nat (length pre
                       + length (concat (records_of (writer_params k p40) true enc
                                                    bin files offset))
                       + length mid) ->
    Forall (round_trips cp932_encode cp932_decode enc) files ->
    List.NoDup (map fst acc ++ map (fun f => f.1.1) files) ->
    ExMgData.extract
      (pre ++ concat (records_of (writer_params k p40) true enc bin files offset)
           ++ mid ++ concat (map (fun f => xor_stream f.2 ExMgData.KEY) files) ++ post)
      p40 (Z.of_nat i) (index_of files offset) acc
    = Ok (map (fun f => (f.1.1, f.2)) files,
          acc ++ sidecar_of (writer_params k p40) true enc bin files offset).
Proof.
  induction files as [|[[name hex] data] files IH];
    intros i pre mid post offset acc Hpre Hoff Hall Hnd.
  { cbn. rewrite app_nil_r. reflexivity. }
  apply Forall_cons in Hall as [Hf Hall].
  pose proof Hf as ((_ & _ & _ & Hlen & _) & Hwf). cbn [fst snd] in Hlen, Hwf.
  cbn [records_of concat map index_of sidecar_of ExMgData.extract fst snd] in *.
  set (rec := record_of (writer_params k p40)
                (base_record (writer_params k p40) true (enc name) (bin hex))
                offset (len data)) in *.
  set (recs := concat (records_of (writer_params k p40) true enc bin files
                                  (offset + len data))) in *.
  set (ed := xor_stream data ExMgData.KEY).
  set (eds := concat (map (fun f => xor_stream f.2 ExMgData.KEY) files)).
  assert (Hrl : length rec = 64%nat) by (apply record_p40_length; exact Hlen).
  unfold ExMgData.save_file.
  assert (Hdata : fread (pre ++ (rec ++ recs) ++ mid ++ (ed ++ eds) ++ post)
                        (Z.to_nat offset) (len data) = ed).
  { replace (pre ++ (rec ++ recs) ++ mid ++ (ed ++ eds) ++ post)
      with ((pre ++ (rec ++ recs) ++ mid) ++ ed ++ (eds ++ post))
      by (rewrite <- !app_assoc; reflexivity).
    replace (Z.to_nat offset) with (length (pre ++ (rec ++ recs) ++ mid) + 0)%nat
      by (rewrite Hoff, !length_app; lia).
    rewrite fread_mid
      by (unfold ed, len; rewrite xor_stream_length; lia).
    rewrite drop_0. apply take_ge. unfold ed, len. rewrite xor_stream_length. lia. }
  rewrite Hdata. change (ExMgData.key p40) with ExMgData.KEY.
  rewrite xor_decrypt_ok;
    [|apply xor_stream_wf; [exact Hwf|apply KEY_wf|discriminate]
     |apply KEY_wf|discriminate].
  unfold ed. rewrite xor_stream_involutive. fold ed. cbn [mbind result_bind].
  assert (Hrec : fread (pre ++ (rec ++ recs) ++ mid ++ (ed ++ eds) ++ post)
                       (Z.to_nat (4 + Z.of_nat i * ExMgData.entry_size p40))
                       (ExMgData.entry_size p40) = rec).
  { replace (pre ++ (rec ++ recs) ++ mid ++ (ed ++ eds) ++ post)
      with (pre ++ rec ++ (recs ++ mid ++ (ed ++ eds) ++ post))
      by (rewrite <- !app_assoc; reflexivity).
    replace (Z.to_nat (4 + Z.of_nat i * ExMgData.entry_size p40))
      with (length pre + 0)%nat by (cbn; lia).
    rewrite fread_mid by (cbn; lia).
    rewrite drop_0. apply take_ge. cbn. lia. }
  rewrite Hrec.
  assert (Hfresh : ~ In name (map fst acc)).
  { apply List.NoDup_remove_2 in Hnd. intros Hin. apply Hnd.
    apply in_or_app. left. exact Hin. }
  rewrite (dict_set_fresh acc name _ Hfresh).
  replace (pre ++ (rec ++ recs) ++ mid ++ (ed ++ eds) ++ post)
    with ((pre ++ rec) ++ recs ++ (mid ++ ed) ++ eds ++ post)
    by (rewrite <- !app_assoc; reflexivity).
  replace (Z.of_nat i + 1) with (Z.of_nat (S i)) by lia.
  assert (Hoff' : offset + len data
                  = Z.of_nat (length (pre ++ rec) + length recs + length (mid ++ ed))).
  { rewrite Hoff at 1. unfold ed, len.
    rewrite !length_app, xor_stream_length. lia. }
  assert (Hpre' : length (pre ++ rec) = (4 + S i * 64)%nat)
    by (rewrite length_app, Hrl, Hpre; lia).
  assert (Hnd' : List.NoDup (map fst (acc ++ [(name, ExMgData.hex_of_bytes rec)])
                             ++ map (fun f => f.1.1) files)).
  { rewrite map_app. cbn [map fst]. rewrite <- app_assoc. exact Hnd. }
  pose proof (IH (S i) (pre ++ rec) (mid ++ ed) post (offset + len data)
                 (acc ++ [(name, ExMgData.hex_of_bytes rec)])
                 Hpre' Hoff' Hall Hnd') as Hx.
  fold recs eds in Hx. rewrite Hx. rewrite <- app_assoc. reflexivity.
Qed.

End MgDataRoundTrip.

Lemma fields_inside_p40 (k : string) : fields_inside (writer_params k p40).
Proof. unfold fields_inside. cbn. lia. Qed.

Lemma round_trips_packable (cp932_encode : string -> option (list Z))
    (cp932_decode : list Z -> option string) (enc bin : string -> list Z)
    (k : string) (files : list (string * string * list Z)) :
  Forall (round_trips cp932_encode cp932_decode enc) files ->
  Forall (packable cp932_encode (writer_params k p40) true enc bin) files.
Proof.
  intros Hall. eapply Forall_impl; [exact Hall|].
  intros f ((Henc & _ & _ & Hlen & _) & Hwf).
  split; [exact Henc|]. split; [cbn; lia|]. split; [exact Hwf|discriminate].
Qed.

Lemma process_written (cp932_encode : string -> option (list Z))
    (cp932_decode : list Z -> option string) (enc bin : string -> list Z)
    (k : string) (files : list (string * string * list Z)) :
  Forall (round_trips cp932_encode cp932_decode enc) files ->
  List.NoDup (map (fun f => f.1.1) files) ->
  4 + len files * 0x40 + 4 + len (concat (map snd files)) < 4294967296 ->
  ExMgData.process_mbl cp932_decode
    (le32 (len files)
     ++ concat (records_of (writer_params k p40) true enc bin files
                           (4 + len files * 0x40 + 4))
     ++ [0; 0; 0; 0]
     ++ concat (map (fun f => xor_stream f.2 ExMgData.KEY) files))
  = Ok (ExMgData.Extracted p40 (map (fun f => (f.1.1, f.2)) files)
          (sidecar_of (writer_params k p40) true enc bin files
                      (4 + len files * 0x40 + 4))).
Proof.
  intros Hall Hnd Hfit.
  assert (Hn : 0 <= len files) by (unfold len; lia).
  assert (Hd : 0 <= len (concat (map snd files))) by (unfold len; lia).
  pose proof (records_of_length cp932_encode (writer_params k p40) true enc bin
                (fields_inside_p40 k) files (4 + len files * 0x40 + 4)
                (round_trips_packable _ _ _ bin k files Hall)) as Hrl.
  cbn [writer_params p40 PkMgDataWriter.entry_size ExMgData.entry_size] in Hrl.
  set (recs := concat (records_of (writer_params k p40) true enc bin files
                                  (4 + len files * 0x40 + 4))) in *.
  set (eds := concat (map (fun f => xor_stream f.2 ExMgData.KEY) files)).
  unfold ExMgData.process_mbl, ExMgData.unpack_uint32, fread.
  change (Z.to_nat 0) with 0%nat. change (Z.to_nat 4) with 4%nat.
  rewrite drop_0, take_app_exact by reflexivity.
  rewrite unpack_le32 by lia. cbn [mbind result_bind].
  change ExMgData.parameter_sets with [p40; p18].
  cbn [ExMgData.try_parameter_sets]. unfold ExMgData.attempt, range.
  rewrite Z.sub_0_r.
  replace (Z.to_nat (len files)) with (length files) by (unfold len; lia).
  pose proof (read_entries_written cp932_encode cp932_decode enc k bin files 0
                (le32 (len files)) ([0; 0; 0; 0] ++ eds) []
                (4 + len files * 0x40 + 4) eq_refl Hall ltac:(lia) ltac:(lia)) as Hre.
  fold recs in Hre. rewrite Hre. cbn [mbind result_bind app].
  pose proof (extract_written cp932_encode cp932_decode enc k bin files 0
                (le32 (len files)) [0; 0; 0; 0] [] (4 + len files * 0x40 + 4) []
                eq_refl) as Hex.
  fold recs eds in Hex. rewrite app_nil_r in Hex.
  change (Z.of_nat 0) with 0 in Hex. cbn [app] in Hex.
  rewrite Hex; [reflexivity| |exact Hall|exact Hnd].
  rewrite le32_length. unfold len in *. cbn [length]. lia.
Qed.

(** X17. The data archive round trip: an archive that [pack_files] of
    [PkMgData.py] writes in patch mode with the [0x40] layout and the preset
    key is read back by [process_mbl] of [ExMgData.py] with that layout. For
    files with distinct names (the keys of a JSON object) that encode to at
    most 32 bytes without a NUL and decode again, and an archive below
    4 GiB, the extracted files are the packed files, names and bytes, in
    order, and the sidecar has one key for each file, with the 64 bytes of
    its record. *)
Theorem mgdata_round_trip
    (cp932_encode : string -> option (list Z))
    (cp932_decode : list Z -> option string)
    (input_dir : string -> option (list Z)) (k : string)
    (file_info : list (string * string)) (enc : string -> list Z) :
  let files := PkMgDataWriter.available_files input_dir file_info in
  cp932_encode k = Some ExMgData.KEY ->
  Forall (round_trips cp932_encode cp932_decode enc) files ->
  List.NoDup (map (fun f => f.1.1) files) ->
  4 + len files * 0x40 + 4 + len (concat (map snd files)) < 4294967296 ->
  exists archive,
    PkMgDataWriter.pack_files cp932_encode input_dir (writer_params k p40)
                              file_info true = Ok archive
    /\ ExMgData.process_mbl cp932_decode archive
       = Ok (ExMgData.Extracted p40 (map (fun f => (f.1.1, f.2)) files)
               (sidecar_of (writer_params k p40) true enc (fun _ => []) files
                           (4 + len files * 0x40 + 4))).
Proof.
  intros files Hkey Hall Hnd Hfit.
  eexists. split.
  - apply (pack_files_written cp932_encode input_dir (writer_params k p40) file_info
             true ExMgData.KEY enc (fun _ => []) Hkey KEY_wf ltac:(discriminate)
             (fields_inside_p40 k)
             (round_trips_packable _ _ _ _ k _ Hall) Hfit).
  - exact (process_written cp932_encode cp932_decode enc (fun _ => []) k files
             Hall Hnd Hfit).
Qed.

Lemma mgdata_round_trip_witness :
  exists archive,
    PkMgDataWriter.pack_files sample_encode sample_dir (writer_params key_text p40)
                              sample_info true = Ok archive
    /\ ExMgData.process_mbl ascii_decode archive
       = Ok (ExMgData.Extracted p40
               (map (fun f => (f.1.1, f.2))
                    (PkMgDataWriter.available_files sample_dir sample_info))
               (sidecar_of (writer_params key_text p40) true string_bytes (fun _ => [])
                           (PkMgDataWriter.available_files sample_dir sample_info)
                           (4 + len (PkMgDataWriter.available_files sample_dir sample_info)
                                * 0x40 + 4))).
Proof.
  apply (mgdata_round_trip sample_encode ascii_decode sample_dir key_text sample_info
           string_bytes).
  - vm_compute. reflexivity.
  - repeat constructor; cbn; try (unfold is_byte; lia); vm_compute; congruence.
  - repeat constructor; cbn; intuition discriminate.
  - vm_compute. reflexivity.
Defined.

Lemma dir_of_none (l : list (string * list Z)) (name : string) :
  ~ In name (map fst l) -> dir_of l name = None.
Proof.
  induction l as [|[n d] l IH]; intros Hn; [reflexivity|].
  cbn [dir_of]. rewrite IH by (intros Hin; apply Hn; right; exact Hin).
  destruct (String.eqb_spec n name) as [->|_]; [|reflexivity].
  exfalso. apply Hn. left. reflexivity.
Qed.

Lemma dir_of_lookup (l : list (string * list Z)) (name : string) (data : list Z) :
  List.NoDup (map fst l) -> In (name, data) l -> dir_of l name = Some data.
Proof.
  induction l as [|[n d] l IH]; intros Hnd Hin; [destruct Hin|].
  cbn [map fst] in Hnd. apply List.NoDup_cons_iff in Hnd as [Hn Hnd].
  cbn [dir_of]. destruct Hin as [[= -> ->]|Hin].
  - rewrite dir_of_none by exact Hn. rewrite String.eqb_refl. reflexivity.
  - rewrite (IH Hnd Hin). reflexivity.
Qed.

Lemma available_resaved (dir : string -> option (list Z))
    (p : PkMgDataWriter.parameters) (patch : bool) (enc bin : string -> list Z)
    (files : list (string * string * list Z)) :
  forall offset,
    Forall (fun f => dir f.1.1 = Some f.2) files ->
    PkMgDataWriter.available_files dir (sidecar_of p patch enc bin files offset)
    = resaved p patch enc bin files offset.
Proof.
  induction files as [|[[name hex] data] files IH]; intros offset Hall;
    [reflexivity|].
  apply Forall_cons in Hall as [Hd Hall]. cbn [fst snd] in Hd.
  cbn [sidecar_of resaved PkMgDataWriter.available_files].
  rewrite Hd, (IH _ Hall). reflexivity.
Qed.

Lemma resaved_data (p : PkMgDataWriter.parameters) (patch : bool)
    (enc bin : string -> list Z) (files : list (string * string * list Z)) :
  forall offset,
    map snd (resaved p patch enc bin files offset) = map snd files
    /\ length (resaved p patch enc bin files offset) = length files.
Proof.
  induction files as [|[[name hex] data] files IH]; intros offset;
    [split; reflexivity|].
  cbn [resaved map snd length]. destruct (IH (offset + len data)) as [-> ->].
  split; reflexivity.
Qed.

Section MgDataRepack.

Variable cp932_encode : string -> option (list Z).
Variable cp932_decode : list Z -> option string.
Variable enc bin : string -> list Z.
Variable k : string.

Lemma record_wf (name : string) (b : list Z) (offset size : Z) :
  wf_bytes (enc name) -> len (enc name) <= 0x20 ->
  0 <= offset < 4294967296 -> 0 <= size < 4294967296 ->
  wf_bytes (record_of (writer_params k p40)
              (base_record (writer_params k p40) true (enc name) b) offset size).
Proof.
  intros Hwf Hlen Hoff Hsz.
  destruct (blank_p40 enc k name b Hlen) as [Hbase Hbl].
  rewrite (record_p40 k _ offset size Hbl), Hbase.
  apply Forall_app. split.
  - apply Forall_take, Forall_app. split; [exact Hwf|].
    apply Forall_replicate. unfold is_byte. lia.
  - apply Forall_app. split; apply le32_wf; assumption.
Qed.

Lemma record_again (name : string) (b : list Z) (offset size : Z) :
  wf_bytes (enc name) -> len (enc name) <= 0x20 ->
  0 <= offset < 4294967296 -> 0 <= size < 4294967296 ->
  let rec := record_of (writer_params k p40)
               (base_record (writer_params k p40) true (enc name) b) offset size in
  PkMgDataWriter.hex_to_bytes (ExMgData.hex_of_bytes rec)
  = Ok (bytes_of_hex (ExMgData.hex_of_bytes rec))
  /\ record_of (writer_params k p40)
       (base_record (writer_params k p40) false (enc name)
                    (bytes_of_hex (ExMgData.hex_of_bytes rec)))
       offset size = rec.
Proof.
  intros Hwf Hlen Hoff Hsz rec.
  pose proof (record_wf name b offset size Hwf Hlen Hoff Hsz) as Hrwf.
  fold rec in Hrwf.
  assert (Hrl : length rec = 64%nat) by (apply record_p40_length; exact Hlen).
  assert (Hhex : PkMgDataWriter.hex_to_bytes (ExMgData.hex_of_bytes rec) = Ok rec)
    by (apply fromhex_hex_of_bytes; exact Hrwf).
  assert (Hb : bytes_of_hex (ExMgData.hex_of_bytes rec) = rec)
    by (unfold bytes_of_hex; rewrite Hhex; reflexivity).
  rewrite Hb. split; [exact Hhex|].
  destruct (blank_p40 enc k name b Hlen) as [Hbase Hbl].
  assert (Hnew : base_record (writer_params k p40) false (enc name) rec = rec).
  { unfold base_record in *. unfold overlay.
    cbn [writer_params p40 PkMgDataWriter.entry_size ExMgData.entry_size] in *.
    change (Z.to_nat 64) with 64%nat.
    rewrite (take_ge rec) by lia. rewrite take_0, Hrl. cbn [app].
    rewrite drop_ge by lia. apply app_nil_r. }
  rewrite Hnew, (record_p40 k rec offset size Hrl).
  unfold rec at 1. rewrite (record_p40 k _ offset size Hbl).
  rewrite take_app_exact by (rewrite length_take; lia).
  symmetry. apply (record_p40 k _ offset size Hbl).
Qed.

Lemma resaved_records (files : list (string * string * list Z)) :
  forall offset,
    Forall (round_trips cp932_encode cp932_decode enc) files ->
    0 <= offset -> offset + len (concat (map snd files)) < 4294967296 ->
    Forall (packable cp932_encode (writer_params k p40) false enc bytes_of_hex)
           (resaved (writer_params k p40) true enc bin files offset)
    /\ records_of (writer_params k p40) false enc bytes_of_hex
         (resaved (writer_params k p40) true enc bin files offset) offset
       = records_of (writer_params k p40) true enc bin files offset.
Proof.
  induction files as [|[[name hex] data] files IH]; intros offset Hall Hoff Hfit.
  - split; [constructor|reflexivity].
  - apply Forall_cons in Hall as [((Henc & Hwf & _ & Hlen & _) & Hd) Hall].
    cbn [fst snd] in *.
    cbn [map snd concat] in Hfit. unfold len in Hfit. rewrite length_app in Hfit.
    destruct (IH (offset + len data) Hall) as [Hp Hr]; try (unfold len; lia).
    destruct (record_again name (bin hex) offset (len data) Hwf Hlen)
      as [Hhex Hrec]; try (unfold len; lia).
    cbn [resaved records_of]. split.
    + constructor; [|exact Hp].
      split; [exact Henc|]. split; [cbn; lia|]. split; [exact Hd|].
      intros _. exact Hhex.
    + rewrite Hrec, Hr. reflexivity.
Qed.

End MgDataRepack.

(** X18. Extracting and packing again gives the same archive. Take an
    archive that [pack_files] of [PkMgData.py] wrote in patch mode with the
    [0x40] layout and the preset key, for files with distinct names as in
    X17, none of them called [parameters] or [entries.json]. When
    [process_mbl] of [ExMgData.py] has extracted it, [pack_files] in normal
    mode, run on the extracted files with the parameters and the sidecar of
    [entries.json], writes that archive again, byte for byte. *)
Theorem mgdata_repack
    (cp932_encode : string -> option (list Z))
    (cp932_decode : list Z -> option string)
    (input_dir : string -> option (list Z)) (k : string)
    (file_info : list (string * string)) (enc : string -> list Z) :
  let files := PkMgDataWriter.available_files input_dir file_info in
  cp932_encode k = Some ExMgData.KEY ->
  Forall (round_trips cp932_encode cp932_decode enc) files ->
  List.NoDup (map (fun f => f.1.1) files) ->
  Forall (fun f => plain_name f.1.1) files ->
  4 + len files * 0x40 + 4 + len (concat (map snd files)) < 4294967296 ->
  exists archive extracted side,
    PkMgDataWriter.pack_files cp932_encode input_dir (writer_params k p40)
                              file_info true = Ok archive
    /\ ExMgData.process_mbl cp932_decode archive
       = Ok (ExMgData.Extracted p40 extracted side)
    /\ PkMgDataWriter.pack_files cp932_encode (dir_of extracted)
                                 (writer_params k p40) side false = Ok archive.
Proof.
  intros files Hkey Hall Hnd _ Hfit.
  set (bin0 := fun _ : string => @nil Z).
  set (off0 := 4 + len files * 0x40 + 4).
  assert (Hn : 0 <= len files) by (unfold len; lia).
  eexists. exists (map (fun f => (f.1.1, f.2)) files).
  exists (sidecar_of (writer_params k p40) true enc bin0 files off0).
  split; [|split].
  - apply (pack_files_written cp932_encode input_dir (writer_params k p40) file_info
             true ExMgData.KEY enc bin0 Hkey KEY_wf ltac:(discriminate)
             (fields_inside_p40 k)
             (round_trips_packable _ _ _ _ k _ Hall) Hfit).
  - exact (process_written cp932_encode cp932_decode enc bin0 k files Hall Hnd Hfit).
  - assert (Hdir : Forall (fun f => dir_of (map (fun f => (f.1.1, f.2)) files) f.1.1
                                    = Some f.2) files).
    { apply Forall_forall. intros f Hf. apply dir_of_lookup.
      - rewrite map_map. exact Hnd.
      - apply in_map_iff. exists f. split; [reflexivity|].
        apply list_elem_of_In. exact Hf. }
    pose proof (available_resaved _ (writer_params k p40) true enc bin0 files off0 Hdir)
      as Hav.
    destruct (resaved_data (writer_params k p40) true enc bin0 files off0)
      as [Hdata Hlen].
    destruct (resaved_records cp932_encode cp932_decode enc bin0 k files off0 Hall)
      as [Hp Hr]; try (unfold off0; lia).
    pose proof (pack_files_written cp932_encode
                  (dir_of (map (fun f => (f.1.1, f.2)) files))
                  (writer_params k p40)
                  (sidecar_of (writer_params k p40) true enc bin0 files off0)
                  false ExMgData.KEY enc bytes_of_hex Hkey KEY_wf
                  ltac:(discriminate) (fields_inside_p40 k)) as Hw.
    cbv zeta in Hw. rewrite Hav in Hw.
    assert (Hl : len (resaved (writer_params k p40) true enc bin0 files off0)
                 = len files) by (unfold len; rewrite Hlen; reflexivity).
    rewrite Hl, Hdata in Hw.
    cbn [writer_params p40 PkMgDataWriter.entry_size ExMgData.entry_size] in Hw.
    fold off0 in Hw. fold (writer_params k p40) in Hw.
    rewrite (Hw Hp Hfit). rewrite Hr.
    replace (map (fun f => xor_stream f.2 ExMgData.KEY)
                 (resaved (writer_params k p40) true enc bin0 files off0))
      with (map (fun f => xor_stream f.2 ExMgData.KEY) files).
    + reflexivity.
    + rewrite <- (map_map snd (fun d => xor_stream d ExMgData.KEY)).
      rewrite <- (map_map snd (fun d => xor_stream d ExMgData.KEY) (resaved _ _ _ _ _ _)).
      rewrite Hdata. reflexivity.
Qed.

Lemma mgdata_repack_witness :
  exists archive extracted side,
    PkMgDataWriter.pack_files sample_encode sample_dir (writer_params key_text p40)
                              sample_info true = Ok archive
    /\ ExMgData.process_mbl ascii_decode archive
       = Ok (ExMgData.Extracted p40 extracted side)
    /\ PkMgDataWriter.pack_files sample_encode (dir_of extracted)
                                 (writer_params key_text p40) side false = Ok archive.
Proof.
  apply (mgdata_repack sample_encode ascii_decode sample_dir key_text sample_info
           string_bytes).
  - vm_compute. reflexivity.
  - repeat constructor; cbn; try (unfold is_byte; lia); vm_compute; congruence.
  - repeat constructor; cbn; intuition discriminate.
  - repeat constructor; discriminate.
  - vm_compute. reflexivity.
Defined.

(** ** The pixel loop of the PRS writer *)

Lemma byte_values_ok (vals : list Z) :
  wf_bytes vals -> PrsImage.byte_values vals = Ok vals.
Proof.
  intros Hwf. unfold PrsImage.byte_values.
  replace (forallb is_byteb vals) with true; [reflexivity|].
  symmetry. induction Hwf as [|v vals Hv _ IH]; [reflexivity|].
  cbn [forallb]. rewrite (is_byteb_true _ Hv), IH. reflexivity.
Qed.

Section PixelLoop.

Variable image : PrsImage.Image.
Hypothesis Hbanded : banded image.

Lemma pixel_bytes_length (x y : Z) :
  0 <= x < PrsImage.width image -> 0 <= y < PrsImage.height image ->
  length (pixel_bytes (PrsImage.rgba image) (PrsImage.load image x y))
  = Z.to_nat (if PrsImage.rgba image then 4 else 3).
Proof.
  intros Hx Hy. destruct (Hbanded x y Hx Hy) as [_ Hlen].
  unfold pixel_bytes, len in *.
  rewrite length_app, length_reverse, length_take.
  destruct (PrsImage.rgba image); cbn [length]; lia.
Qed.

Lemma store_pixel_ok (y x : Z) (pre rest : list Z) :
  let depth := if PrsImage.rgba image then 4 else 3 in
  0 <= x < PrsImage.width image -> 0 <= y < PrsImage.height image ->
  Z.of_nat (length pre) = y * (PrsImage.width image * depth) + x * depth ->
  (Z.to_nat depth <= length rest)%nat ->
  PrsImage.store_pixel image depth (PrsImage.width image * depth) y
                       (Ok (pre ++ rest)) x
  = Ok (pre ++ pixel_bytes (PrsImage.rgba image) (PrsImage.load image x y)
            ++ drop (Z.to_nat depth) rest).
Proof.
  intros depth Hx Hy Hpre Hrest.
  destruct (Hbanded x y Hx Hy) as [Hwf Hlen].
  unfold PrsImage.store_pixel. cbn [mbind result_bind].
  set (pixel := PrsImage.load image x y) in *.
  rewrite byte_values_ok by (apply Forall_reverse, Forall_take; exact Hwf).
  cbn [mbind result_bind].
  assert (Hbgr : length (reverse (take 3 pixel)) = 3%nat).
  { rewrite length_reverse, length_take. unfold len in Hlen.
    destruct (PrsImage.rgba image); lia. }
  assert (Hslice : setslice (pre ++ rest)
                     (y * (PrsImage.width image * depth) + x * depth)
                     (y * (PrsImage.width image * depth) + x * depth + 3)
                     (reverse (take 3 pixel))
                   = pre ++ reverse (take 3 pixel) ++ drop 3 rest).
  { unfold setslice. rewrite <- Hpre.
    replace (Z.to_nat (Z.of_nat (length pre) + 3)) with (length pre + 3)%nat by lia.
    rewrite Nat2Z.id, take_app_exact by reflexivity.
    rewrite <- drop_drop, drop_app_exact by reflexivity. reflexivity. }
  rewrite Hslice. unfold pixel_bytes, depth in *.
  destruct (PrsImage.rgba image).
  - change (4 =? 4) with true. cbn iota.
    destruct (getitem_in_range pixel 3 ltac:(lia)) as (a & -> & Ha).
    cbn [mbind result_bind].
    change (Z.to_nat 3) with 3%nat in Ha.
    rewrite (list_lookup_total_correct _ _ _ Ha).
    assert (Hab : is_byte a) by (eapply wf_bytes_lookup; eauto).
    destruct (drop 3 rest) as [|r3 rest4] eqn:Hd.
    { apply (f_equal length) in Hd. rewrite length_drop in Hd.
      cbn [length] in Hd. lia. }
    rewrite setitem_ok;
      [|unfold len; rewrite !length_app; cbn [length]; lia|exact Hab].
    replace (Z.to_nat (y * (PrsImage.width image * 4) + x * 4 + 3))
      with (length pre + (length (reverse (take 3 pixel)) + 0))%nat by lia.
    rewrite insert_app_r, insert_app_r. cbn [insert list_insert].
    replace (drop (Z.to_nat 4) rest) with rest4; [rewrite <- app_assoc; reflexivity|].
    change (Z.to_nat 4) with (3 + 1)%nat. rewrite <- drop_drop, Hd. reflexivity.
  - change (3 =? 4) with false. cbn iota. rewrite app_nil_r. reflexivity.
Qed.

Lemma store_row_from (y : Z) (n : nat) :
  let depth := if PrsImage.rgba image then 4 else 3 in
  forall (x0 : Z) (pre tail : list Z),
    0 <= y < PrsImage.height image ->
    0 <= x0 -> x0 + Z.of_nat n = PrsImage.width image ->
    Z.of_nat (length pre) = y * (PrsImage.width image * depth) + x0 * depth ->
    foldl (PrsImage.store_pixel image depth (PrsImage.width image * depth) y)
          (Ok (pre ++ replicate (n * Z.to_nat depth) 0 ++ tail))
          (range x0 (PrsImage.width image))
    = Ok (pre
          ++ flat_map (fun x => pixel_bytes (PrsImage.rgba image)
                                            (PrsImage.load image x y))
                      (range x0 (PrsImage.width image))
          ++ tail).
Proof.
  intros depth. induction n as [|n IH]; intros x0 pre tail Hy Hx0 Hw Hpre.
  - rewrite range_nil by lia. reflexivity.
  - rewrite range_cons by lia. cbn [foldl flat_map].
    assert (Hd : (0 < Z.to_nat depth)%nat) by (unfold depth; destruct (PrsImage.rgba image); lia).
    rewrite (store_pixel_ok y x0 pre _ ltac:(lia) Hy Hpre)
      by (rewrite length_app, length_replicate; lia).
    fold depth.
    replace (drop (Z.to_nat depth) (replicate (S n * Z.to_nat depth) 0 ++ tail))
      with (replicate (n * Z.to_nat depth) 0 ++ tail).
    2:{ cbn [Nat.mul]. rewrite replicate_add, <- app_assoc.
        rewrite drop_app_exact by apply length_replicate. reflexivity. }
    rewrite (app_assoc pre).
    rewrite (IH (x0 + 1) _ tail Hy ltac:(lia) ltac:(lia)).
    + rewrite <- !app_assoc. reflexivity.
    + rewrite length_app, (pixel_bytes_length x0 y ltac:(lia) Hy). fold depth.
      assert (0 <= depth) by (unfold depth; destruct (PrsImage.rgba image); lia).
      lia.
Qed.

Lemma row_bytes_length (y : Z) :
  0 <= y < PrsImage.height image -> 0 <= PrsImage.width image ->
  length (row_bytes image y)
  = (Z.to_nat (PrsImage.width image)
     * Z.to_nat (if PrsImage.rgba image then 4 else 3))%nat.
Proof.
  intros Hy Hw. unfold row_bytes.
  assert (Hgen : forall (n : nat) x0, 0 <= x0 ->
            x0 + Z.of_nat n = PrsImage.width image ->
            length (flat_map (fun x => pixel_bytes (PrsImage.rgba image)
                                                   (PrsImage.load image x y))
                             (range x0 (PrsImage.width image)))
            = (n * Z.to_nat (if PrsImage.rgba image then 4 else 3))%nat).
  { induction n as [|n IH]; intros x0 Hx0 Hn.
    - rewrite range_nil by lia. reflexivity.
    - rewrite range_cons by lia. cbn [flat_map]. rewrite length_app.
      rewrite (pixel_bytes_length x0 y ltac:(lia) Hy), (IH (x0 + 1)) by lia.
      reflexivity. }
  apply Hgen; lia.
Qed.

Lemma store_rows_from (m : nat) :
  let depth := if PrsImage.rgba image then 4 else 3 in
  forall (y0 : Z) (pre : list Z),
    0 <= PrsImage.width image ->
    0 <= y0 -> y0 + Z.of_nat m = PrsImage.height image ->
    Z.of_nat (length pre) = y0 * (PrsImage.width image * depth) ->
    foldl (PrsImage.store_row image depth (PrsImage.width image * depth))
          (Ok (pre ++ replicate (m * (Z.to_nat (PrsImage.width image)
                                      * Z.to_nat depth)) 0))
          (range y0 (PrsImage.height image))
    = Ok (pre ++ flat_map (row_bytes image) (range y0 (PrsImage.height image))).
Proof.
  intros depth. induction m as [|m IH]; intros y0 pre Hw Hy0 Hh Hpre.
  - rewrite range_nil by lia. cbn. reflexivity.
  - rewrite range_cons by lia. cbn [foldl flat_map].
    unfold PrsImage.store_row at 2.
    cbn [Nat.mul]. rewrite replicate_add.
    rewrite (store_row_from y0 (Z.to_nat (PrsImage.width image)) 0 pre _
               ltac:(lia) ltac:(lia) ltac:(lia) ltac:(lia)).
    fold (row_bytes image y0). rewrite (app_assoc pre).
    rewrite (IH (y0 + 1) _ Hw ltac:(lia) ltac:(lia)).
    + rewrite <- app_assoc. reflexivity.
    + rewrite length_app, (row_bytes_length y0 ltac:(lia) Hw). fold depth.
      assert (0 <= depth) by (unfold depth; destruct (PrsImage.rgba image); lia).
      nia.
Qed.

End PixelLoop.

Lemma pixel_loop_ok (image : PrsImage.Image) :
  0 <= PrsImage.width image -> 0 <= PrsImage.height image ->
  banded image ->
  PrsImage.pixel_loop image = Ok (serialize image)
  /\ len (serialize image)
     = PrsImage.width image * PrsImage.height image
       * (if PrsImage.rgba image then 4 else 3).
Proof.
  intros Hw Hh Hb.
  set (depth := if PrsImage.rgba image then 4 else 3).
  assert (Hdepth : (if PrsImage.rgba image then 32 else 24) / 8 = depth)
    by (unfold depth; destruct (PrsImage.rgba image); reflexivity).
  assert (Hd : 0 <= depth) by (unfold depth; destruct (PrsImage.rgba image); lia).
  assert (Hloop : PrsImage.pixel_loop image = Ok (serialize image)).
  { unfold PrsImage.pixel_loop, PrsImage.bytearray. rewrite Hdepth.
    destruct (Z.ltb_spec (PrsImage.width image * depth * PrsImage.height image) 0);
      [nia|].
    cbn [mbind result_bind].
    replace (Z.to_nat (PrsImage.width image * depth * PrsImage.height image))
      with (Z.to_nat (PrsImage.height image)
            * (Z.to_nat (PrsImage.width image) * Z.to_nat depth))%nat by nia.
    exact (store_rows_from image Hb (Z.to_nat (PrsImage.height image)) 0 []
             Hw ltac:(lia) ltac:(lia) ltac:(cbn; lia)). }
  split; [exact Hloop|].
  unfold serialize.
  assert (Hgen : forall (m : nat) y0, 0 <= y0 ->
            y0 + Z.of_nat m = PrsImage.height image ->
            length (flat_map (row_bytes image) (range y0 (PrsImage.height image)))
            = (m * (Z.to_nat (PrsImage.width image) * Z.to_nat depth))%nat).
  { induction m as [|m IH]; intros y0 Hy0 Hm.
    - rewrite range_nil by lia. reflexivity.
    - rewrite range_cons by lia. cbn [flat_map]. rewrite length_app.
      rewrite (row_bytes_length image Hb y0 ltac:(lia) Hw), (IH (y0 + 1)) by lia.
      reflexivity. }
  unfold len. rewrite (Hgen (Z.to_nat (PrsImage.height image)) 0) by lia.
  fold depth. nia.
Qed.

Lemma serialize_wf (image : PrsImage.Image) :
  0 <= PrsImage.width image -> 0 <= PrsImage.height image ->
  banded image -> wf_bytes (serialize image).
Proof.
  intros Hw Hh Hb. unfold serialize, wf_bytes.
  assert (Hrow : forall y, 0 <= y < PrsImage.height image ->
            forall (n : nat) x0, 0 <= x0 -> x0 + Z.of_nat n = PrsImage.width image ->
              Forall is_byte
                (flat_map (fun x => pixel_bytes (PrsImage.rgba image)
                                                (PrsImage.load image x y))
                          (range x0 (PrsImage.width image)))).
  { intros y Hy. induction n as [|n IH]; intros x0 Hx0 Hn.
    - rewrite range_nil by lia. constructor.
    - rewrite range_cons by lia. cbn [flat_map]. apply Forall_app. split.
      + destruct (Hb x0 y ltac:(lia) Hy) as [Hwf Hlen]. unfold pixel_bytes.
        apply Forall_app. split; [apply Forall_reverse, Forall_take; exact Hwf|].
        destruct (PrsImage.rgba image); [|constructor].
        constructor; [|constructor].
        unfold len in Hlen.
        destruct (lookup_lt_is_Some_2 (PrsImage.load image x0 y) 3 ltac:(lia))
          as [a Ha].
        rewrite (list_lookup_total_correct _ _ _ Ha).
        eapply wf_bytes_lookup; eauto.
      + apply IH; lia. }
  assert (Hgen : forall (m : nat) y0, 0 <= y0 ->
            y0 + Z.of_nat m = PrsImage.height image ->
            Forall is_byte
              (flat_map (row_bytes image) (range y0 (PrsImage.height image)))).
  { induction m as [|m IH]; intros y0 Hy0 Hm.
    - rewrite range_nil by lia. constructor.
    - rewrite range_cons by lia. cbn [flat_map]. apply Forall_app. split.
      + apply (Hrow y0 ltac:(lia) (Z.to_nat (PrsImage.width image)) 0); lia.
      + apply IH; lia. }
  apply (Hgen (Z.to_nat (PrsImage.height image)) 0); lia.
Qed.

(** X21. The pixel loop of [PrsWriter.__init__] serialises the image: for an
    image whose pixels have their three bands (four in RGBA), each a byte,
    [self.input] after the loop holds the pixels row by row, each as blue,
    green, red and, in RGBA, alpha, and has [width * height * depth]
    bytes. *)
Theorem pixel_loop_serializes (image : PrsImage.Image) :
  0 <= PrsImage.width image -> 0 <= PrsImage.height image ->
  banded image ->
  PrsImage.pixel_loop image = Ok (serialize image)
  /\ len (serialize image)
     = PrsImage.width image * PrsImage.height image
       * (if PrsImage.rgba image then 4 else 3).
Proof. exact (pixel_loop_ok image). Qed.

Lemma pixel_loop_serializes_witness :
  PrsImage.pixel_loop sample_image = Ok (serialize sample_image)
  /\ len (serialize sample_image)
     = PrsImage.width sample_image * PrsImage.height sample_image
       * (if PrsImage.rgba sample_image then 4 else 3).
Proof.
  apply (pixel_loop_serializes sample_image).
  - cbn. lia.
  - cbn. lia.
  - intros x y Hx Hy. cbn in Hx, Hy. cbn [sample_image PrsImage.load PrsImage.rgba].
    split; [|unfold len; cbn; lia].
    repeat constructor; unfold is_byte; lia.
Defined.

(** X22. From an image to a PRS file and back: [convert_bmp_to_prs] (the
    pixel loop, the delta filter for RGBA images, and [pack]) writes a file
    from which [read_prs_meta_data] and [unpack], the steps of
    [convert_prs_to_bmp] before the image is saved, give back the pixels of
    the image, row by row in blue, green, red (and alpha) order, for an image
    of 1 to 65535 pixels each way whose payload fits the 32-bit size
    field. *)
Theorem bmp_prs_round_trip (image : PrsImage.Image) :
  let n := PrsImage.width image * PrsImage.height image
           * (if PrsImage.rgba image then 4 else 3) in
  0 < PrsImage.width image < 65536 -> 0 < PrsImage.height image < 65536 ->
  banded image ->
  n + (n + 7) / 8 < 4294967296 ->
  exists file r,
    PrsImage.convert_bmp_to_prs image = Ok file
    /\ PRS.decode_file file = Ok r
    /\ PRS.r_output r = serialize image
    /\ PRS.r_flag r = (if PrsImage.rgba image then 0x80 else 0x00).
Proof.
  intros n Hw Hh Hb Hfit.
  destruct (pixel_loop_ok image ltac:(lia) ltac:(lia) Hb) as [Hloop Hlen].
  fold n in Hlen.
  destruct (round_trip_any_flag (PrsImage.width image) (PrsImage.height image)
              (PrsImage.rgba image) (serialize image)
              (if PrsImage.rgba image then 0x80 else 0x00))
    as (wr & file & md & r & Hinit & Hpack & Hdec & Hout & Hflag);
    [destruct (PrsImage.rgba image); unfold is_byte; lia|exact Hw|exact Hh
    |apply serialize_wf; [lia|lia|exact Hb]|exact Hlen|rewrite Hlen; exact Hfit|].
  exists file, r. split; [|auto].
  unfold PrsImage.convert_bmp_to_prs. rewrite Hloop. cbn [mbind result_bind].
  rewrite Hinit. cbn [mbind result_bind]. rewrite Hpack. reflexivity.
Qed.

Lemma bmp_prs_round_trip_witness :
  exists file r,
    PrsImage.convert_bmp_to_prs sample_image = Ok file
    /\ PRS.decode_file file = Ok r
    /\ PRS.r_output r = serialize sample_image
    /\ PRS.r_flag r = (if PrsImage.rgba sample_image then 0x80 else 0x00).
Proof.
  apply (bmp_prs_round_trip sample_image).
  - cbn. lia.
  - cbn. lia.
  - intros x y Hx Hy. cbn in Hx, Hy. cbn [sample_image PrsImage.load PrsImage.rgba].
    split; [|unfold len; cbn; lia].
    repeat constructor; unfold is_byte; lia.
  - vm_compute. reflexivity.
Defined.
